(** * Claude Code usage monitor: aggregation engine

    A shallow embedding of [tools/claude-usage-monitor.py] (class
    [ClaudeUsageMonitor]) and the properties of its aggregation pass.

    - Parsed JSONL entries are values of [json], the image of [json.loads].
    - The Python dictionaries are finite maps ([gmap]), the sets are [gset].
    - The monitor object is mutated in place and a Python exception leaves
      the mutations made so far: methods are computations in a state and
      exception monad [M].
    - Derived figures that Python computes in binary64 are computed with
      the Standard Library's [SpecFloat] model of IEEE 754. *)

From Stdlib Require Import ZArith QArith Qpower String Ascii List Bool Lia Lqa.
From Stdlib Require Import Floats.SpecFloat.
From stdpp Require Import base option list gmap strings fin_maps fin_sets.

Local Open Scope string_scope.
Local Open Scope Z_scope.

Set Warnings "-register-all,-clear-no-such-hyp".

(** ** Parsed JSON values *)

(** What [json.loads] returns: [None], [bool], [int], [str], [list], [dict].
    A [JObj] lists the items of the dict (distinct keys, insertion order).
    Numerals are integers, as every counter of a session log is; a numeral
    with a fraction or an exponent (a Python [float]) is not in this
    model. *)
Inductive json : Type :=
  | JNull
  | JBool (b : bool)
  | JNum (z : Z)
  | JStr (s : string)
  | JArr (items : list json)
  | JObj (fields : list (string * json)).

(** The exceptions the aggregation pass can raise and does not catch
    itself ([ValueError] from the timestamp parser is caught in place),
    and those [json.loads] raises besides [json.JSONDecodeError]. *)
Inductive exn : Type :=
  | AttributeError
  | TypeError
  | RecursionError
  | ValueError.

(** What [json.loads(line)] does: it returns the decoded value, raises
    [json.JSONDecodeError], or raises another exception ([RecursionError]
    on a deeply nested line, [ValueError] on an integer literal over the
    digit limit). The last case also stands for an error of the file
    iterator at that line: either way the exception passes the handler
    [except json.JSONDecodeError] and ends the file. *)
Inductive loaded : Type :=
  | Loaded (entry : json)
  | JSONDecodeError
  | LoadsError (e : exn).

(** Keys of the monitor's dictionaries and sets: the hashable values a
    parsed entry can supply. [True] and [1] are the same dictionary key in
    Python, as are [False] and [0]. *)
Inductive key : Type :=
  | KNone
  | KInt (z : Z)
  | KStr (s : string).

Global Instance key_eq_dec : EqDecision key.
Proof. solve_decision. Defined.

Global Instance key_countable : Countable key.
Proof.
  refine (inj_countable'
    (λ k, match k with
          | KNone => inl (inl ())
          | KInt z => inl (inr z)
          | KStr s => inr s
          end)
    (λ x, match x with
          | inl (inl _) => KNone
          | inl (inr z) => KInt z
          | inr s => KStr s
          end) _).
  by intros [].
Defined.

Module Py.

(** [bool(v)]. *)
Definition truthy (v : json) : bool :=
  match v with
  | JNull => false
  | JBool b => b
  | JNum z => negb (z =? 0)
  | JStr s => negb (String.eqb s "")
  | JArr items => match items with [] => false | _ => true end
  | JObj fields => match fields with [] => false | _ => true end
  end.

(** [hash(v)] as a dictionary key; lists and dicts are unhashable. *)
Definition hash_key (v : json) : exn + key :=
  match v with
  | JNull => inr KNone
  | JBool b => inr (KInt (if b then 1 else 0))
  | JNum z => inr (KInt z)
  | JStr s => inr (KStr s)
  | JArr _ | JObj _ => inl TypeError
  end.

(** Lookup among the items of a dict. *)
Fixpoint dict_get (fields : list (string * json)) (k : string) : option json :=
  match fields with
  | [] => None
  | (k', v) :: rest => if String.eqb k' k then Some v else dict_get rest k
  end.

(** [v.get(k, default)]: only a dict has [get]. *)
Definition get (v : json) (k : string) (default : json) : exn + json :=
  match v with
  | JObj fields => inr (from_option id default (dict_get fields k))
  | _ => inl AttributeError
  end.

(** [v == s] for a string literal [s]. *)
Definition eq_str (v : json) (s : string) : bool :=
  match v with
  | JStr s' => String.eqb s' s
  | _ => false
  end.

(** The right operand of [int + v]: [bool] is a subclass of [int], every
    other type is a [TypeError]. *)
Definition as_int (v : json) : exn + Z :=
  match v with
  | JNum z => inr z
  | JBool b => inr (if b then 1 else 0)
  | _ => inl TypeError
  end.

(** [x or y], with [y] evaluated only when [x] is falsy. *)
Definition or_else (x : json) (y : exn + json) : exn + json :=
  if truthy x then inr x else y.

(** [s.replace('Z', '+00:00')]. *)
Fixpoint replace_Z (s : string) : string :=
  match s with
  | EmptyString => EmptyString
  | String c rest =>
      if Ascii.eqb c "Z"%char then "+00:00" ++ replace_Z rest
      else String c (replace_Z rest)
  end.

(** [c.isspace()] on the ASCII range. *)
Definition is_space (c : ascii) : bool :=
  let n := N_of_ascii c in
  ((9 <=? n) && (n <=? 13) || (28 <=? n) && (n <=? 32))%N.

(** [not line.strip()]. *)
Fixpoint blank (line : string) : bool :=
  match line with
  | EmptyString => true
  | String c rest => is_space c && blank rest
  end.

End Py.

(** ** Timestamps *)

(** A [datetime]: naive (no UTC offset) or aware, the latter identified
    with its instant in microseconds since the epoch. *)
Inductive datetime : Type :=
  | Naive
  | Aware (instant : Z).

(** ** The monitor's state *)

(** One value of [agent_usage] (the [defaultdict] factory gives zeros and
    an empty set). *)
Record agent_stats : Type := AgentStats {
  count : Z;
  total_input_tokens : Z;
  total_output_tokens : Z;
  total_cache_creation_tokens : Z;
  total_cache_read_tokens : Z;
  sessions : gset key
}.

(** One value of [tool_token_usage]. *)
Record token_stats : Type := TokenStats {
  input_tokens : Z;
  output_tokens : Z;
  cache_creation_tokens : Z;
  cache_read_tokens : Z
}.

(** The attributes of a [ClaudeUsageMonitor] that the analysis reads or
    writes; [cutoff_date] is the instant [now - days]. *)
Record monitor : Type := Monitor {
  days : Z;
  cutoff_date : Z;
  tool_usage : gmap key Z;
  agent_usage : gmap key agent_stats;
  tool_token_usage : gmap key token_stats;
  sessions_analyzed : gset key;
  total_sessions : Z
}.

Definition new_agent_stats : agent_stats := AgentStats 0 0 0 0 0 ∅.
Definition new_token_stats : token_stats := TokenStats 0 0 0 0.

(** [__init__], given the instant [now - timedelta(days)]. *)
Definition init (days cutoff : Z) : monitor :=
  Monitor days cutoff ∅ ∅ ∅ ∅ 0.

(** The four counters of a usage object, in the order the code adds them. *)
Inductive counter : Type :=
  | InputTokens
  | OutputTokens
  | CacheCreation
  | CacheRead.

Global Instance counter_eq_dec : EqDecision counter.
Proof. solve_decision. Defined.

(** The key of [message.usage] a counter is read from. *)
Definition usage_key (c : counter) : string :=
  match c with
  | InputTokens => "input_tokens"
  | OutputTokens => "output_tokens"
  | CacheCreation => "cache_creation_input_tokens"
  | CacheRead => "cache_read_input_tokens"
  end.

Definition agent_total (c : counter) (a : agent_stats) : Z :=
  match c with
  | InputTokens => total_input_tokens a
  | OutputTokens => total_output_tokens a
  | CacheCreation => total_cache_creation_tokens a
  | CacheRead => total_cache_read_tokens a
  end.

Definition tool_total (c : counter) (t : token_stats) : Z :=
  match c with
  | InputTokens => input_tokens t
  | OutputTokens => output_tokens t
  | CacheCreation => cache_creation_tokens t
  | CacheRead => cache_read_tokens t
  end.

Definition agent_add (c : counter) (n : Z) (a : agent_stats) : agent_stats :=
  match c with
  | InputTokens =>
      AgentStats (count a) (total_input_tokens a + n) (total_output_tokens a)
        (total_cache_creation_tokens a) (total_cache_read_tokens a) (sessions a)
  | OutputTokens =>
      AgentStats (count a) (total_input_tokens a) (total_output_tokens a + n)
        (total_cache_creation_tokens a) (total_cache_read_tokens a) (sessions a)
  | CacheCreation =>
      AgentStats (count a) (total_input_tokens a) (total_output_tokens a)
        (total_cache_creation_tokens a + n) (total_cache_read_tokens a) (sessions a)
  | CacheRead =>
      AgentStats (count a) (total_input_tokens a) (total_output_tokens a)
        (total_cache_creation_tokens a) (total_cache_read_tokens a + n) (sessions a)
  end.

Definition agent_bump (a : agent_stats) : agent_stats :=
  AgentStats (count a + 1) (total_input_tokens a) (total_output_tokens a)
    (total_cache_creation_tokens a) (total_cache_read_tokens a) (sessions a).

Definition agent_add_session (s : key) (a : agent_stats) : agent_stats :=
  AgentStats (count a) (total_input_tokens a) (total_output_tokens a)
    (total_cache_creation_tokens a) (total_cache_read_tokens a) ({[s]} ∪ sessions a).

Definition tool_add (c : counter) (n : Z) (t : token_stats) : token_stats :=
  match c with
  | InputTokens =>
      TokenStats (input_tokens t + n) (output_tokens t)
        (cache_creation_tokens t) (cache_read_tokens t)
  | OutputTokens =>
      TokenStats (input_tokens t) (output_tokens t + n)
        (cache_creation_tokens t) (cache_read_tokens t)
  | CacheCreation =>
      TokenStats (input_tokens t) (output_tokens t)
        (cache_creation_tokens t + n) (cache_read_tokens t)
  | CacheRead =>
      TokenStats (input_tokens t) (output_tokens t)
        (cache_creation_tokens t) (cache_read_tokens t + n)
  end.

(** *** Field updates of the monitor *)

Definition set_tool_usage (f : gmap key Z → gmap key Z) (st : monitor) : monitor :=
  Monitor (days st) (cutoff_date st) (f (tool_usage st)) (agent_usage st)
    (tool_token_usage st) (sessions_analyzed st) (total_sessions st).

Definition set_agent_usage (f : gmap key agent_stats → gmap key agent_stats)
    (st : monitor) : monitor :=
  Monitor (days st) (cutoff_date st) (tool_usage st) (f (agent_usage st))
    (tool_token_usage st) (sessions_analyzed st) (total_sessions st).

Definition set_tool_token_usage (f : gmap key token_stats → gmap key token_stats)
    (st : monitor) : monitor :=
  Monitor (days st) (cutoff_date st) (tool_usage st) (agent_usage st)
    (f (tool_token_usage st)) (sessions_analyzed st) (total_sessions st).

Definition set_sessions_analyzed (f : gset key → gset key) (st : monitor) : monitor :=
  Monitor (days st) (cutoff_date st) (tool_usage st) (agent_usage st)
    (tool_token_usage st) (f (sessions_analyzed st)) (total_sessions st).

Definition set_total_sessions (n : Z) (st : monitor) : monitor :=
  Monitor (days st) (cutoff_date st) (tool_usage st) (agent_usage st)
    (tool_token_usage st) (sessions_analyzed st) n.

(** [d[k] = f(d[k])] on a [defaultdict] (or a [Counter]) whose missing
    values are [d0]: the entry is created when absent. *)
Definition upd {V : Type} (d0 : V) (k : key) (f : V → V) (m : gmap key V) : gmap key V :=
  <[k := f (default d0 (m !! k))]> m.

(** ** The state and exception monad *)

Definition M (A : Type) : Type := monitor → monitor * (exn + A).

Definition ret {A : Type} (a : A) : M A := λ st, (st, inr a).

Definition raise {A : Type} (e : exn) : M A := λ st, (st, inl e).

Definition bind {A B : Type} (m : M A) (k : A → M B) : M B :=
  λ st, match m st with
        | (st', inr a) => k a st'
        | (st', inl e) => (st', inl e)
        end.

Definition lift {A : Type} (r : exn + A) : M A := λ st, (st, r).

Definition modify (f : monitor → monitor) : M unit := λ st, (f st, inr tt).

Definition gets {A : Type} (f : monitor → A) : M A := λ st, (st, inr (f st)).

Notation "x <- m ;; k" := (bind m (λ x, k))
  (at level 100, m at next level, right associativity).
Notation "m ;;; k" := (bind m (λ _, k))
  (at level 100, right associativity).

(** [for x in l: f(x)]. *)
Fixpoint for_each {A : Type} (f : A → M unit) (l : list A) : M unit :=
  match l with
  | [] => ret tt
  | x :: rest => f x ;;; for_each f rest
  end.

(** ** The aggregation pass *)

Section Monitor.

(** [datetime.fromisoformat]: [None] stands for [ValueError]. *)
Variable fromisoformat : string → option datetime.

(** [json.loads]. *)
Variable json_loads : string → loaded.

(** [self.agent_usage[agent_name][field] += usage.get(key, 0)]: the
    subscription comes first (creating the record), then the right-hand
    side, then the addition. *)
Definition add_agent_counter (agent : key) (usage : json) (c : counter) : M unit :=
  modify (set_agent_usage (upd new_agent_stats agent id)) ;;;
  v <- lift (Py.get usage (usage_key c) (JNum 0)) ;;
  n <- lift (Py.as_int v) ;;
  modify (set_agent_usage (upd new_agent_stats agent (agent_add c n))).

Definition track_agent_usage (agent_name message session_id : json) : M unit :=
  usage <- lift (Py.get message "usage" (JObj [])) ;;
  agent <- lift (Py.hash_key agent_name) ;;
  modify (set_agent_usage (upd new_agent_stats agent agent_bump)) ;;;
  add_agent_counter agent usage InputTokens ;;;
  add_agent_counter agent usage OutputTokens ;;;
  add_agent_counter agent usage CacheCreation ;;;
  add_agent_counter agent usage CacheRead ;;;
  if Py.truthy session_id then
    s <- lift (Py.hash_key session_id) ;;
    modify (set_agent_usage (upd new_agent_stats agent (agent_add_session s)))
  else ret tt.

(** [self.tool_token_usage[tool_name][field] += usage.get(key, 0)]. *)
Definition add_tool_counter (tool : key) (usage : json) (c : counter) : M unit :=
  modify (set_tool_token_usage (upd new_token_stats tool id)) ;;;
  v <- lift (Py.get usage (usage_key c) (JNum 0)) ;;
  n <- lift (Py.as_int v) ;;
  modify (set_tool_token_usage (upd new_token_stats tool (tool_add c n))).

Definition track_tool_tokens (tool_name message : json) : M unit :=
  usage <- lift (Py.get message "usage" (JObj [])) ;;
  tool <- lift (Py.hash_key tool_name) ;;
  add_tool_counter tool usage InputTokens ;;;
  add_tool_counter tool usage OutputTokens ;;;
  add_tool_counter tool usage CacheCreation ;;;
  add_tool_counter tool usage CacheRead.

(** The body of the loop over [content] in [process_entry]. *)
Definition process_item (message session_id item : json) : M unit :=
  match item with
  | JObj fields =>
      if Py.eq_str (default JNull (Py.dict_get fields "type")) "tool_use" then
        let tool_name := default JNull (Py.dict_get fields "name") in
        let tool_input := default (JObj []) (Py.dict_get fields "input") in
        if Py.truthy tool_name then
          tool <- lift (Py.hash_key tool_name) ;;
          modify (set_tool_usage (upd 0 tool (Z.add 1))) ;;;
          (if Py.eq_str tool_name "Task" then
             first <- lift (Py.get tool_input "subagent_type" JNull) ;;
             subagent <- lift (Py.or_else first (Py.get tool_input "agent" JNull)) ;;
             if Py.truthy subagent
             then track_agent_usage subagent message session_id
             else ret tt
           else ret tt) ;;;
          track_tool_tokens tool_name message
        else ret tt
      else ret tt
  | _ => ret tt
  end.

(** [process_entry] past the date check: the session and the content. *)
Definition process_retained (entry : json) : M unit :=
  session_id <- lift (Py.get entry "sessionId" JNull) ;;
  (if Py.truthy session_id then
     s <- lift (Py.hash_key session_id) ;;
     modify (set_sessions_analyzed (union {[s]}))
   else ret tt) ;;;
  message <- lift (Py.get entry "message" (JObj [])) ;;
  content <- lift (Py.get message "content" (JArr [])) ;;
  match content with
  | JArr items => for_each (process_item message session_id) items
  | _ => ret tt
  end.

(** The date check of [process_entry]: [true] when the entry is older
    than the cutoff. Comparing a naive [datetime] with the aware cutoff
    is a [TypeError]; only [ValueError] is caught. *)
Definition before_cutoff (entry : json) : M bool :=
  timestamp <- lift (Py.get entry "timestamp" JNull) ;;
  if Py.truthy timestamp then
    match timestamp with
    | JStr s =>
        match fromisoformat (Py.replace_Z s) with
        | Some (Aware t) => cutoff <- gets cutoff_date ;; ret (t <? cutoff)
        | Some Naive => raise TypeError
        | None => ret false
        end
    | _ => raise AttributeError
    end
  else ret false.

Definition process_entry (entry : json) : M unit :=
  old <- before_cutoff entry ;;
  if old then ret tt else process_retained entry.

(** The loop of [parse_session_file] over the lines of an open file:
    only [json.JSONDecodeError] is caught inside the loop. *)
Fixpoint parse_lines (lines : list string) : M unit :=
  match lines with
  | [] => ret tt
  | line :: rest =>
      if Py.blank line then parse_lines rest
      else match json_loads line with
           | Loaded entry => process_entry entry ;;; parse_lines rest
           | JSONDecodeError => parse_lines rest
           | LoadsError e => raise e
           end
  end.

(** [parse_session_file]: [None] is a file that cannot be opened. Any
    exception ends the file with a printed message; the [bool] tells
    whether one was printed. *)
Definition parse_session_file (file : option (list string)) (st : monitor)
    : monitor * bool :=
  match file with
  | None => (st, true)
  | Some lines =>
      match parse_lines lines st with
      | (st', inr _) => (st', false)
      | (st', inl _) => (st', true)
      end
  end.

(** [analyze_all_sessions]: [None] is a missing directory, otherwise the
    [*.jsonl] files found. *)
Definition analyze_all_sessions (dir : option (list (option (list string))))
    (st : monitor) : monitor :=
  match dir with
  | None => st
  | Some jsonl_files =>
      foldl (λ acc file, fst (parse_session_file file acc))
            (set_total_sessions (Z.of_nat (length jsonl_files)) st)
            jsonl_files
  end.

End Monitor.

(** ** Derived figures of the text report *)

(** Python numbers as the report computes them: [int] or binary64
    [float]. *)
Inductive pynum : Type :=
  | PyInt (z : Z)
  | PyFloat (f : spec_float).

(** Arithmetic faults of the report's divisions. *)
Inductive fault : Type :=
  | ZeroDivisionError
  | OverflowError.

Module Float.

Definition prec : Z := 53.
Definition emax : Z := 1024.

Definition mul : spec_float → spec_float → spec_float := SFmul prec emax.
Definition add : spec_float → spec_float → spec_float := SFadd prec emax.

(** [float(z)]: the nearest binary64, ties to even. *)
Definition of_int (z : Z) : fault + spec_float :=
  match binary_normalize prec emax z 0 false with
  | S754_infinity _ => inl OverflowError
  | f => inr f
  end.

(** [a / b] on two [int]s: the correctly rounded quotient. *)
Definition truediv (a b : Z) : fault + spec_float :=
  if b =? 0 then inl ZeroDivisionError
  else if a =? 0 then inr (S754_zero (b <? 0))
  else
    let '(q, e, l) := SFdiv_core_binary prec emax (Z.abs a) 0 (Z.abs b) 0 in
    match binary_round_aux prec emax (xorb (a <? 0) (b <? 0)) q e l with
    | S754_infinity _ => inl OverflowError
    | f => inr f
    end.

(** The literals [100], [3.00], [15.00], [0.30] and [90.0] as binary64. *)
Definition lit_100 : spec_float := S754_finite false 7036874417766400 (-46).
Definition lit_3 : spec_float := S754_finite false 6755399441055744 (-51).
Definition lit_15 : spec_float := S754_finite false 8444249301319680 (-49).
Definition lit_0_30 : spec_float := S754_finite false 5404319552844595 (-54).
Definition lit_90 : spec_float := S754_finite false 6333186975989760 (-46).

End Float.

Definition try {A B : Type} (r : fault + A) (k : A → fault + B) : fault + B :=
  match r with
  | inl e => inl e
  | inr a => k a
  end.

Fixpoint try_map {A B : Type} (f : A → fault + B) (l : list A) : fault + list B :=
  match l with
  | [] => inr []
  | x :: rest =>
      try (f x) (λ y, try (try_map f rest) (λ ys, inr (y :: ys)))
  end.

(** [sum(f(v) for v in d.values())]. *)
Definition sum_values {V : Type} (f : V → Z) (m : gmap key V) : Z :=
  map_fold (λ _ v acc, f v + acc) 0 m.

(** [sum(f(x) for x in l)]. *)
Definition sum_list {A : Type} (f : A → Z) (l : list A) : Z :=
  foldr (λ x acc, f x + acc) 0 l.

(** Whether a consumer is an agent ("Agent: " prefix) or a tool ("Tool: "
    prefix). *)
Inductive entity : Type :=
  | Agent
  | Tool.

(** One element of [token_consumers]. *)
Record consumer : Type := Consumer {
  name : entity * key;
  total_billable : Z;
  total_cache_read : Z;
  cache_efficiency : pynum;
  calls : Z
}.

(** [(cache_read / total_with_cache * 100) if total_with_cache > 0 else 0]. *)
Definition efficiency (cache_read total_with_cache : Z) : fault + pynum :=
  if total_with_cache >? 0 then
    try (Float.truediv cache_read total_with_cache)
        (λ q, inr (PyFloat (Float.mul q Float.lit_100)))
  else inr (PyInt 0).

(** The body of the loop "Add agents". *)
Definition agent_consumer (st : monitor) (item : key * agent_stats) : fault + consumer :=
  let '(agent, data) := item in
  let total_billable :=
    total_input_tokens data + total_output_tokens data * 3
    + total_cache_creation_tokens data in
  let total_with_cache := total_billable + total_cache_read_tokens data in
  try (efficiency (total_cache_read_tokens data) total_with_cache)
      (λ eff, inr (Consumer (Agent, agent) total_billable
                     (total_cache_read_tokens data) eff (count data))).

(** The body of the loop "Add tools"; a [Counter] reads 0 for a missing
    key. *)
Definition tool_consumer (st : monitor) (item : key * token_stats) : fault + consumer :=
  let '(tool, tokens) := item in
  let total_billable :=
    input_tokens tokens + output_tokens tokens * 3
    + cache_creation_tokens tokens in
  let total_with_cache := total_billable + cache_read_tokens tokens in
  try (efficiency (cache_read_tokens tokens) total_with_cache)
      (λ eff, inr (Consumer (Tool, tool) total_billable
                     (cache_read_tokens tokens) eff
                     (default 0 (tool_usage st !! tool)))).

(** [token_consumers.sort(key=total_billable, reverse=True)]: descending,
    and stable (consumers of equal totals keep their order). *)
Fixpoint insert_by_billable (x : consumer) (l : list consumer) : list consumer :=
  match l with
  | [] => [x]
  | y :: rest =>
      if total_billable y <=? total_billable x then x :: y :: rest
      else y :: insert_by_billable x rest
  end.

Definition sort_by_billable (l : list consumer) : list consumer :=
  foldr insert_by_billable [] l.

(** [token_consumers], sorted. The dictionaries are walked in the order
    of [map_to_list]; Python walks them in insertion order, which shows
    only in how consumers of equal billable totals are listed. *)
Definition token_consumers (st : monitor) : fault + list consumer :=
  try (try_map (agent_consumer st) (map_to_list (agent_usage st))) (λ agents,
  try (try_map (tool_consumer st) (map_to_list (tool_token_usage st))) (λ tools,
  inr (sort_by_billable (agents ++ tools)))).

(** "Overall cache efficiency": the two sums and their ratio. *)
Definition total_billable_all (consumers : list consumer) : Z :=
  sum_list total_billable consumers.

Definition total_cache_read_all (consumers : list consumer) : Z :=
  sum_list total_cache_read consumers.

Definition overall_efficiency (consumers : list consumer) : fault + pynum :=
  efficiency (total_cache_read_all consumers)
             (total_billable_all consumers + total_cache_read_all consumers).

(** The component totals of the cost estimate. *)
Definition total_input (st : monitor) : Z :=
  sum_values input_tokens (tool_token_usage st)
  + sum_values total_input_tokens (agent_usage st).

Definition total_output (st : monitor) : Z :=
  sum_values output_tokens (tool_token_usage st)
  + sum_values total_output_tokens (agent_usage st).

Definition total_cache_create (st : monitor) : Z :=
  sum_values cache_creation_tokens (tool_token_usage st)
  + sum_values total_cache_creation_tokens (agent_usage st).

(** [(total / 1_000_000) * rate]. *)
Definition component_cost (total : Z) (rate : spec_float) : fault + spec_float :=
  try (Float.truediv total 1000000) (λ q, inr (Float.mul q rate)).

(** [estimated_cost], with Sonnet pricing. *)
Definition estimated_cost (st : monitor) (consumers : list consumer)
    : fault + spec_float :=
  let cost_per_million_input := Float.lit_3 in
  let cost_per_million_output := Float.lit_15 in
  let cost_per_million_cache_read := Float.lit_0_30 in
  try (component_cost (total_input st) cost_per_million_input) (λ c_in,
  try (component_cost (total_output st) cost_per_million_output) (λ c_out,
  try (component_cost (total_cache_create st) cost_per_million_input) (λ c_create,
  try (component_cost (total_cache_read_all consumers) cost_per_million_cache_read)
      (λ c_read,
  inr (Float.add (Float.add (Float.add c_in c_out) c_create) c_read))))).

(** The section "TOOL USAGE" reads [self.tool_token_usage[tool]] for
    every counted tool, which creates the record of a tool that has
    none. *)
Definition touch_tool_tokens (st : monitor) : monitor :=
  set_tool_token_usage
    (λ m, map_fold (λ tool _ acc, upd new_token_stats tool id acc) m (tool_usage st))
    st.

(** The figures of [generate_text_report] below "TOKEN CONSUMPTION
    ANALYSIS". *)
Record figures : Type := Figures {
  top_consumers : list consumer;
  billable_all : Z;
  cache_read_all : Z;
  overall : pynum;
  cost : spec_float
}.

Definition generate_text_report (st : monitor) : monitor * (fault + figures) :=
  let st := touch_tool_tokens st in
  (st,
   try (token_consumers st) (λ consumers,
   try (overall_efficiency consumers) (λ eff,
   try (estimated_cost st consumers) (λ c,
   inr (Figures (take 10 consumers) (total_billable_all consumers)
          (total_cache_read_all consumers) eff c))))).

(** The averages of [generate_json_report]:
    [total // count if count > 0 else 0]. *)
Definition average (total count : Z) : Z :=
  if count >? 0 then total `div` count else 0.

(** ** The upper sections of the text report and the JSON report *)

(** [sorted(l, key=key, reverse=True)] and [l.sort(key=key, reverse=True)]:
    descending by key, and stable. [Counter.most_common(n)] is the first
    [n] items of this order on the counts. The lists sorted are the items
    of a [gmap], which does not keep the insertion order of the Python
    dict: among items with equal keys, the order of a report is not that
    of this model. *)
Fixpoint insert_desc {A : Type} (key : A → Z) (x : A) (l : list A) : list A :=
  match l with
  | [] => [x]
  | y :: rest =>
      if key y <=? key x then x :: y :: rest
      else y :: insert_desc key x rest
  end.

Definition sort_desc {A : Type} (key : A → Z) (l : list A) : list A :=
  foldr (insert_desc key) [] l.

(** One agent of the section "AGENT USAGE": the invocations, the four
    averages and the number of sessions. *)
Record agent_row : Type := AgentRow {
  row_agent : key;
  row_invocations : Z;
  row_avg_input : Z;
  row_avg_output : Z;
  row_avg_cache_create : Z;
  row_avg_cache_read : Z;
  row_sessions : Z
}.

Definition agent_row_of (item : key * agent_stats) : agent_row :=
  let '(agent, data) := item in
  let count := count data in
  AgentRow agent count
    (average (total_input_tokens data) count)
    (average (total_output_tokens data) count)
    (average (total_cache_creation_tokens data) count)
    (average (total_cache_read_tokens data) count)
    (Z.of_nat (size (sessions data))).

(** The rows of "AGENT USAGE", by invocations; no row stands for "No
    agents invoked". *)
Definition agent_section (st : monitor) : list agent_row :=
  agent_row_of <$> sort_desc (λ item, count item.2) (map_to_list (agent_usage st)).




(** "SUMMARY", and the [summary] object of the JSON report. *)
Record summary : Type := Summary {
  total_tool_calls : Z;
  unique_tools_used : Z;
  total_agent_invocations : Z;
  unique_agents_used : Z
}.

Definition summarize (st : monitor) : summary :=
  Summary (sum_values id (tool_usage st)) (Z.of_nat (size (tool_usage st)))
    (sum_values count (agent_usage st)) (Z.of_nat (size (agent_usage st))).

(** [(count / total * 100) if total > 0 else 0]. *)
Definition percent (count total : Z) : fault + pynum :=
  if total >? 0 then
    try (Float.truediv count total) (λ q, inr (PyFloat (Float.mul q Float.lit_100)))
  else inr (PyInt 0).

(** "TOP 5 TOOLS (by frequency)": [most_common(5)] with the share of
    each tool in all calls. *)
Definition top_tools (st : monitor) : fault + list (key * Z * pynum) :=
  let total := sum_values id (tool_usage st) in
  try_map (λ item : key * Z,
             try (percent item.2 total) (λ pct, inr (item.1, item.2, pct)))
          (take 5 (sort_desc snd (map_to_list (tool_usage st)))).

(** One value of [agent_data] in [generate_json_report]; the list made
    of the session set is kept as the set. *)
Record agent_json : Type := AgentJson {
  json_count : Z;
  json_total_input_tokens : Z;
  json_total_output_tokens : Z;
  json_total_cache_creation_tokens : Z;
  json_total_cache_read_tokens : Z;
  json_avg_input_tokens : Z;
  json_avg_output_tokens : Z;
  json_sessions : gset key
}.

Definition agent_json_of (data : agent_stats) : agent_json :=
  AgentJson (count data) (total_input_tokens data) (total_output_tokens data)
    (total_cache_creation_tokens data) (total_cache_read_tokens data)
    (average (total_input_tokens data) (count data))
    (average (total_output_tokens data) (count data))
    (sessions data).

(** The [report] object of [generate_json_report], before
    [json.dumps]. *)
Record json_report : Type := JsonReport {
  analysis_period_days : Z;
  json_sessions_analyzed : Z;
  total_session_files : Z;
  json_agent_usage : gmap key agent_json;
  json_tool_usage : gmap key Z;
  json_tool_token_usage : gmap key token_stats;
  json_summary : summary
}.

Definition generate_json_report (st : monitor) : json_report :=
  JsonReport (days st) (Z.of_nat (size (sessions_analyzed st))) (total_sessions st)
    (agent_json_of <$> agent_usage st) (tool_usage st) (tool_token_usage st)
    (summarize st).

(** * Vocabulary of the properties *)

(** ** What a report reads off the state *)

(** [self.tool_usage[k]] on the [Counter]. *)
Definition call_count (st : monitor) (k : key) : Z :=
  default 0 (tool_usage st !! k).

(** The record of a tool or an agent as the [defaultdict] hands it out. *)
Definition tool_record (st : monitor) (k : key) : token_stats :=
  default new_token_stats (tool_token_usage st !! k).

Definition agent_record (st : monitor) (k : key) : agent_stats :=
  default new_agent_stats (agent_usage st !! k).

Definition tool_tokens (st : monitor) (k : key) (c : counter) : Z :=
  tool_total c (tool_record st k).

Definition invocations (st : monitor) (k : key) : Z :=
  count (agent_record st k).

Definition agent_tokens (st : monitor) (k : key) (c : counter) : Z :=
  agent_total c (agent_record st k).

(** ** Assertions on the outcome of a computation *)

(** [always P m Q]: from a state in [P], the state [m] leaves is in [Q],
    whether [m] returns or raises. *)
Definition always {A : Type} (P : monitor → Prop) (m : M A) (Q : monitor → Prop) : Prop :=
  ∀ st, P st → Q (m st).1.

Definition good_entry (good : json → Prop) (entry : json) : Prop :=
  ∀ message, Py.get entry "message" (JObj []) = inr message → good message.

(** ** The steps of one content block *)

(** [usage.get(key, 0)] as the addend of [+=]. *)
Definition usage_counter (usage : json) (c : counter) : exn + Z :=
  match Py.get usage (usage_key c) (JNum 0) with
  | inr v => Py.as_int v
  | inl e => inl e
  end.

(** The updates [track_agent_usage] makes to an agent's record once it
    is counted, and [track_tool_tokens] to a tool's record. *)
Inductive agent_op (message : json) : (agent_stats → agent_stats) → Prop :=
  | agent_op_touch : agent_op message id
  | agent_op_session s : agent_op message (agent_add_session s)
  | agent_op_add usage c n :
      Py.get message "usage" (JObj []) = inr usage →
      usage_counter usage c = inr n →
      agent_op message (agent_add c n).

Inductive tool_op (message : json) : (token_stats → token_stats) → Prop :=
  | tool_op_touch : tool_op message id
  | tool_op_add usage c n :
      Py.get message "usage" (JObj []) = inr usage →
      usage_counter usage c = inr n →
      tool_op message (tool_add c n).

(** ** Growth and invariants of the aggregates *)

(** Every numeric aggregate of [st] is at least its value in [st0]. *)
Record grows (st0 st : monitor) : Prop := Grows {
  grows_calls k : call_count st0 k ≤ call_count st k;
  grows_invocations k : invocations st0 k ≤ invocations st k;
  grows_tool_tokens k c : tool_tokens st0 k c ≤ tool_tokens st k c;
  grows_agent_tokens k c : agent_tokens st0 k c ≤ agent_tokens st k c
}.

(** No aggregate of [st] is negative. *)
Definition nonneg (st : monitor) : Prop :=
  ∀ k, 0 ≤ call_count st k ∧ 0 ≤ invocations st k ∧
       ∀ c, 0 ≤ tool_tokens st k c ∧ 0 ≤ agent_tokens st k c.

(** The counters of a usage object are not negative (those that are
    numbers at all). *)
Definition usage_nonneg (usage : json) : bool :=
  forallb (λ c, match usage_counter usage c with
                | inr n => 0 <=? n
                | inl _ => true
                end)
          [InputTokens; OutputTokens; CacheCreation; CacheRead].

Definition counters_nonneg (entry : json) : bool :=
  match Py.get entry "message" (JObj []) with
  | inr message =>
      match Py.get message "usage" (JObj []) with
      | inr usage => usage_nonneg usage
      | inl _ => true
      end
  | inl _ => true
  end.

Definition message_nonneg (message : json) : Prop :=
  ∀ usage c n,
    Py.get message "usage" (JObj []) = inr usage →
    usage_counter usage c = inr n → 0 ≤ n.

(** The monitor after [process_entry] was called on each entry in turn
    (an exception ends one call, not the run: the next file goes on from
    the state reached). *)
Definition process_all (fromisoformat : string → option datetime)
    (entries : list json) (st : monitor) : monitor :=
  foldl (λ acc entry, (process_entry fromisoformat entry acc).1) st entries.

(** Agent invocations are counted under a counted "Task" call. *)
Definition agents_within_task (st : monitor) : Prop :=
  sum_values count (agent_usage st) ≤ call_count st (KStr "Task").

(** Every recorded tool was called, every tool with a token record has a
    call count, and every recorded agent was invoked. *)
Record recorded_means_counted (st : monitor) : Prop := RecordedMeansCounted {
  tools_called k n : tool_usage st !! k = Some n → 1 ≤ n;
  tokens_have_calls : dom (tool_token_usage st) ⊆ dom (tool_usage st);
  agents_invoked a r : agent_usage st !! a = Some r → 1 ≤ count r
}.

(** ** Entries of the log schema *)

(** The key under which [process_item] counts a block as a tool call:
    the block is a dict, its [type] is "tool_use" and its [name] is
    truthy. *)
Definition tool_of (item : json) : option key :=
  match item with
  | JObj fields =>
      if Py.eq_str (default JNull (Py.dict_get fields "type")) "tool_use" then
        let tool_name := default JNull (Py.dict_get fields "name") in
        if Py.truthy tool_name then
          match Py.hash_key tool_name with
          | inr k => Some k
          | inl _ => None
          end
        else None
      else None
  | _ => None
  end.

(** [tool_input.get('subagent_type') or tool_input.get('agent')]. *)
Definition subagent_of (input : list (string * json)) : json :=
  let first := default JNull (Py.dict_get input "subagent_type") in
  if Py.truthy first then first else default JNull (Py.dict_get input "agent").

(** The key under which [process_item] counts a block as an agent
    invocation: a "Task" tool call whose input names a subagent. *)
Definition agent_of (item : json) : option key :=
  match item with
  | JObj fields =>
      if Py.eq_str (default JNull (Py.dict_get fields "type")) "tool_use"
         && Py.eq_str (default JNull (Py.dict_get fields "name")) "Task" then
        match default (JObj []) (Py.dict_get fields "input") with
        | JObj input =>
            if Py.truthy (subagent_of input) then
              match Py.hash_key (subagent_of input) with
              | inr a => Some a
              | inl _ => None
              end
            else None
        | _ => None
        end
      else None
  | _ => None
  end.

Definition hashable (v : json) : bool :=
  match Py.hash_key v with
  | inr _ => true
  | inl _ => false
  end.

(** A content block as the log schema has it: the name of a tool call is
    a hashable value, the input of a "Task" call is a dict and the
    subagent it names is hashable. Blocks that are no tool call are
    unconstrained. *)
Definition wf_item (item : json) : bool :=
  match item with
  | JObj fields =>
      if Py.eq_str (default JNull (Py.dict_get fields "type")) "tool_use" then
        let tool_name := default JNull (Py.dict_get fields "name") in
        if Py.truthy tool_name then
          hashable tool_name
          && (if Py.eq_str tool_name "Task" then
                match default (JObj []) (Py.dict_get fields "input") with
                | JObj input =>
                    if Py.truthy (subagent_of input)
                    then hashable (subagent_of input) else true
                | _ => false
                end
              else true)
        else true
      else true
  | _ => true
  end.

(** A usage object of the schema: a dict whose counters, where present,
    are integers. *)
Definition wf_usage (usage : json) : bool :=
  forallb (λ c, match usage_counter usage c with
                | inr _ => true
                | inl _ => false
                end)
          [InputTokens; OutputTokens; CacheCreation; CacheRead].

(** The value a counter adds: the integer of the usage object, 0 when the
    key is absent. *)
Definition counter_value (usage : json) (c : counter) : Z :=
  match usage_counter usage c with
  | inr n => n
  | inl _ => 0
  end.

(** [message.get('usage', {})] and the items of [message.get('content',
    [])] when that is a list. *)
Definition usage_of (message : json) : json :=
  match message with
  | JObj fields => default (JObj []) (Py.dict_get fields "usage")
  | _ => JObj []
  end.

Definition content_of (message : json) : list json :=
  match message with
  | JObj fields =>
      match default (JArr []) (Py.dict_get fields "content") with
      | JArr items => items
      | _ => []
      end
  | _ => []
  end.

(** [entry.get('message', {})] and [entry.get('sessionId')]. *)
Definition message_of (entry : json) : json :=
  match entry with
  | JObj fields => default (JObj []) (Py.dict_get fields "message")
  | _ => JObj []
  end.

Definition session_of (entry : json) : json :=
  match entry with
  | JObj fields => default JNull (Py.dict_get fields "sessionId")
  | _ => JNull
  end.

(** The session key an entry carries, if any. *)
Definition session_key (session_id : json) : option key :=
  if Py.truthy session_id then
    match Py.hash_key session_id with
    | inr s => Some s
    | inl _ => None
    end
  else None.

(** An entry of the log schema: a dict whose session id, when present,
    is hashable, whose message is a dict, with a usage object and content
    blocks of the schema. *)
Definition wf_entry (entry : json) : bool :=
  match entry with
  | JObj _ =>
      (if Py.truthy (session_of entry) then hashable (session_of entry) else true)
      && match message_of entry with
         | JObj _ =>
             wf_usage (usage_of (message_of entry))
             && forallb wf_item (content_of (message_of entry))
         | _ => false
         end
  | _ => false
  end.

(** ** The net effect of a block and of an entry *)

Definition tool_effect (u : counter → Z) (t : token_stats) : token_stats :=
  TokenStats (input_tokens t + u InputTokens) (output_tokens t + u OutputTokens)
    (cache_creation_tokens t + u CacheCreation) (cache_read_tokens t + u CacheRead).

Definition agent_effect (u : counter → Z) (session : option key) (r : agent_stats)
    : agent_stats :=
  AgentStats (count r + 1)
    (total_input_tokens r + u InputTokens) (total_output_tokens r + u OutputTokens)
    (total_cache_creation_tokens r + u CacheCreation)
    (total_cache_read_tokens r + u CacheRead)
    (match session with
     | Some s => {[s]} ∪ sessions r
     | None => sessions r
     end).

Definition item_effect (u : counter → Z) (session : option key) (item : json)
    (st : monitor) : monitor :=
  match tool_of item with
  | None => st
  | Some k =>
      let st1 := set_tool_usage (upd 0 k (Z.add 1)) st in
      let st2 :=
        match agent_of item with
        | Some a => set_agent_usage (upd new_agent_stats a (agent_effect u session)) st1
        | None => st1
        end in
      set_tool_token_usage (upd new_token_stats k (tool_effect u)) st2
  end.

(** The blocks of a message, one after the other. *)
Definition items_effect (u : counter → Z) (session : option key)
    (items : list json) (st : monitor) : monitor :=
  foldl (λ acc item, item_effect u session item acc) st items.

(** The net effect of a retained entry of the schema. *)
Definition entry_effect (entry : json) (st : monitor) : monitor :=
  let session := session_key (session_of entry) in
  let st1 :=
    match session with
    | Some s => set_sessions_analyzed (union {[s]}) st
    | None => st
    end in
  items_effect (counter_value (usage_of (message_of entry))) session
    (content_of (message_of entry)) st1.

(** ** Counting the blocks of an entry *)

Definition hit (o : option key) (k : key) : Z :=
  if decide (o = Some k) then 1 else 0.

(** How many blocks of [items] are counted for tool [k], and how many
    for agent [a]. *)
Definition count_tools (k : key) (items : list json) : Z :=
  sum_list (λ item, hit (tool_of item) k) items.

Definition count_agents (a : key) (items : list json) : Z :=
  sum_list (λ item, hit (agent_of item) a) items.

(** The tools counted in [items]. *)
Definition tools_in (items : list json) : gset key :=
  foldr (λ item acc, (if tool_of item is Some k then {[k]} else ∅) ∪ acc) ∅ items.

(** An entry that passes the date check, in one equation. *)
Definition retained (fromisoformat : string → option datetime)
    (entry : json) (st : monitor) : Prop :=
  before_cutoff fromisoformat entry st = (st, inr false).

Definition session_ok (session_id : json) : bool :=
  if Py.truthy session_id then hashable session_id else true.

(** A content block that is an object with [type] equal to "tool_use"
    and [name] equal to [T]. *)
Definition is_tool_use_named (T : string) (item : json) : bool :=
  match item with
  | JObj fields =>
      Py.eq_str (default JNull (Py.dict_get fields "type")) "tool_use"
      && Py.eq_str (default JNull (Py.dict_get fields "name")) T
  | _ => false
  end.

(** The number of such blocks in [items]. *)
Definition count_named (T : string) (items : list json) : Z :=
  Z.of_nat (length (filter (λ item, is_tool_use_named T item = true) items)).

(** A block without a usable name: [name] is absent, or the empty
    string. *)
Definition nameless (block : list (string * json)) : Prop :=
  Py.dict_get block "name" = None ∨ Py.dict_get block "name" = Some (JStr "").

(** Every call of the sequence returns. *)
Fixpoint all_return (fromisoformat : string → option datetime)
    (entries : list json) (st : monitor) : Prop :=
  match entries with
  | [] => True
  | entry :: rest =>
      (process_entry fromisoformat entry st).2 = inr tt ∧
      all_return fromisoformat rest (process_entry fromisoformat entry st).1
  end.

(** The items of a dict without one key. *)
Definition without_key (k : string) (fields : list (string * json))
    : list (string * json) :=
  filter (λ item, item.1 ≠ k) fields.

(** ** The spec's formulas for the derived figures *)

(** The spec's formulas. Billable tokens: input + 3 × output +
    cache-creation. *)
Definition billable_tokens (input output cache_creation : Z) : Z :=
  input + 3 * output + cache_creation.

(** Cache efficiency: cache-read / (billable + cache-read) × 100 in
    binary64 when billable + cache-read > 0, and 0 otherwise. *)
Definition is_cache_efficiency (billable cache_read : Z) (e : pynum) : Prop :=
  if decide (0 < billable + cache_read) then
    ∃ q, Float.truediv cache_read (billable + cache_read) = inr q ∧
         e = PyFloat (Float.mul q Float.lit_100)
  else e = PyInt 0.

(** The total of a counter over all tool records plus all agent
    records. *)
Definition grand_total (c : counter) (st : monitor) : Z :=
  sum_values (tool_total c) (tool_token_usage st)
  + sum_values (agent_total c) (agent_usage st).

(** The cost estimate as a function of the four grand totals, the way
    the code computes it: each total divided by a million and the
    quotient multiplied by its rate (the floats 3.00, 15.00, 3.00 and
    0.30), the four products added from left to right, every operation
    rounded to binary64. *)
Definition cost_formula (input output cache_creation cache_read : Z)
    : fault + spec_float :=
  try (component_cost input Float.lit_3) (λ c_in,
  try (component_cost output Float.lit_15) (λ c_out,
  try (component_cost cache_creation Float.lit_3) (λ c_create,
  try (component_cost cache_read Float.lit_0_30) (λ c_read,
  inr (Float.add (Float.add (Float.add c_in c_out) c_create) c_read))))).

(** ** A sample log *)

(** A finite table standing for [datetime.fromisoformat] in the examples:
    two aware timestamps, one naive, and [ValueError] for the rest. *)
Definition sample_fromisoformat (s : string) : option datetime :=
  if String.eqb s "2026-01-10T12:00:00+00:00" then Some (Aware 1768046400000000)
  else if String.eqb s "2026-01-01T00:00:00+00:00" then Some (Aware 1767225600000000)
  else if String.eqb s "2026-01-10T12:00:00" then Some Naive
  else None.

(** A monitor created on 2026-01-11 with a window of 7 days. *)
Definition sample_monitor : monitor := init 7 1767484800000000.

Definition tool_use (tool_name : string) (input : list (string * json)) : json :=
  JObj [("type", JStr "tool_use"); ("id", JStr "toolu_01");
        ("name", JStr tool_name); ("input", JObj input)].

Definition text_block : json :=
  JObj [("type", JStr "text"); ("text", JStr "Reading both files.")].

Definition sample_message : json :=
  JObj [("role", JStr "assistant");
        ("usage", JObj [("input_tokens", JNum 100); ("output_tokens", JNum 7)]);
        ("content",
         JArr [text_block;
               tool_use "Read" [("file_path", JStr "a.py")];
               tool_use "Read" [("file_path", JStr "b.py")];
               tool_use "Task" [("subagent_type", JStr ""); ("agent", JStr "reviewer");
                                ("prompt", JStr "Review the change.")]])].

(** An entry inside the window, one before it, one whose timestamp does
    not parse, and one without a timestamp. *)
Definition sample_fields (timestamp : list (string * json)) : list (string * json) :=
  timestamp ++ [("sessionId", JStr "session-1"); ("message", sample_message)].

Definition recent_entry : json :=
  JObj (sample_fields [("timestamp", JStr "2026-01-10T12:00:00Z")]).

Definition old_entry : json :=
  JObj (sample_fields [("timestamp", JStr "2026-01-01T00:00:00Z")]).

Definition undated_entry : json := JObj (sample_fields []).

Definition garbled_entry : json :=
  JObj (sample_fields [("timestamp", JStr "yesterday")]).

(** An entry whose timestamp is a number (seconds since the epoch), and
    one whose timestamp has no UTC offset. *)
Definition numeric_entry : json :=
  JObj (sample_fields [("timestamp", JNum 1768046400)]).

Definition naive_entry : json :=
  JObj (sample_fields [("timestamp", JStr "2026-01-10T12:00:00")]).

(** A table standing for [json.loads] on the lines of a sample file;
    "nested" stands for a line nested beyond the recursion limit. *)
Definition sample_json_loads (line : string) : loaded :=
  if String.eqb line "garbled" then Loaded garbled_entry
  else if String.eqb line "recent" then Loaded recent_entry
  else if String.eqb line "undated" then Loaded undated_entry
  else if String.eqb line "numeric" then Loaded numeric_entry
  else if String.eqb line "naive" then Loaded naive_entry
  else if String.eqb line "nested" then LoadsError RecursionError
  else JSONDecodeError.

(** A monitor whose only record is a tool with 100 billable tokens and
    900 cache-read tokens, and one whose only record is a tool with a
    million input tokens. *)
Definition cached_monitor : monitor :=
  Monitor 7 0 {[KStr "Read" := 3]} ∅ {[KStr "Read" := TokenStats 40 20 0 900]} ∅ 1.

Definition million_monitor : monitor :=
  Monitor 7 0 {[KStr "Read" := 1]} ∅ {[KStr "Read" := TokenStats 1000000 0 0 0]} ∅ 1.

(** A monitor whose only record is a tool with 100,000 input tokens
    (30 cents at $3 per million), and one with a tool and an agent whose
    four totals are 350,000, 60,000, 3,000 and 1,400,000 tokens
    ($2.379). *)
Definition hundred_thousand_monitor : monitor :=
  Monitor 7 0 {[KStr "Read" := 1]} ∅ {[KStr "Read" := TokenStats 100000 0 0 0]} ∅ 1.

Definition priced_monitor : monitor :=
  Monitor 7 0 {[KStr "Read" := 3]}
    {[KStr "reviewer" := AgentStats 2 250000 40000 0 1000000 ∅]}
    {[KStr "Read" := TokenStats 100000 20000 3000 400000]} ∅ 1.

(** Outside the log schema. A "Task" block whose input is no dict raises
    after the call is counted and before its tokens are: "Task" then
    holds a call count and no token record, and the blocks after it are
    not counted. *)
Definition broken_task_entry : json :=
  JObj [("message",
         JObj [("usage", JObj [("input_tokens", JNum 100)]);
               ("content",
                JArr [JObj [("type", JStr "tool_use"); ("name", JStr "Task");
                            ("input", JStr "review")];
                      tool_use "Read" [("file_path", JStr "a.py")]])])].

(** Outside the data model. A negative counter is added like any other:
    the total decreases. *)
Definition refund_entry : json :=
  JObj [("message",
         JObj [("usage", JObj [("input_tokens", JNum (-5))]);
               ("content", JArr [tool_use "Read" [("file_path", JStr "a.py")]])])].

(** Outside the data model. A usage object whose [output_tokens] is a
    string: [input_tokens] is added for the first block, then the
    addition of a string to an [int] raises [TypeError]. *)
Definition mistyped_usage_entry : json :=
  JObj [("message",
         JObj [("usage",
                JObj [("input_tokens", JNum 100); ("output_tokens", JStr "7")]);
               ("content",
                JArr [tool_use "Read" [("file_path", JStr "a.py")];
                      tool_use "Read" [("file_path", JStr "b.py")]])])].

(** Outside the log schema. A "Task" block whose input is no dict,
    before a "Task" block that names its agent in the [agent] field. *)
Definition late_fallback_entry : json :=
  JObj [("message",
         JObj [("usage", JObj [("input_tokens", JNum 100)]);
               ("content",
                JArr [JObj [("type", JStr "tool_use"); ("name", JStr "Task");
                            ("input", JStr "review")];
                      tool_use "Task" [("subagent_type", JStr "");
                                       ("agent", JStr "reviewer")]])])].

(** ** Order of the report's lists *)

(** No element of [l] has a larger key than an element before it. *)
Fixpoint descending {A : Type} (key : A → Z) (l : list A) : Prop :=
  match l with
  | [] => True
  | x :: rest => (∀ y, y ∈ rest → key y ≤ key x) ∧ descending key rest
  end.

(** ** The entries a run reads *)

(** The entries of the lines of a file that the loop reaches: blank
    lines and lines that are no JSON yield none, and a line on which
    [json.loads] raises another exception ends the file. *)
Fixpoint entries_of (json_loads : string → loaded) (lines : list string)
    : list json :=
  match lines with
  | [] => []
  | line :: rest =>
      if Py.blank line then entries_of json_loads rest
      else match json_loads line with
           | Loaded entry => entry :: entries_of json_loads rest
           | JSONDecodeError => entries_of json_loads rest
           | LoadsError _ => []
           end
  end.

(** The entries of all files, in the order of the files; a file that
    cannot be opened has none. *)
Definition read_entries (json_loads : string → loaded)
    (files : list (option (list string))) : list json :=
  concat ((λ file, from_option (entries_of json_loads) [] file) <$> files).

(** ** The writes of the aggregation pass *)

(** The updates the pass makes to an agent's record and to a tool's
    record. *)
Inductive agent_step : (agent_stats → agent_stats) → Prop :=
  | agent_step_touch : agent_step id
  | agent_step_bump : agent_step agent_bump
  | agent_step_add c n : agent_step (agent_add c n)
  | agent_step_session s : agent_step (agent_add_session s).

Inductive tool_step : (token_stats → token_stats) → Prop :=
  | tool_step_touch : tool_step id
  | tool_step_add c n : tool_step (tool_add c n).

(** One write to the monitor. *)
Inductive write : (monitor → monitor) → Prop :=
  | write_call k : write (set_tool_usage (upd 0 k (Z.add 1)))
  | write_agent a f :
      agent_step f → write (set_agent_usage (upd new_agent_stats a f))
  | write_tool k g :
      tool_step g → write (set_tool_token_usage (upd new_token_stats k g))
  | write_session s : write (set_sessions_analyzed (union {[s]})).

(** A sequence of writes. *)
Inductive writes : (monitor → monitor) → Prop :=
  | writes_none : writes (λ st, st)
  | writes_one T : write T → writes T
  | writes_then T1 T2 : writes T1 → writes T2 → writes (λ st, T2 (T1 st)).

(** A computation that reads nothing of the monitor but the cutoff:
    given the cutoff, its outcome is fixed and its effect is a fixed
    sequence of writes. *)
Definition uniform {A : Type} (m : M A) : Prop :=
  ∀ cutoff, ∃ T r,
    writes T ∧ ∀ st, cutoff_date st = cutoff → m st = (T st, r).

(** ** The blocks an entry is counted for *)

(** The number of blocks counted as a tool call, and as an agent
    invocation. *)
Definition tool_blocks (items : list json) : Z :=
  Z.of_nat (length (filter (λ item, is_Some (tool_of item)) items)).

Definition agent_blocks (items : list json) : Z :=
  Z.of_nat (length (filter (λ item, is_Some (agent_of item)) items)).

(** ** Two runs on the same files *)

(** An entry of the log schema without a negative counter. *)
Definition schema_entry (entry : json) : Prop :=
  wf_entry entry = true ∧ counters_nonneg entry = true.

(** [st'] has the wider window and at least the aggregates and the
    sessions of [st]. *)
Definition covers (st st' : monitor) : Prop :=
  cutoff_date st' ≤ cutoff_date st ∧ grows st st' ∧
  sessions_analyzed st ⊆ sessions_analyzed st'.

(** ** Keys and sessions *)

(** [k] is the key of the truthy value [v]. *)
Definition key_of (v : json) (k : key) : Prop :=
  Py.truthy v = true ∧ Py.hash_key v = inr k.

(** The keys of the falsy values: [None], [0] (and [False]), and the
    empty string. *)
Definition falsy_key (k : key) : Prop :=
  k = KNone ∨ k = KInt 0 ∨ k = KStr "".

(** No table and no session set holds a falsy key. *)
Definition no_falsy_key (st : monitor) : Prop :=
  ∀ k, falsy_key k →
    (k ∉ dom (tool_usage st)) ∧ (k ∉ dom (tool_token_usage st)) ∧
    (k ∉ dom (agent_usage st)) ∧ (k ∉ sessions_analyzed st) ∧
    ∀ a r, agent_usage st !! a = Some r → k ∉ sessions r.

(** The sessions of every agent are analyzed sessions, and an agent has
    no more sessions than invocations. *)
Definition sessions_consistent (st : monitor) : Prop :=
  ∀ a r, agent_usage st !! a = Some r →
    sessions r ⊆ sessions_analyzed st ∧ Z.of_nat (size (sessions r)) ≤ count r.

(** The tokens of all agents are within those of the tool "Task". *)
Definition agent_tokens_within_task (st : monitor) : Prop :=
  ∀ c, sum_values (agent_total c) (agent_usage st)
       ≤ tool_tokens st (KStr "Task") c.

(** ** The entries of a run that pass the date check *)

(** The date check of [process_entry] with the given cutoff lets the
    entry pass. *)
Definition in_window (fromisoformat : string → option datetime) (cutoff : Z)
    (entry : json) : bool :=
  match (before_cutoff fromisoformat entry (init 0 cutoff)).2 with
  | inr false => true
  | _ => false
  end.

(** The session keys of a list of entries. *)
Definition session_keys (entries : list json) : gset key :=
  foldr (λ entry acc,
           match session_key (session_of entry) with
           | Some s => {[s]} ∪ acc
           | None => acc
           end) ∅ entries.

(** ** Binary64 values as rationals *)

(** [2^e] as a rational. *)
Definition pow2 (e : Z) : Q := (2 ^ e)%Q.

(** The unit roundoff of binary64: half the distance from 1 to the next
    float. *)
Definition u53 : Q := pow2 (-53).

(** The rational number a finite binary64 value stands for.  The
    infinities and nan stand for no number; they are given 0 and
    excluded by the statements that use [float_value]. *)
Definition float_value (f : spec_float) : Q :=
  match f with
  | S754_finite s m e =>
      ((if s then - inject_Z (Z.pos m) else inject_Z (Z.pos m)) * pow2 e)%Q
  | _ => 0%Q
  end.

(** The spec's cost formula, in exact arithmetic: total_input × 3 /
    1,000,000 + total_output × 15 / 1,000,000 + total_cache_creation × 3 /
    1,000,000 + total_cache_read × 0.30 / 1,000,000. *)
Definition exact_cost (input output cache_creation cache_read : Z) : Q :=
  (inject_Z input * 3 / 1000000 + inject_Z output * 15 / 1000000
   + inject_Z cache_creation * 3 / 1000000
   + inject_Z cache_read * (3 # 10) / 1000000)%Q.

(** The same formula the way the spec's words would be typed in Python,
    [total * 3 / 1_000_000]: the product is an [int], one division
    rounds. *)
Definition cost_as_worded (total rate : Z) : fault + spec_float :=
  Float.truediv (total * rate) 1000000.

(** Where a rational [y] lies among the integers: [shr_m] is its floor,
    the round bit says whether it is in the upper half of the unit
    interval above it, the sticky bit whether it is strictly inside
    that half. *)
Definition located (y : Q) (mrs : shr_record) : Prop :=
  0 <= shr_m mrs /\
  match shr_r mrs, shr_s mrs with
  | false, false => (y == inject_Z (shr_m mrs))%Q
  | false, true => (inject_Z (shr_m mrs) < y /\ y < inject_Z (shr_m mrs) + (1 # 2))%Q
  | true, false => (y == inject_Z (shr_m mrs) + (1 # 2))%Q
  | true, true => (inject_Z (shr_m mrs) + (1 # 2) < y /\ y < inject_Z (shr_m mrs) + 1)%Q
  end.

(** [f] is [+0.0] and [x] is 0, or [f] is a positive normal binary64
    value with exponent between [lo] and [hi] and [a x <= f <= b x]. *)
Definition approximates (a b : Q) (lo hi : Z) (x : Q) (f : spec_float) : Prop :=
  (f = S754_zero false /\ (x == 0)%Q) \/
  exists m e,
    f = S754_finite false m e /\
    2 ^ 52 <= Z.pos m < 2 ^ 53 /\
    lo <= e <= hi /\
    (a * x <= inject_Z (Z.pos m) * pow2 e <= b * x)%Q.

(** * Properties *)

(** ** Dictionary updates *)

Section Upd.
Context {V : Type}.
Implicit Types (m : gmap key V) (dflt : V) (f g : V → V).

Lemma lookup_upd dflt k f m k' :
  upd dflt k f m !! k' =
    if decide (k = k') then Some (f (default dflt (m !! k))) else m !! k'.
Proof. unfold upd. by rewrite lookup_insert. Qed.

Lemma default_upd dflt k f m k' :
  default dflt (upd dflt k f m !! k') =
    if decide (k = k') then f (default dflt (m !! k)) else default dflt (m !! k').
Proof. rewrite lookup_upd. by case_decide. Qed.

Lemma upd_upd dflt k f g m :
  upd dflt k f (upd dflt k g m) = upd dflt k (f ∘ g) m.
Proof.
  unfold upd. rewrite lookup_insert_eq. simpl. by rewrite insert_insert_eq.
Qed.

Lemma dom_upd dflt k f m : dom (upd dflt k f m) = {[k]} ∪ dom m.
Proof. unfold upd. by rewrite dom_insert_L. Qed.

(** The sum of a field over the values, after an update. *)
Lemma sum_values_insert (h : V → Z) k v m :
  sum_values h (<[k := v]> m) = sum_values h m - from_option h 0 (m !! k) + h v.
Proof.
  assert (Hcomm : ∀ (m' : gmap key V) (j1 j2 : key) (z1 z2 : V) (y : Z),
    j1 ≠ j2 → m' !! j1 = Some z1 → m' !! j2 = Some z2 →
    h z1 + (h z2 + y) = h z2 + (h z1 + y)) by (intros; lia).
  unfold sum_values. destruct (m !! k) as [old|] eqn:Hk; simpl.
  - rewrite (map_fold_delete_L _ 0 k old m (Hcomm m) Hk).
    rewrite <- (insert_delete_eq m k v).
    rewrite map_fold_insert_L; [lia | apply Hcomm | apply lookup_delete_eq].
  - rewrite map_fold_insert_L; [lia | apply Hcomm | done].
Qed.

Lemma sum_values_upd (h : V → Z) dflt k f m :
  h dflt = 0 →
  sum_values h (upd dflt k f m) =
    sum_values h m - h (default dflt (m !! k)) + h (f (default dflt (m !! k))).
Proof.
  intros Hzero. unfold upd. rewrite sum_values_insert.
  destruct (m !! k); simpl; lia.
Qed.

Lemma sum_values_empty (h : V → Z) : sum_values h (∅ : gmap key V) = 0.
Proof. unfold sum_values. by rewrite map_fold_empty. Qed.

End Upd.

(** ** Assertions that hold whatever the outcome *)

Section Always.
Context {A B : Type}.
Implicit Types (P Q R : monitor → Prop).

Lemma always_ret P (a : A) : always P (ret a) P.
Proof. by intros st HP. Qed.

Lemma always_raise P (e : exn) : always P (raise e : M A) P.
Proof. by intros st HP. Qed.

Lemma always_lift P (r : exn + A) : always P (lift r) P.
Proof. by intros st HP. Qed.

Lemma always_gets P (f : monitor → A) : always P (gets f) P.
Proof. by intros st HP. Qed.

Lemma always_modify P Q (f : monitor → monitor) :
  (∀ st, P st → Q (f st)) → always P (modify f) Q.
Proof. intros Hf st HP. by apply Hf. Qed.

Lemma always_weaken P P' Q Q' (m : M A) :
  (∀ st, P' st → P st) → (∀ st, Q st → Q' st) →
  always P m Q → always P' m Q'.
Proof. intros HP HQ Hm st Hst. apply HQ, Hm, HP, Hst. Qed.

Lemma always_bind P Q R (m : M A) (k : A → M B) :
  always P m Q → (∀ st, Q st → R st) → (∀ a, always Q (k a) R) →
  always P (bind m k) R.
Proof.
  intros Hm HQR Hk st HP. specialize (Hm st HP). unfold bind.
  destruct (m st) as [st' [e|a]]; simpl in *; [by apply HQR|].
  by apply Hk.
Qed.

(** A step that cannot raise needs no exit condition. *)
Lemma always_modify_bind P Q R (f : monitor → monitor) (k : M B) :
  (∀ st, P st → Q (f st)) → always Q k R →
  always P (bind (modify f) (λ _, k)) R.
Proof. intros Hf Hk st HP. unfold bind, modify. apply Hk, Hf, HP. Qed.

Lemma always_lift_bind P R (r : exn + A) (k : A → M B) :
  (∀ st, P st → R st) → (∀ a, r = inr a → always P (k a) R) →
  always P (bind (lift r) k) R.
Proof.
  intros HPR Hk st HP. unfold bind, lift.
  destruct r as [e|a]; simpl; [by apply HPR|]. by apply Hk.
Qed.

Lemma always_gets_bind P R (f : monitor → A) (k : A → M B) :
  (∀ a, always P (k a) R) → always P (bind (gets f) k) R.
Proof. intros Hk st HP. unfold bind, gets. by apply Hk. Qed.

End Always.

Lemma always_for_each {A : Type} (I : monitor → Prop) (f : A → M unit) (l : list A) :
  (∀ x, always I (f x) I) → always I (for_each f l) I.
Proof.
  intros Hf. induction l as [|x l IH]; simpl.
  - apply always_ret.
  - eapply always_bind; [apply Hf | done | intros _; apply IH].
Qed.

(** An invariant kept by every content block (of a message that is
    [good]) is kept by the whole pass. *)
Section Pass.
Variable fromisoformat : string → option datetime.
Variable json_loads : string → loaded.
Variable I : monitor → Prop.
Variable good : json → Prop.
Hypothesis item_keeps :
  ∀ message session_id item,
    good message → always I (process_item message session_id item) I.
Hypothesis sessions_keep : ∀ f st, I st → I (set_sessions_analyzed f st).

Lemma process_retained_keeps entry :
  good_entry good entry → always I (process_retained entry) I.
Proof.
  intros Hgood. unfold process_retained.
  apply always_lift_bind; [done|]. intros session_id _.
  eapply always_bind with (Q := I); [|done|].
  - destruct (Py.truthy session_id); [|apply always_ret].
    apply always_lift_bind; [done|]. intros s _.
    apply always_modify. intros st. apply sessions_keep.
  - intros _. apply always_lift_bind; [done|]. intros message Hm.
    apply always_lift_bind; [done|]. intros content _.
    destruct content; try apply always_ret.
    apply always_for_each. intros item. by apply item_keeps, Hgood.
Qed.

Lemma before_cutoff_unchanged entry st :
  (before_cutoff fromisoformat entry st).1 = st.
Proof.
  unfold before_cutoff, bind, lift, gets, ret, raise.
  repeat case_match; simplify_eq/=; done.
Qed.

Lemma process_entry_keeps entry :
  good_entry good entry → always I (process_entry fromisoformat entry) I.
Proof.
  intros Hgood st HI. unfold process_entry, bind.
  pose proof (before_cutoff_unchanged entry st) as Hst.
  destruct (before_cutoff fromisoformat entry st) as [st' [e|old]];
    simpl in *; subst st'; [done|].
  destruct old; [done|]. by apply process_retained_keeps.
Qed.

Lemma parse_lines_keeps lines :
  (∀ line entry, line ∈ lines → json_loads line = Loaded entry → good_entry good entry) →
  always I (parse_lines fromisoformat json_loads lines) I.
Proof.
  induction lines as [|line rest IH]; intros Hgood; simpl; [apply always_ret|].
  assert (Hrest : always I (parse_lines fromisoformat json_loads rest) I).
  { apply IH. intros l e Hl. apply Hgood. by right. }
  destruct (Py.blank line); [done|].
  destruct (json_loads line) as [entry| |e] eqn:Hline;
    [|done|apply always_raise].
  eapply always_bind; [|done|intros _; apply Hrest].
  apply process_entry_keeps. eapply Hgood; [by left | done].
Qed.

Lemma parse_session_file_keeps lines st :
  (∀ line entry, line ∈ lines → json_loads line = Loaded entry → good_entry good entry) →
  I st → I (parse_session_file fromisoformat json_loads (Some lines) st).1.
Proof.
  intros Hgood HI. unfold parse_session_file.
  pose proof (parse_lines_keeps lines Hgood st HI) as H.
  by destruct (parse_lines fromisoformat json_loads lines st) as [st' [e|[]]].
Qed.

End Pass.

(** ** The steps of one content block *)

(** One block walks through four stages: before it ([I]), once its tool
    is counted ([Ik]), once its agent is counted ([Ia], for a "Task"
    block that names one), and while the tool's tokens are added ([J]).
    Assertions that follow the steps hold when the block is left, by
    return or by exception. *)
Section Item.
Variables (message session_id : json).
Variable I : monitor → Prop.
Variable Ik J : key → monitor → Prop.
Variable Ia : key → monitor → Prop.

Hypothesis tool_counted :
  ∀ k st, I st → Ik k (set_tool_usage (upd 0 k (Z.add 1)) st).
Hypothesis agent_counted :
  ∀ a st, Ik (KStr "Task") st →
    Ia a (set_agent_usage (upd new_agent_stats a agent_bump) st).
Hypothesis agent_updated :
  ∀ a f st, agent_op message f → Ia a st →
    Ia a (set_agent_usage (upd new_agent_stats a f) st).
Hypothesis agent_done : ∀ a st, Ia a st → J (KStr "Task") st.
Hypothesis agent_skipped : ∀ k st, Ik k st → J k st.
Hypothesis tool_updated :
  ∀ k g st, tool_op message g → J k st →
    J k (set_tool_token_usage (upd new_token_stats k g) st).
Hypothesis tool_done : ∀ k st, J k st → I st.

Lemma add_agent_counter_steps a usage c :
  Py.get message "usage" (JObj []) = inr usage →
  always (Ia a) (add_agent_counter a usage c) (Ia a).
Proof.
  intros Hu. unfold add_agent_counter.
  eapply always_modify_bind.
  { intros st H. apply agent_updated; [constructor | exact H]. }
  apply always_lift_bind; [done|]. intros v Hv.
  apply always_lift_bind; [done|]. intros n Hn.
  apply always_modify. intros st H. apply agent_updated; [|exact H].
  apply (agent_op_add message usage c n Hu). unfold usage_counter. by rewrite Hv.
Qed.

Lemma track_agent_usage_steps agent_name :
  always (Ik (KStr "Task")) (track_agent_usage agent_name message session_id)
         (J (KStr "Task")).
Proof.
  unfold track_agent_usage.
  apply always_lift_bind; [apply agent_skipped|]. intros usage Hu.
  apply always_lift_bind; [apply agent_skipped|]. intros a _.
  eapply always_modify_bind; [apply agent_counted|].
  eapply always_weaken with (P := Ia a) (Q := Ia a); [done | apply agent_done |].
  do 4 (eapply always_bind;
          [by apply add_agent_counter_steps | done | intros _]).
  destruct (Py.truthy session_id); [|apply always_ret].
  apply always_lift_bind; [done|]. intros s _.
  apply always_modify. intros st H. apply agent_updated; [constructor | exact H].
Qed.

Lemma add_tool_counter_steps k usage c :
  Py.get message "usage" (JObj []) = inr usage →
  always (J k) (add_tool_counter k usage c) (J k).
Proof.
  intros Hu. unfold add_tool_counter.
  eapply always_modify_bind.
  { intros st H. apply tool_updated; [constructor | exact H]. }
  apply always_lift_bind; [done|]. intros v Hv.
  apply always_lift_bind; [done|]. intros n Hn.
  apply always_modify. intros st H. apply tool_updated; [|exact H].
  apply (tool_op_add message usage c n Hu). unfold usage_counter. by rewrite Hv.
Qed.

Lemma track_tool_tokens_steps tool_name k :
  Py.hash_key tool_name = inr k →
  always (J k) (track_tool_tokens tool_name message) (J k).
Proof.
  intros Hk. unfold track_tool_tokens.
  apply always_lift_bind; [done|]. intros usage Hu.
  apply always_lift_bind; [done|]. intros k' Hk'.
  assert (k' = k) as -> by congruence.
  do 3 (eapply always_bind;
          [by apply add_tool_counter_steps | done | intros _]).
  by apply add_tool_counter_steps.
Qed.

Lemma hash_key_Task tool_name k :
  Py.eq_str tool_name "Task" = true → Py.hash_key tool_name = inr k →
  k = KStr "Task".
Proof.
  destruct tool_name; simpl; try done.
  intros Heq [= <-]. apply String.eqb_eq in Heq. by subst.
Qed.

Lemma process_item_steps item :
  always I (process_item message session_id item) I.
Proof.
  unfold process_item. destruct item as [| | | | |fields]; try apply always_ret.
  destruct (Py.eq_str _ "tool_use"); [|apply always_ret].
  destruct (Py.truthy _); [|apply always_ret].
  apply always_lift_bind; [done|]. intros k Hk.
  eapply always_modify_bind; [apply tool_counted|].
  eapply always_weaken with (P := Ik k) (Q := J k); [done | apply tool_done |].
  eapply always_bind with (Q := J k);
    [| done | intros _; by apply track_tool_tokens_steps].
  destruct (Py.eq_str _ "Task") eqn:HTask;
    [|eapply always_weaken; [done | apply agent_skipped | apply always_ret]].
  pose proof (hash_key_Task _ _ HTask Hk) as ->.
  apply always_lift_bind; [apply agent_skipped|]. intros first _.
  apply always_lift_bind; [apply agent_skipped|]. intros subagent _.
  destruct (Py.truthy subagent);
    [|eapply always_weaken; [done | apply agent_skipped | apply always_ret]].
  apply track_agent_usage_steps.
Qed.

End Item.

(** ** Reading the state after one update *)

Lemma call_count_upd k f st k' :
  call_count (set_tool_usage (upd 0 k f) st) k' =
    if decide (k = k') then f (call_count st k) else call_count st k'.
Proof. unfold call_count. simpl. apply default_upd. Qed.

Lemma agent_record_upd a f st k :
  agent_record (set_agent_usage (upd new_agent_stats a f) st) k =
    if decide (a = k) then f (agent_record st a) else agent_record st k.
Proof. unfold agent_record. simpl. apply default_upd. Qed.

Lemma tool_record_upd t g st k :
  tool_record (set_tool_token_usage (upd new_token_stats t g) st) k =
    if decide (t = k) then g (tool_record st t) else tool_record st k.
Proof. unfold tool_record. simpl. apply default_upd. Qed.

Lemma agent_total_add c n a c' :
  agent_total c' (agent_add c n a) =
    agent_total c' a + (if decide (c = c') then n else 0).
Proof. destruct c, c'; simpl; lia. Qed.

Lemma tool_total_add c n t c' :
  tool_total c' (tool_add c n t) =
    tool_total c' t + (if decide (c = c') then n else 0).
Proof. destruct c, c'; simpl; lia. Qed.

(** ** Monotonicity of the aggregates *)

Global Instance grows_preorder : PreOrder grows.
Proof.
  split.
  - intros st. by split.
  - intros st1 st2 st3 [] []. split; intros; etrans; eauto.
Qed.

Lemma usage_nonneg_counter usage c n :
  usage_nonneg usage = true → usage_counter usage c = inr n → 0 ≤ n.
Proof.
  unfold usage_nonneg. rewrite forallb_forall. intros Hall Hc.
  specialize (Hall c). rewrite Hc in Hall.
  apply Z.leb_le, Hall. destruct c; simpl; tauto.
Qed.

Lemma counters_nonneg_good entry :
  counters_nonneg entry = true → good_entry message_nonneg entry.
Proof.
  unfold counters_nonneg. intros H message Hm usage c n Hu. rewrite Hm, Hu in H.
  by apply usage_nonneg_counter.
Qed.

Section Grows.
Variable st0 : monitor.

Lemma grows_tool_counted k st :
  grows st0 st → grows st0 (set_tool_usage (upd 0 k (Z.add 1)) st).
Proof.
  intros H. etrans; [exact H|]. split; intros; try done.
  rewrite call_count_upd. case_decide; subst; lia.
Qed.

Lemma grows_agent_counted a st :
  grows st0 st → grows st0 (set_agent_usage (upd new_agent_stats a agent_bump) st).
Proof.
  intros H. etrans; [exact H|]. split; intros; try done.
  - unfold invocations. rewrite agent_record_upd. case_decide; subst; simpl; lia.
  - unfold agent_tokens. rewrite agent_record_upd.
    case_decide; subst; [|done]. by destruct c.
Qed.

Lemma grows_agent_updated message a f st :
  message_nonneg message → agent_op message f →
  grows st0 st → grows st0 (set_agent_usage (upd new_agent_stats a f) st).
Proof.
  intros Hm Hf H. etrans; [exact H|]. split; intros; try done.
  - unfold invocations. rewrite agent_record_upd. case_decide; subst; [|done].
    destruct Hf as [| |usage c n _ _]; simpl; try done. by destruct c.
  - unfold agent_tokens. rewrite agent_record_upd. case_decide; subst; [|done].
    destruct Hf as [| |usage c' n Hu Hn]; simpl; try done.
    rewrite agent_total_add. pose proof (Hm usage c' n Hu Hn). case_decide; lia.
Qed.

Lemma grows_tool_updated message k g st :
  message_nonneg message → tool_op message g →
  grows st0 st → grows st0 (set_tool_token_usage (upd new_token_stats k g) st).
Proof.
  intros Hm Hg H. etrans; [exact H|]. split; intros; try done.
  unfold tool_tokens. rewrite tool_record_upd. case_decide; subst; [|done].
  destruct Hg as [|usage c' n Hu Hn]; simpl; try done.
  rewrite tool_total_add. pose proof (Hm usage c' n Hu Hn). case_decide; lia.
Qed.

Lemma grows_item message session_id item :
  message_nonneg message →
  always (grows st0) (process_item message session_id item) (grows st0).
Proof.
  intros Hm.
  apply process_item_steps with
    (Ik := λ _, grows st0) (J := λ _, grows st0) (Ia := λ _, grows st0);
    try done.
  - apply grows_tool_counted.
  - apply grows_agent_counted.
  - intros a f st. by apply grows_agent_updated.
  - intros k g st. by apply grows_tool_updated.
Qed.

End Grows.

Lemma process_entry_grows fromisoformat entry st :
  counters_nonneg entry = true →
  grows st (process_entry fromisoformat entry st).1.
Proof.
  intros Hnn.
  apply (process_entry_keeps fromisoformat (grows st) message_nonneg).
  - intros message session_id item. apply grows_item.
  - intros f st' H. etrans; [exact H|]. by split.
  - by apply counters_nonneg_good.
  - done.
Qed.

Lemma process_all_grows fromisoformat entries st :
  Forall (λ entry, counters_nonneg entry = true) entries →
  grows st (process_all fromisoformat entries st).
Proof.
  unfold process_all. revert st.
  induction entries as [|entry entries IH]; intros st Hall; simpl; [done|].
  inversion Hall as [|? ? Hentry Hrest]; subst.
  etrans; [by apply process_entry_grows | by apply IH].
Qed.

Lemma init_zero days cutoff k c :
  call_count (init days cutoff) k = 0 ∧ invocations (init days cutoff) k = 0 ∧
  tool_tokens (init days cutoff) k c = 0 ∧ agent_tokens (init days cutoff) k c = 0.
Proof.
  unfold call_count, invocations, tool_tokens, agent_tokens, agent_record, tool_record.
  simpl. rewrite !lookup_empty. simpl. by destruct c.
Qed.

(** C7. Every numeric aggregate (tool call counts, agent invocation
    counts, the four token totals of every tool and of every agent) is
    zero in a new monitor; processing an entry whose usage counters are
    not negative leaves each aggregate at least as large as it was, from
    any state and whether the entry is processed to its end or an
    exception cuts it short; hence after any sequence of such entries no
    aggregate is negative. *)
Theorem aggregates_start_at_zero_and_never_decrease
    (fromisoformat : string → option datetime) :
  (∀ days cutoff k c,
     call_count (init days cutoff) k = 0 ∧ invocations (init days cutoff) k = 0 ∧
     tool_tokens (init days cutoff) k c = 0 ∧
     agent_tokens (init days cutoff) k c = 0) ∧
  (∀ st entry,
     counters_nonneg entry = true →
     grows st (process_entry fromisoformat entry st).1) ∧
  (∀ days cutoff entries,
     Forall (λ entry, counters_nonneg entry = true) entries →
     nonneg (process_all fromisoformat entries (init days cutoff))).
Proof.
  split; [apply init_zero|]. split; [intros; by apply process_entry_grows|].
  intros days cutoff entries Hall k.
  destruct (process_all_grows fromisoformat entries (init days cutoff) Hall)
    as [Hc Hi Ht Ha].
  specialize (Hc k). specialize (Hi k).
  destruct (init_zero days cutoff k InputTokens) as (Hc0 & Hi0 & _).
  split; [lia|]. split; [lia|]. intros c.
  specialize (Ht k c). specialize (Ha k c).
  destruct (init_zero days cutoff k c) as (_ & _ & Ht0 & Ha0). lia.
Qed.

(** ** Invariants of the tables *)

Lemma agent_op_count message f r :
  agent_op message f → count (f r) = count r.
Proof. intros [| |usage c n _ _]; simpl; try done. by destruct c. Qed.

Lemma agents_within_task_item message session_id item :
  always agents_within_task (process_item message session_id item) agents_within_task.
Proof.
  apply process_item_steps with
    (Ik := λ k st, sum_values count (agent_usage st)
                   + (if decide (k = KStr "Task") then 1 else 0)
                   ≤ call_count st (KStr "Task"))
    (J := λ _, agents_within_task) (Ia := λ _, agents_within_task);
    unfold agents_within_task.
  - intros k st H. rewrite call_count_upd. simpl. case_decide; subst; lia.
  - intros a st H. simpl in *. rewrite sum_values_upd by done.
    change (call_count (set_agent_usage _ st)) with (call_count st).
    unfold agent_bump. simpl. lia.
  - intros a f st Hf H. simpl. rewrite sum_values_upd by done.
    rewrite (agent_op_count message f) by done.
    change (call_count (set_agent_usage _ st)) with (call_count st). lia.
  - done.
  - intros k st H. case_decide; lia.
  - done.
  - done.
Qed.

Lemma recorded_tool_counted k st :
  recorded_means_counted st →
  recorded_means_counted (set_tool_usage (upd 0 k (Z.add 1)) st) ∧
  k ∈ dom (tool_usage (set_tool_usage (upd 0 k (Z.add 1)) st)).
Proof.
  intros [Hc Hd Ha]. split; [split|]; simpl; try done.
  - intros k' n. rewrite lookup_upd. case_decide; [|apply Hc].
    intros [= <-]. destruct (tool_usage st !! k) as [m|] eqn:Hk; simpl; [|lia].
    specialize (Hc k m Hk). lia.
  - rewrite dom_upd. set_solver.
  - rewrite dom_upd. set_solver.
Qed.

Lemma recorded_agent_counted a st :
  recorded_means_counted st →
  recorded_means_counted (set_agent_usage (upd new_agent_stats a agent_bump) st) ∧
  a ∈ dom (agent_usage (set_agent_usage (upd new_agent_stats a agent_bump) st)).
Proof.
  intros [Hc Hd Ha]. split; [split|]; simpl; try done.
  - intros a' r. rewrite lookup_upd. case_decide; [|apply Ha].
    intros [= <-]. destruct (agent_usage st !! a) as [r|] eqn:Hr; simpl; [|lia].
    specialize (Ha a r Hr). lia.
  - rewrite dom_upd. set_solver.
Qed.

Lemma recorded_agent_updated message a f st :
  agent_op message f →
  recorded_means_counted st → a ∈ dom (agent_usage st) →
  recorded_means_counted (set_agent_usage (upd new_agent_stats a f) st) ∧
  a ∈ dom (agent_usage (set_agent_usage (upd new_agent_stats a f) st)).
Proof.
  intros Hf [Hc Hd Ha] Hin. split; [split|]; simpl; try done.
  - intros a' r. rewrite lookup_upd. case_decide; [|apply Ha].
    intros [= <-]. apply elem_of_dom in Hin as [r Hr]. rewrite Hr. simpl.
    rewrite (agent_op_count message f) by done. by apply (Ha a).
  - rewrite dom_upd. set_solver.
Qed.

Lemma recorded_tool_updated k g st :
  recorded_means_counted st → k ∈ dom (tool_usage st) →
  recorded_means_counted (set_tool_token_usage (upd new_token_stats k g) st).
Proof.
  intros [Hc Hd Ha] Hin. split; simpl; [done | | done].
  rewrite dom_upd. intros x [->%elem_of_singleton|Hx]%elem_of_union; [done|].
  by apply Hd.
Qed.

Lemma recorded_means_counted_item message session_id item :
  always recorded_means_counted (process_item message session_id item)
         recorded_means_counted.
Proof.
  apply process_item_steps with
    (Ik := λ k st, recorded_means_counted st ∧ k ∈ dom (tool_usage st))
    (J := λ k st, recorded_means_counted st ∧ k ∈ dom (tool_usage st))
    (Ia := λ a st, (recorded_means_counted st ∧ KStr "Task" ∈ dom (tool_usage st))
                   ∧ a ∈ dom (agent_usage st)).
  - intros k st. apply recorded_tool_counted.
  - intros a st [H Hk]. destruct (recorded_agent_counted a st H) as [H' Ha'].
    split; [split; [exact H' | exact Hk] | exact Ha'].
  - intros a f st Hf [[H Hk] Ha].
    destruct (recorded_agent_updated message a f st Hf H Ha) as [H' Ha'].
    split; [split; [exact H' | exact Hk] | exact Ha'].
  - by intros a st [H _].
  - done.
  - intros k g st _ [H Hk]. split; [by apply recorded_tool_updated | done].
  - by intros k st [H _].
Qed.

Lemma init_recorded days cutoff : recorded_means_counted (init days cutoff).
Proof. split; simpl; [intros k n | set_solver | intros a r]; by rewrite lookup_empty. Qed.

Lemma init_agents_within_task days cutoff : agents_within_task (init days cutoff).
Proof.
  unfold agents_within_task, call_count. simpl.
  by rewrite sum_values_empty, lookup_empty.
Qed.

(** An invariant of every call of [process_entry] holds after any
    sequence of calls. *)
Lemma process_all_keeps fromisoformat (I : monitor → Prop) entries st :
  (∀ entry, always I (process_entry fromisoformat entry) I) →
  I st → I (process_all fromisoformat entries st).
Proof.
  intros Hstep. unfold process_all. revert st.
  induction entries as [|entry entries IH]; intros st HI; simpl; [done|].
  apply IH. by apply Hstep.
Qed.

(** C10. An agent invocation is recorded only inside the handling of a
    "Task" block, after that block has incremented the call count of
    tool "Task": after processing any sequence of entries, the sum of all
    agents' invocation counts is at most the call count of "Task". *)
Theorem agent_invocations_at_most_task_calls
    (fromisoformat : string → option datetime) (days cutoff : Z)
    (entries : list json) :
  let st := process_all fromisoformat entries (init days cutoff) in
  sum_values count (agent_usage st) ≤ call_count st (KStr "Task").
Proof.
  simpl. apply (process_all_keeps fromisoformat agents_within_task).
  - intros entry.
    apply (process_entry_keeps fromisoformat agents_within_task (λ _, True)).
    + intros message session_id item _. apply agents_within_task_item.
    + done.
    + done.
  - apply init_agents_within_task.
Qed.

(** ** The net effect of a block of the schema *)

Lemma wf_usage_counter usage c :
  wf_usage usage = true → usage_counter usage c = inr (counter_value usage c).
Proof.
  unfold wf_usage, counter_value. rewrite forallb_forall. intros Hall.
  specialize (Hall c). destruct (usage_counter usage c); [|done].
  exfalso. apply diff_false_true, Hall. destruct c; simpl; tauto.
Qed.

Lemma usage_counter_get usage c n :
  usage_counter usage c = inr n →
  ∃ v, Py.get usage (usage_key c) (JNum 0) = inr v ∧ Py.as_int v = inr n.
Proof.
  unfold usage_counter. destruct (Py.get usage (usage_key c) (JNum 0)) as [|v]; [done|].
  intros H. by exists v.
Qed.

Lemma add_tool_counter_run k usage c n st :
  usage_counter usage c = inr n →
  add_tool_counter k usage c st =
    (set_tool_token_usage (upd new_token_stats k (tool_add c n)) st, inr tt).
Proof.
  intros (v & Hv & Hn)%usage_counter_get.
  unfold add_tool_counter, bind, lift, modify. rewrite Hv, Hn.
  unfold set_tool_token_usage. simpl. by rewrite upd_upd.
Qed.

Lemma add_agent_counter_run a usage c n st :
  usage_counter usage c = inr n →
  add_agent_counter a usage c st =
    (set_agent_usage (upd new_agent_stats a (agent_add c n)) st, inr tt).
Proof.
  intros (v & Hv & Hn)%usage_counter_get.
  unfold add_agent_counter, bind, lift, modify. rewrite Hv, Hn.
  unfold set_agent_usage. simpl. by rewrite upd_upd.
Qed.

Lemma get_usage_of message fields :
  message = JObj fields → Py.get message "usage" (JObj []) = inr (usage_of message).
Proof. by intros ->. Qed.

Lemma track_tool_tokens_run tool_name fields k st :
  Py.hash_key tool_name = inr k →
  wf_usage (usage_of (JObj fields)) = true →
  track_tool_tokens tool_name (JObj fields) st =
    (set_tool_token_usage
       (upd new_token_stats k (tool_effect (counter_value (usage_of (JObj fields)))))
       st, inr tt).
Proof.
  intros Hk Hu. unfold track_tool_tokens.
  unfold bind at 1. unfold lift at 1. simpl Py.get. cbv iota beta.
  unfold bind at 1. unfold lift at 1. rewrite Hk.
  unfold bind.
  rewrite !(add_tool_counter_run _ _ _ _ _ (wf_usage_counter _ _ Hu)).
  unfold set_tool_token_usage. simpl. rewrite !upd_upd. unfold upd.
  do 3 f_equal; by destruct (default new_token_stats _).
Qed.

Lemma track_agent_usage_run agent_name fields session_id a st :
  Py.hash_key agent_name = inr a →
  wf_usage (usage_of (JObj fields)) = true →
  (if Py.truthy session_id then hashable session_id else true) = true →
  track_agent_usage agent_name (JObj fields) session_id st =
    (set_agent_usage
       (upd new_agent_stats a
          (agent_effect (counter_value (usage_of (JObj fields)))
             (session_key session_id)))
       st, inr tt).
Proof.
  intros Ha Hu Hs. unfold track_agent_usage.
  unfold bind at 1. unfold lift at 1. simpl Py.get. cbv iota beta.
  unfold bind at 1. unfold lift at 1. rewrite Ha.
  unfold bind, modify.
  rewrite !(add_agent_counter_run _ _ _ _ _ (wf_usage_counter _ _ Hu)).
  unfold session_key, hashable in *.
  destruct (Py.truthy session_id).
  - destruct (Py.hash_key session_id) as [|s]; [done|].
    unfold lift, set_agent_usage. simpl. rewrite !upd_upd. unfold upd.
    do 3 f_equal; by destruct (default new_agent_stats _).
  - unfold ret, set_agent_usage. simpl. rewrite !upd_upd. unfold upd.
    do 3 f_equal; by destruct (default new_agent_stats _).
Qed.

Lemma or_else_subagent input :
  Py.or_else (from_option id JNull (Py.dict_get input "subagent_type"))
             (Py.get (JObj input) "agent" JNull)
  = inr (subagent_of input).
Proof. unfold Py.or_else, subagent_of. simpl. by destruct (Py.truthy _). Qed.

Lemma process_item_run fields session_id item st :
  wf_usage (usage_of (JObj fields)) = true →
  (if Py.truthy session_id then hashable session_id else true) = true →
  wf_item item = true →
  process_item (JObj fields) session_id item st =
    (item_effect (counter_value (usage_of (JObj fields))) (session_key session_id)
       item st, inr tt).
Proof.
  intros Hu Hs Hwf. unfold process_item, item_effect, tool_of, agent_of.
  destruct item as [| | | | |block]; try done. simpl in Hwf.
  destruct (Py.eq_str (default JNull (Py.dict_get block "type")) "tool_use");
    [|done].
  destruct (Py.truthy (default JNull (Py.dict_get block "name"))); [|done].
  apply andb_true_iff in Hwf as [Hname Hin]. unfold hashable in Hname.
  destruct (Py.hash_key (default JNull (Py.dict_get block "name")))
    as [|k] eqn:Hk; [done|].
  unfold bind at 1. unfold lift at 1. unfold bind at 1. unfold modify at 1.
  unfold bind at 1. simpl andb.
  destruct (Py.eq_str (default JNull (Py.dict_get block "name")) "Task").
  - destruct (default (JObj []) (Py.dict_get block "input")) as [| | | | |input];
      try done.
    unfold bind at 1. unfold lift at 1. simpl Py.get. cbv iota beta.
    rewrite or_else_subagent. unfold bind at 1. unfold lift at 1.
    destruct (Py.truthy (subagent_of input)).
    + unfold hashable in Hin.
      destruct (Py.hash_key (subagent_of input)) as [|a] eqn:Ha; [done|].
      rewrite (track_agent_usage_run _ _ _ a) by done.
      by rewrite (track_tool_tokens_run _ _ k).
    + unfold ret. by rewrite (track_tool_tokens_run _ _ k).
  - unfold ret. by rewrite (track_tool_tokens_run _ _ k).
Qed.

Lemma for_each_run fields session_id items st :
  wf_usage (usage_of (JObj fields)) = true →
  (if Py.truthy session_id then hashable session_id else true) = true →
  forallb wf_item items = true →
  for_each (process_item (JObj fields) session_id) items st =
    (items_effect (counter_value (usage_of (JObj fields))) (session_key session_id)
       items st, inr tt).
Proof.
  intros Hu Hs. revert st.
  induction items as [|item items IH]; intros st Hwf; simpl; [done|].
  simpl in Hwf. apply andb_true_iff in Hwf as [Hitem Hitems].
  unfold bind. rewrite process_item_run by done. by apply IH.
Qed.

Lemma process_retained_run entry st :
  wf_entry entry = true →
  process_retained entry st = (entry_effect entry st, inr tt).
Proof.
  unfold wf_entry, process_retained, entry_effect.
  destruct entry as [| | | | |fields]; try done.
  intros [Hs Hm]%andb_true_iff.
  unfold bind at 1. unfold lift at 1. simpl Py.get. cbv iota beta.
  change (from_option id JNull (Py.dict_get fields "sessionId"))
    with (session_of (JObj fields)).
  unfold bind at 1.
  assert (Hsession :
    (if Py.truthy (session_of (JObj fields))
     then s <- lift (Py.hash_key (session_of (JObj fields))) ;;
          modify (set_sessions_analyzed (union {[s]}))
     else ret tt) st
    = (match session_key (session_of (JObj fields)) with
       | Some s => set_sessions_analyzed (union {[s]}) st
       | None => st
       end, inr tt)).
  { unfold session_key, hashable in *.
    destruct (Py.truthy (session_of (JObj fields))); [|done].
    unfold bind, lift. by destruct (Py.hash_key (session_of (JObj fields))). }
  rewrite Hsession. clear Hsession.
  unfold bind at 1. unfold lift at 1.
  change (from_option id (JObj []) (Py.dict_get fields "message"))
    with (message_of (JObj fields)).
  destruct (message_of (JObj fields)) as [| | | | |message] eqn:Hmsg; try done.
  apply andb_true_iff in Hm as [Hu Hitems].
  unfold bind at 1. unfold lift at 1. simpl Py.get. cbv iota beta.
  unfold content_of in *.
  change (from_option id (JArr []) (Py.dict_get message "content"))
    with (default (JArr []) (Py.dict_get message "content")).
  destruct (default (JArr []) (Py.dict_get message "content"));
    try done.
  by apply for_each_run.
Qed.

(** *** Reading the aggregates after a block *)

Lemma agent_of_tool_of item a :
  agent_of item = Some a → wf_item item = true → tool_of item = Some (KStr "Task").
Proof.
  unfold agent_of, tool_of, wf_item. destruct item as [| | | | |block]; try done.
  destruct (Py.eq_str (default JNull (Py.dict_get block "type")) "tool_use");
    [|done].
  simpl andb.
  destruct (default JNull (Py.dict_get block "name")) as [|b|z|s|l|o]; try done.
  simpl. by destruct (String.eqb_spec s "Task") as [->|].
Qed.

Section ItemEffect.
Variables (u : counter → Z) (session : option key).

Lemma call_count_item item st k :
  call_count (item_effect u session item st) k = call_count st k + hit (tool_of item) k.
Proof.
  unfold item_effect, hit. destruct (tool_of item) as [k'|].
  - change (call_count (set_tool_token_usage _ ?s)) with (call_count s).
    assert (∀ s, call_count
              (match agent_of item with
               | Some a =>
                   set_agent_usage (upd new_agent_stats a (agent_effect u session)) s
               | None => s
               end) k = call_count s k) as -> by (intros s; by destruct (agent_of item)).
    rewrite call_count_upd. repeat case_decide; simplify_eq; lia.
  - case_decide; [done|lia].
Qed.

Lemma tool_record_item item st k :
  tool_record (item_effect u session item st) k =
    if decide (tool_of item = Some k) then tool_effect u (tool_record st k)
    else tool_record st k.
Proof.
  unfold item_effect. destruct (tool_of item) as [k'|].
  - rewrite tool_record_upd.
    assert (∀ s k0, tool_record
              (match agent_of item with
               | Some a =>
                   set_agent_usage (upd new_agent_stats a (agent_effect u session)) s
               | None => s
               end) k0 = tool_record s k0) as Hframe
      by (intros s k0; by destruct (agent_of item)).
    rewrite !Hframe.
    change (tool_record (set_tool_usage _ ?s)) with (tool_record s).
    repeat case_decide; simplify_eq; done.
  - by case_decide.
Qed.

Lemma agent_record_item item st a :
  wf_item item = true →
  agent_record (item_effect u session item st) a =
    if decide (agent_of item = Some a) then agent_effect u session (agent_record st a)
    else agent_record st a.
Proof.
  intros Hwf. unfold item_effect.
  destruct (agent_of item) as [a'|] eqn:Ha.
  - rewrite (agent_of_tool_of item a') by done.
    change (agent_record (set_tool_token_usage _ ?s)) with (agent_record s).
    rewrite agent_record_upd.
    change (agent_record (set_tool_usage _ ?s)) with (agent_record s).
    repeat case_decide; simplify_eq; done.
  - destruct (tool_of item); by case_decide.
Qed.

Lemma tool_usage_dom_item item st :
  dom (tool_usage (item_effect u session item st)) =
    dom (tool_usage st) ∪ (if tool_of item is Some k then {[k]} else ∅).
Proof.
  unfold item_effect. destruct (tool_of item) as [k|]; [|set_solver].
  destruct (agent_of item); simpl; rewrite dom_upd; set_solver.
Qed.

Lemma tool_token_usage_dom_item item st :
  dom (tool_token_usage (item_effect u session item st)) =
    dom (tool_token_usage st) ∪ (if tool_of item is Some k then {[k]} else ∅).
Proof.
  unfold item_effect. destruct (tool_of item) as [k|]; [|set_solver].
  destruct (agent_of item); simpl; rewrite dom_upd; set_solver.
Qed.

End ItemEffect.

(** *** Reading the aggregates after an entry *)

Lemma tool_total_effect u c t :
  tool_total c (tool_effect u t) = tool_total c t + u c.
Proof. by destruct c. Qed.

Lemma agent_total_effect u session c r :
  agent_total c (agent_effect u session r) = agent_total c r + u c.
Proof. by destruct c. Qed.

Section ItemsEffect.
Variables (u : counter → Z) (session : option key).

Lemma call_count_items items st k :
  call_count (items_effect u session items st) k
  = call_count st k + count_tools k items.
Proof.
  unfold items_effect, count_tools. revert st.
  induction items as [|item items IH]; intros st; simpl; [lia|].
  rewrite IH, call_count_item. lia.
Qed.

Lemma tool_tokens_items items st k c :
  tool_tokens (items_effect u session items st) k c
  = tool_tokens st k c + count_tools k items * u c.
Proof.
  unfold items_effect, count_tools, tool_tokens. revert st.
  induction items as [|item items IH]; intros st; simpl; [lia|].
  rewrite IH, tool_record_item. unfold hit.
  case_decide; [rewrite tool_total_effect|]; lia.
Qed.

Lemma invocations_items items st a :
  forallb wf_item items = true →
  invocations (items_effect u session items st) a
  = invocations st a + count_agents a items.
Proof.
  unfold items_effect, count_agents, invocations. revert st.
  induction items as [|item items IH]; intros st Hwf; simpl; [lia|].
  simpl in Hwf. apply andb_true_iff in Hwf as [Hitem Hitems].
  rewrite IH, agent_record_item by done. unfold hit.
  case_decide; simpl; lia.
Qed.

Lemma agent_tokens_items items st a c :
  forallb wf_item items = true →
  agent_tokens (items_effect u session items st) a c
  = agent_tokens st a c + count_agents a items * u c.
Proof.
  unfold items_effect, count_agents, agent_tokens. revert st.
  induction items as [|item items IH]; intros st Hwf; simpl; [lia|].
  simpl in Hwf. apply andb_true_iff in Hwf as [Hitem Hitems].
  rewrite IH, agent_record_item by done. unfold hit.
  case_decide; [rewrite agent_total_effect|]; lia.
Qed.

Lemma tool_usage_dom_items items st :
  dom (tool_usage (items_effect u session items st))
  = dom (tool_usage st) ∪ tools_in items.
Proof.
  unfold items_effect. revert st.
  induction items as [|item items IH]; intros st; simpl; [set_solver|].
  rewrite IH, tool_usage_dom_item. set_solver.
Qed.

Lemma tool_token_usage_dom_items items st :
  dom (tool_token_usage (items_effect u session items st))
  = dom (tool_token_usage st) ∪ tools_in items.
Proof.
  unfold items_effect. revert st.
  induction items as [|item items IH]; intros st; simpl; [set_solver|].
  rewrite IH, tool_token_usage_dom_item. set_solver.
Qed.

End ItemsEffect.

Lemma process_entry_retained fromisoformat entry st :
  retained fromisoformat entry st →
  process_entry fromisoformat entry st = process_retained entry st.
Proof. unfold retained, process_entry, bind. by intros ->. Qed.

Lemma process_entry_run fromisoformat entry st :
  retained fromisoformat entry st → wf_entry entry = true →
  process_entry fromisoformat entry st = (entry_effect entry st, inr tt).
Proof.
  intros Hr Hwf. rewrite process_entry_retained by done.
  by apply process_retained_run.
Qed.

(** Whatever the date check says, an entry of the schema is skipped or
    takes its net effect. *)
Lemma process_entry_cases fromisoformat entry st :
  wf_entry entry = true →
  (process_entry fromisoformat entry st).1 = st ∨
  (process_entry fromisoformat entry st).1 = entry_effect entry st.
Proof.
  intros Hwf. unfold process_entry, bind.
  pose proof (before_cutoff_unchanged fromisoformat entry st) as Hst.
  destruct (before_cutoff fromisoformat entry st) as [st' [e|old]];
    simpl in *; subst st'; [by left|].
  destruct old; [by left|]. right. by rewrite process_retained_run.
Qed.

Lemma wf_entry_items entry :
  wf_entry entry = true → forallb wf_item (content_of (message_of entry)) = true.
Proof.
  unfold wf_entry. destruct entry as [| | | | |fields]; try done.
  intros [_ Hm]%andb_true_iff.
  destruct (message_of (JObj fields)); try done.
  by apply andb_true_iff in Hm as [_ ?].
Qed.

Section EntryEffect.
Variable entry : json.

Lemma call_count_entry st k :
  call_count (entry_effect entry st) k
  = call_count st k + count_tools k (content_of (message_of entry)).
Proof.
  unfold entry_effect. rewrite call_count_items.
  by destruct (session_key (session_of entry)).
Qed.

Lemma tool_tokens_entry st k c :
  tool_tokens (entry_effect entry st) k c
  = tool_tokens st k c
    + count_tools k (content_of (message_of entry))
      * counter_value (usage_of (message_of entry)) c.
Proof.
  unfold entry_effect. rewrite tool_tokens_items.
  by destruct (session_key (session_of entry)).
Qed.

Lemma invocations_entry st a :
  forallb wf_item (content_of (message_of entry)) = true →
  invocations (entry_effect entry st) a
  = invocations st a + count_agents a (content_of (message_of entry)).
Proof.
  intros Hwf. unfold entry_effect. rewrite invocations_items by done.
  by destruct (session_key (session_of entry)).
Qed.

Lemma agent_tokens_entry st a c :
  forallb wf_item (content_of (message_of entry)) = true →
  agent_tokens (entry_effect entry st) a c
  = agent_tokens st a c
    + count_agents a (content_of (message_of entry))
      * counter_value (usage_of (message_of entry)) c.
Proof.
  intros Hwf. unfold entry_effect. rewrite agent_tokens_items by done.
  by destruct (session_key (session_of entry)).
Qed.

Lemma same_tools_entry st :
  dom (tool_token_usage st) = dom (tool_usage st) →
  dom (tool_token_usage (entry_effect entry st))
  = dom (tool_usage (entry_effect entry st)).
Proof.
  intros Hdom. unfold entry_effect.
  rewrite tool_usage_dom_items, tool_token_usage_dom_items.
  destruct (session_key (session_of entry)); simpl; by rewrite Hdom.
Qed.

End EntryEffect.

(** ** Calls that return *)

Lemma bind_returns {A B : Type} (m : M A) (k : A → M B) st st' b :
  bind m k st = (st', inr b) →
  ∃ st1 a, m st = (st1, inr a) ∧ k a st1 = (st', inr b).
Proof.
  unfold bind. destruct (m st) as [st1 [e|a]]; [done|]. intros H. by exists st1, a.
Qed.

Lemma lift_returns {A : Type} (r : exn + A) st st' a :
  lift r st = (st', inr a) → r = inr a ∧ st' = st.
Proof. unfold lift. by intros [= -> ->]. Qed.

Lemma add_tool_counter_returns k usage c st st' :
  add_tool_counter k usage c st = (st', inr tt) →
  ∃ n, usage_counter usage c = inr n.
Proof.
  unfold add_tool_counter, usage_counter. intros H.
  apply bind_returns in H as (st1 & [] & _ & H).
  apply bind_returns in H as (st2 & v & [-> _]%lift_returns & H).
  apply bind_returns in H as (st3 & n & [-> _]%lift_returns & _).
  by exists n.
Qed.

Lemma add_agent_counter_returns a usage c st st' :
  add_agent_counter a usage c st = (st', inr tt) →
  ∃ n, usage_counter usage c = inr n.
Proof.
  unfold add_agent_counter, usage_counter. intros H.
  apply bind_returns in H as (st1 & [] & _ & H).
  apply bind_returns in H as (st2 & v & [-> _]%lift_returns & H).
  apply bind_returns in H as (st3 & n & [-> _]%lift_returns & _).
  by exists n.
Qed.

Lemma wf_usage_intro usage :
  (∀ c, ∃ n, usage_counter usage c = inr n) → wf_usage usage = true.
Proof.
  intros H. unfold wf_usage. apply forallb_forall. intros c _.
  by destruct (H c) as [n ->].
Qed.

Lemma track_tool_tokens_returns tool_name fields st st' :
  track_tool_tokens tool_name (JObj fields) st = (st', inr tt) →
  wf_usage (usage_of (JObj fields)) = true.
Proof.
  unfold track_tool_tokens. intros H.
  apply bind_returns in H as (st0 & usage & [Hu ->]%lift_returns & H).
  simpl in Hu. injection Hu as <-.
  apply bind_returns in H as (st1 & k & _ & H).
  apply bind_returns in H as (st2 & [] & H1%add_tool_counter_returns & H).
  apply bind_returns in H as (st3 & [] & H2%add_tool_counter_returns & H).
  apply bind_returns in H as (st4 & [] & H3%add_tool_counter_returns & H).
  apply add_tool_counter_returns in H.
  apply wf_usage_intro. by intros [].
Qed.

Lemma track_agent_usage_returns agent_name fields session_id st st' :
  track_agent_usage agent_name (JObj fields) session_id st = (st', inr tt) →
  hashable agent_name = true.
Proof.
  unfold track_agent_usage, hashable. intros H.
  apply bind_returns in H as (st0 & usage & _ & H).
  by apply bind_returns in H as (st1 & a & [-> _]%lift_returns & _).
Qed.

(** A block that is no counted tool call is passed over. *)
Lemma process_item_skip message session_id item st :
  tool_of item = None → wf_item item = true →
  process_item message session_id item st = (st, inr tt).
Proof.
  unfold tool_of, wf_item, process_item.
  destruct item as [| | | | |block]; try done.
  destruct (Py.eq_str _ "tool_use"); [|done].
  destruct (Py.truthy _); [|done].
  unfold hashable. by destruct (Py.hash_key _).
Qed.

(** A block on which [process_item] returns is a block of the schema,
    and when it is a counted tool call the usage object is one too. *)
Lemma process_item_returns fields session_id item st st' :
  process_item (JObj fields) session_id item st = (st', inr tt) →
  wf_item item = true ∧
  (tool_of item = None ∨ wf_usage (usage_of (JObj fields)) = true).
Proof.
  unfold process_item, wf_item, tool_of.
  destruct item as [| | | | |block]; try (intros _; split; [done | by left]).
  destruct (Py.eq_str (default JNull (Py.dict_get block "type")) "tool_use");
    [|intros _; split; [done | by left]].
  destruct (Py.truthy (default JNull (Py.dict_get block "name")));
    [|intros _; split; [done | by left]].
  intros H.
  apply bind_returns in H as (st0 & k & [Hk ->]%lift_returns & H).
  apply bind_returns in H as (st1 & [] & _ & H).
  apply bind_returns in H as (st2 & [] & Htask & Htokens).
  apply track_tool_tokens_returns in Htokens.
  unfold hashable. rewrite Hk. simpl. split; [|by right].
  destruct (Py.eq_str (default JNull (Py.dict_get block "name")) "Task"); [|done].
  apply bind_returns in Htask as (st3 & first & [Hfirst ->]%lift_returns & Htask).
  destruct (default (JObj []) (Py.dict_get block "input")) as [| | | | |input];
    try done.
  simpl in Hfirst. injection Hfirst as <-.
  rewrite or_else_subagent in Htask.
  apply bind_returns in Htask as (st4 & subagent & [Hsub ->]%lift_returns & Htask).
  injection Hsub as <-.
  destruct (Py.truthy (subagent_of input)); [|done].
  by apply track_agent_usage_returns in Htask.
Qed.

Lemma process_item_effect fields session_id item st st' :
  session_ok session_id = true →
  process_item (JObj fields) session_id item st = (st', inr tt) →
  wf_item item = true ∧
  st' = item_effect (counter_value (usage_of (JObj fields))) (session_key session_id)
          item st.
Proof.
  intros Hs H. destruct (process_item_returns _ _ _ _ _ H) as [Hwf [Hnone|Hu]].
  - split; [done|]. rewrite process_item_skip in H by done.
    unfold item_effect. rewrite Hnone. by injection H.
  - split; [done|]. rewrite process_item_run in H by done. by injection H.
Qed.

Lemma for_each_effect fields session_id items st st' :
  session_ok session_id = true →
  for_each (process_item (JObj fields) session_id) items st = (st', inr tt) →
  forallb wf_item items = true ∧
  st' = items_effect (counter_value (usage_of (JObj fields))) (session_key session_id)
          items st.
Proof.
  intros Hs. revert st.
  induction items as [|item items IH]; intros st; simpl.
  - by intros [= <-].
  - intros H. apply bind_returns in H as (st1 & [] & Hitem & Hrest).
    destruct (process_item_effect _ _ _ _ _ Hs Hitem) as [Hwf ->].
    destruct (IH _ Hrest) as [Hwfs ->]. by rewrite Hwf, Hwfs.
Qed.

(** A retained entry on which the pass returns takes its net effect, and
    its blocks are blocks of the schema. *)
Lemma process_retained_effect entry st st' :
  process_retained entry st = (st', inr tt) →
  forallb wf_item (content_of (message_of entry)) = true ∧
  st' = entry_effect entry st.
Proof.
  unfold process_retained, entry_effect. intros H.
  apply bind_returns in H as (st0 & session_id & [Hsid ->]%lift_returns & H).
  destruct entry as [| | | | |fields]; try done.
  simpl in Hsid. injection Hsid as <-.
  change (from_option id JNull (Py.dict_get fields "sessionId"))
    with (session_of (JObj fields)) in H.
  apply bind_returns in H as (st1 & [] & Hsession & H).
  assert (Hs : session_ok (session_of (JObj fields)) = true ∧
               st1 = match session_key (session_of (JObj fields)) with
                     | Some s => set_sessions_analyzed (union {[s]}) st
                     | None => st
                     end).
  { unfold session_ok, session_key, hashable.
    destruct (Py.truthy (session_of (JObj fields))).
    - apply bind_returns in Hsession as (st2 & s & [-> ->]%lift_returns & Hmod).
      by injection Hmod as <-.
    - by injection Hsession as <-. }
  destruct Hs as [Hs ->].
  apply bind_returns in H as (st2 & message & [Hm ->]%lift_returns & H).
  simpl in Hm. injection Hm as <-.
  change (from_option id (JObj []) (Py.dict_get fields "message"))
    with (message_of (JObj fields)) in *.
  apply bind_returns in H as (st3 & content & [Hc ->]%lift_returns & H).
  destruct (message_of (JObj fields)) as [| | | | |message]; try done.
  simpl in Hc. injection Hc as <-. unfold content_of.
  change (from_option id (JArr []) (Py.dict_get message "content"))
    with (default (JArr []) (Py.dict_get message "content")) in H.
  destruct (default (JArr []) (Py.dict_get message "content"));
    try (injection H as <-; by split).
  by apply for_each_effect.
Qed.

Lemma process_entry_effect fromisoformat entry st st' :
  retained fromisoformat entry st →
  process_entry fromisoformat entry st = (st', inr tt) →
  forallb wf_item (content_of (message_of entry)) = true ∧
  st' = entry_effect entry st.
Proof.
  intros Hr H. rewrite process_entry_retained in H by done.
  by apply process_retained_effect.
Qed.

(** ** Tool calls and tokens of an entry *)

Lemma hit_tool_named T item :
  T ≠ "" →
  hit (tool_of item) (KStr T) = if is_tool_use_named T item then 1 else 0.
Proof.
  intros HT. unfold hit, tool_of, is_tool_use_named.
  destruct item as [| | | | |fields]; try done.
  destruct (Py.eq_str (default JNull (Py.dict_get fields "type")) "tool_use");
    [|done].
  simpl andb.
  destruct (default JNull (Py.dict_get fields "name")) as [|b|z|s|l|o]; simpl;
    try done.
  - by destruct b.
  - by destruct (negb (z =? 0)).
  - destruct (String.eqb_spec s T) as [->|Hne].
    + destruct (String.eqb_spec T "") as [->|]; [done|]. simpl.
      by rewrite decide_True.
    + destruct (negb (s =? "")%string); [|done].
      rewrite decide_False; [done|]. by intros [= ->].
  - by destruct l.
  - by destruct o.
Qed.

Lemma count_tools_named T items :
  T ≠ "" → count_tools (KStr T) items = count_named T items.
Proof.
  intros HT. unfold count_tools, count_named.
  induction items as [|item items IH]; simpl; [done|].
  rewrite IH, hit_tool_named by done. rewrite filter_cons.
  destruct (is_tool_use_named T item) eqn:Hnamed.
  - rewrite decide_True by done. simpl length. lia.
  - rewrite decide_False by done. lia.
Qed.

Lemma process_item_nameless message session_id block st :
  nameless block →
  process_item message session_id (JObj block) st = (st, inr tt).
Proof.
  intros Hname. unfold process_item.
  destruct (Py.eq_str _ "tool_use"); [|done].
  by destruct Hname as [-> | ->].
Qed.

(** C1. For every retained entry on which [process_entry] returns, and
    every tool name [T] (a non-empty string), the call has incremented
    the call count of [T] by exactly the number of items of
    [message.content] (when that is a list; none otherwise) that are
    objects with [type] "tool_use" and [name] [T]. The call does return
    on every entry of the log schema. A block whose [name] is absent or
    the empty string leaves the whole state as it was, so it contributes
    to no tool's count. *)
Theorem tool_call_count_matches_blocks
    (fromisoformat : string → option datetime) (entry : json) (st : monitor) :
  retained fromisoformat entry st →
  (∀ st',
     process_entry fromisoformat entry st = (st', inr tt) →
     ∀ T, T ≠ "" →
       call_count st' (KStr T)
       = call_count st (KStr T) + count_named T (content_of (message_of entry))) ∧
  (wf_entry entry = true →
   ∃ st', process_entry fromisoformat entry st = (st', inr tt)) ∧
  (∀ message session_id block s,
     nameless block →
     process_item message session_id (JObj block) s = (s, inr tt)).
Proof.
  intros Hr. split; [|split].
  - intros st' [_ ->]%process_entry_effect T HT; [|done].
    rewrite call_count_entry. by rewrite count_tools_named.
  - intros Hwf. exists (entry_effect entry st). by apply process_entry_run.
  - intros message session_id block s. apply process_item_nameless.
Qed.

(** C4. Usage is attributed once per qualifying block, not divided among
    the blocks: for every retained entry whose [message.usage] has
    [input_tokens] = 100 and whose content holds exactly two tool_use
    blocks named "Read", a call of [process_entry] that returns has
    increased the input-token total of tool "Read" by 200; the call
    returns on every entry of the log schema. *)
Theorem usage_counted_once_per_block
    (fromisoformat : string → option datetime) (entry : json) (st : monitor) :
  retained fromisoformat entry st →
  Py.get (usage_of (message_of entry)) "input_tokens" (JNum 0) = inr (JNum 100) →
  count_named "Read" (content_of (message_of entry)) = 2 →
  (∀ st',
     process_entry fromisoformat entry st = (st', inr tt) →
     tool_tokens st' (KStr "Read") InputTokens
     = tool_tokens st (KStr "Read") InputTokens + 200) ∧
  (wf_entry entry = true →
   ∃ st', process_entry fromisoformat entry st = (st', inr tt)).
Proof.
  intros Hr Hin Htwo. split.
  - intros st' [_ ->]%process_entry_effect; [|done].
    rewrite tool_tokens_entry, count_tools_named, Htwo by done.
    unfold counter_value, usage_counter. simpl usage_key. by rewrite Hin.
  - intros Hwf. exists (entry_effect entry st). by apply process_entry_run.
Qed.

(** The general form: each counter of a tool grows by the entry's usage
    times the number of the tool's blocks. *)
Lemma tool_tokens_grow_per_block fromisoformat entry st st' T c :
  retained fromisoformat entry st →
  process_entry fromisoformat entry st = (st', inr tt) →
  T ≠ "" →
  tool_tokens st' (KStr T) c
  = tool_tokens st (KStr T) c
    + count_named T (content_of (message_of entry))
      * counter_value (usage_of (message_of entry)) c.
Proof.
  intros Hr [_ ->]%process_entry_effect HT; [|done].
  by rewrite tool_tokens_entry, count_tools_named.
Qed.

Lemma sum_list_nonneg {A : Type} (f : A → Z) (l : list A) :
  (∀ x, 0 ≤ f x) → 0 ≤ sum_list f l.
Proof.
  intros Hf. induction l as [|x l IH]; simpl; [done|]. specialize (Hf x). lia.
Qed.

Lemma sum_list_elem {A : Type} (f : A → Z) (l : list A) x :
  (∀ y, 0 ≤ f y) → x ∈ l → f x ≤ sum_list f l.
Proof.
  intros Hf. induction 1 as [x l|x y l _ IH]; simpl.
  - pose proof (sum_list_nonneg f l Hf). lia.
  - specialize (Hf y). lia.
Qed.

Lemma hit_nonneg o k : 0 ≤ hit o k.
Proof. unfold hit. case_decide; lia. Qed.

(** C8. For every retained entry that contains a tool_use block named
    "Task" whose input has a falsy [subagent_type] (absent, null, the
    empty string, ...) and a non-empty [agent], agent tracking falls back
    to the agent field: when [process_entry] returns, with [n] the number
    of "Task" blocks of the entry that resolve to that agent (at least
    this one), the agent's invocation count has grown by [n] and each of
    its four totals by [n] times the entry's usage counter. The call
    returns on every entry of the log schema. *)
Theorem task_agent_falls_back_to_agent_field
    (fromisoformat : string → option datetime) (entry : json) (st : monitor)
    (block input : list (string * json)) (A : string) :
  retained fromisoformat entry st →
  JObj block ∈ content_of (message_of entry) →
  Py.dict_get block "type" = Some (JStr "tool_use") →
  Py.dict_get block "name" = Some (JStr "Task") →
  Py.dict_get block "input" = Some (JObj input) →
  Py.truthy (default JNull (Py.dict_get input "subagent_type")) = false →
  Py.dict_get input "agent" = Some (JStr A) →
  A ≠ "" →
  (∀ st',
     process_entry fromisoformat entry st = (st', inr tt) →
     ∃ n,
       n = count_agents (KStr A) (content_of (message_of entry)) ∧
       1 ≤ n ∧
       invocations st' (KStr A) = invocations st (KStr A) + n ∧
       ∀ c, agent_tokens st' (KStr A) c
            = agent_tokens st (KStr A) c
              + n * counter_value (usage_of (message_of entry)) c) ∧
  (wf_entry entry = true →
   ∃ st', process_entry fromisoformat entry st = (st', inr tt)).
Proof.
  intros Hr Hin Htype Hname Hinput Hfalsy Hagent HA. split.
  - intros st' [Hwf ->]%process_entry_effect; [|done].
    exists (count_agents (KStr A) (content_of (message_of entry))).
    split; [done|]. split; [|split].
    + assert (Hhit : hit (agent_of (JObj block)) (KStr A) = 1).
      { unfold hit, agent_of, subagent_of. rewrite Htype, Hname, Hinput. simpl.
        rewrite Hfalsy, Hagent. simpl.
        destruct (String.eqb_spec A "") as [->|]; [done|]. simpl.
        by rewrite decide_True. }
      rewrite <- Hhit. unfold count_agents.
      apply (sum_list_elem (λ item, hit (agent_of item) (KStr A))); [|done].
      intros item. apply hit_nonneg.
    + by apply invocations_entry.
    + intros c. by apply agent_tokens_entry.
  - intros Hwf. exists (entry_effect entry st). by apply process_entry_run.
Qed.

(** ** The tables after any sequence of entries *)

Lemma process_all_recorded fromisoformat days cutoff entries :
  recorded_means_counted (process_all fromisoformat entries (init days cutoff)).
Proof.
  apply (process_all_keeps fromisoformat recorded_means_counted);
    [|apply init_recorded].
  intros entry.
  apply (process_entry_keeps fromisoformat recorded_means_counted (λ _, True)).
  - intros message session_id item _. apply recorded_means_counted_item.
  - by intros f st [].
  - done.
Qed.

Lemma process_all_same_tools fromisoformat entries st :
  Forall (λ entry, wf_entry entry = true) entries →
  dom (tool_token_usage st) = dom (tool_usage st) →
  dom (tool_token_usage (process_all fromisoformat entries st))
  = dom (tool_usage (process_all fromisoformat entries st)).
Proof.
  unfold process_all. revert st.
  induction entries as [|entry entries IH]; intros st Hall Hdom; simpl; [done|].
  inversion Hall as [|? ? Hentry Hrest]; subst. apply IH; [done|].
  destruct (process_entry_cases fromisoformat entry st Hentry) as [-> | ->];
    [done | by apply same_tools_entry].
Qed.

Lemma process_entry_returns_cases fromisoformat entry st st' :
  process_entry fromisoformat entry st = (st', inr tt) →
  st' = st ∨ st' = entry_effect entry st.
Proof.
  unfold process_entry. intros H.
  apply bind_returns in H as (st1 & old & Hold & H).
  pose proof (before_cutoff_unchanged fromisoformat entry st) as Hst.
  rewrite Hold in Hst. simpl in Hst. subst st1.
  destruct old; [left; by injection H|].
  right. by apply process_retained_effect in H as [_ ->].
Qed.

Lemma all_return_same_tools fromisoformat entries st :
  all_return fromisoformat entries st →
  dom (tool_token_usage st) = dom (tool_usage st) →
  dom (tool_token_usage (process_all fromisoformat entries st))
  = dom (tool_usage (process_all fromisoformat entries st)).
Proof.
  unfold process_all. revert st.
  induction entries as [|entry entries IH]; intros st Hall Hdom; simpl; [done|].
  destruct Hall as [Hret Hrest]. apply IH; [done|].
  destruct (process_entry fromisoformat entry st) as [st' [e|[]]] eqn:Hrun;
    simpl in *; [done|].
  destruct (process_entry_returns_cases _ _ _ _ Hrun) as [-> | ->];
    [done | by apply same_tools_entry].
Qed.

(** C9. After processing any sequence of entries: every tool that holds a
    token-usage record holds a call count, and the two sets of tool names
    are equal when every call returned, as also when every entry is of
    the log schema; every tool in either table has a call count of at
    least 1; every agent in the agent table has an invocation count of at
    least 1, so the averages of the report divide by it and the guard for
    a zero count is not taken. *)
Theorem recorded_tools_and_agents_are_counted
    (fromisoformat : string → option datetime) (days cutoff : Z)
    (entries : list json) :
  let st := process_all fromisoformat entries (init days cutoff) in
  dom (tool_token_usage st) ⊆ dom (tool_usage st) ∧
  (all_return fromisoformat entries (init days cutoff) →
   dom (tool_token_usage st) = dom (tool_usage st)) ∧
  (Forall (λ entry, wf_entry entry = true) entries →
   dom (tool_token_usage st) = dom (tool_usage st)) ∧
  (∀ k, k ∈ dom (tool_usage st) ∪ dom (tool_token_usage st) → 1 ≤ call_count st k) ∧
  (∀ a r, agent_usage st !! a = Some r →
     1 ≤ count r ∧
     average (total_input_tokens r) (count r) = total_input_tokens r `div` count r ∧
     average (total_output_tokens r) (count r) = total_output_tokens r `div` count r).
Proof.
  simpl.
  destruct (process_all_recorded fromisoformat days cutoff entries) as [Hc Hd Ha].
  split; [done|]. split; [|split; [|split]].
  - intros Hall. apply all_return_same_tools; [done|]. simpl. set_solver.
  - intros Hall. apply process_all_same_tools; [done|]. simpl. set_solver.
  - intros k Hk.
    assert (Hin : k ∈ dom (tool_usage (process_all fromisoformat entries
                                         (init days cutoff))))
      by set_solver.
    apply elem_of_dom in Hin as [n Hn]. unfold call_count. rewrite Hn. simpl.
    by apply (Hc k).
  - intros a r Hr. specialize (Ha a r Hr). unfold average.
    replace (count r >? 0) with true; [done|]. symmetry. apply Z.gtb_lt. lia.
Qed.

(** ** The date window *)

Section Window.
Variable fromisoformat : string → option datetime.
Variable json_loads : string → loaded.

Lemma before_cutoff_aware fields s t st :
  Py.dict_get fields "timestamp" = Some (JStr s) →
  s ≠ "" →
  fromisoformat (Py.replace_Z s) = Some (Aware t) →
  before_cutoff fromisoformat (JObj fields) st = (st, inr (t <? cutoff_date st)).
Proof.
  intros Hts Hs Hparse. unfold before_cutoff, bind, lift. simpl. rewrite Hts. simpl.
  destruct (String.eqb_spec s "") as [->|_]; [done|]. simpl. by rewrite Hparse.
Qed.

Lemma before_cutoff_unparseable fields s st :
  Py.dict_get fields "timestamp" = Some (JStr s) →
  fromisoformat (Py.replace_Z s) = None →
  before_cutoff fromisoformat (JObj fields) st = (st, inr false).
Proof.
  intros Hts Hparse. unfold before_cutoff, bind, lift. simpl. rewrite Hts. simpl.
  destruct (negb (s =? "")%string); [|done]. by rewrite Hparse.
Qed.

Lemma before_cutoff_absent fields st :
  Py.dict_get fields "timestamp" = None →
  before_cutoff fromisoformat (JObj fields) st = (st, inr false).
Proof. intros Hts. unfold before_cutoff, bind, lift. simpl. by rewrite Hts. Qed.

Lemma dict_get_without_key k fields k' :
  Py.dict_get (without_key k fields) k' =
    if decide (k = k') then None else Py.dict_get fields k'.
Proof.
  unfold without_key. induction fields as [|[k0 v] fields IH].
  - simpl. by case_decide.
  - rewrite filter_cons. cbn [fst]. destruct (decide (k0 ≠ k)) as [Hk0|Hk0].
    + cbn [Py.dict_get]. rewrite IH.
      destruct (String.eqb_spec k0 k') as [->|]; [|done].
      by rewrite decide_False.
    + apply dec_stable in Hk0. subst k0. rewrite IH. cbn [Py.dict_get].
      destruct (String.eqb_spec k k') as [->|Hne]; by case_decide.
Qed.

Lemma process_retained_without_timestamp fields st :
  process_retained (JObj (without_key "timestamp" fields)) st
  = process_retained (JObj fields) st.
Proof.
  unfold process_retained. simpl Py.get.
  by rewrite !dict_get_without_key.
Qed.

(** Fail-open on [ValueError]: an entry whose timestamp is a string that
    fails to parse is not excluded. [process_entry] treats it exactly as
    the same entry without a timestamp (same final state, same outcome);
    when the call returns, [parse_session_file] goes on with the
    following lines of the file, and the call does return on every entry
    of the log schema. *)
Theorem unparseable_timestamp_fails_open
    (fields : list (string * json)) (s : string) (st : monitor) :
  Py.dict_get fields "timestamp" = Some (JStr s) →
  fromisoformat (Py.replace_Z s) = None →
  retained fromisoformat (JObj fields) st ∧
  process_entry fromisoformat (JObj fields) st
  = process_entry fromisoformat (JObj (without_key "timestamp" fields)) st ∧
  (∀ st' line rest,
     process_entry fromisoformat (JObj fields) st = (st', inr tt) →
     Py.blank line = false → json_loads line = Loaded (JObj fields) →
     parse_lines fromisoformat json_loads (line :: rest) st
     = parse_lines fromisoformat json_loads rest st') ∧
  (wf_entry (JObj fields) = true →
   ∃ st', process_entry fromisoformat (JObj fields) st = (st', inr tt)).
Proof.
  intros Hts Hparse.
  assert (Hr : retained fromisoformat (JObj fields) st)
    by by apply (before_cutoff_unparseable fields s).
  split; [done|]. split; [|split].
  - rewrite process_entry_retained by done.
    rewrite process_entry_retained.
    + by rewrite process_retained_without_timestamp.
    + apply before_cutoff_absent. rewrite dict_get_without_key.
      by rewrite decide_True.
  - intros st' line rest Hrun Hblank Hline. simpl. rewrite Hblank, Hline.
    unfold bind. by rewrite Hrun.
  - intros Hwf. exists (entry_effect (JObj fields) st). by apply process_entry_run.
Qed.

(** What the handler does not catch. A truthy timestamp that is no
    string has no [replace]: [AttributeError]. *)
Lemma nonstring_timestamp_raises fields v st :
  Py.dict_get fields "timestamp" = Some v →
  Py.truthy v = true →
  (∀ s, v ≠ JStr s) →
  process_entry fromisoformat (JObj fields) st = (st, inl AttributeError).
Proof.
  intros Hts Htruthy Hstr. unfold process_entry, before_cutoff, bind, lift. simpl.
  rewrite Hts. simpl. rewrite Htruthy.
  destruct v as [|b|z|s|l|o]; try done. by destruct (Hstr s).
Qed.

(** A timestamp without a UTC offset parses to a naive [datetime], and
    comparing it with the aware cutoff is a [TypeError]. *)
Lemma naive_timestamp_raises fields s st :
  Py.dict_get fields "timestamp" = Some (JStr s) →
  s ≠ "" →
  fromisoformat (Py.replace_Z s) = Some Naive →
  process_entry fromisoformat (JObj fields) st = (st, inl TypeError).
Proof.
  intros Hts Hs Hparse. unfold process_entry, before_cutoff, bind, lift. simpl.
  rewrite Hts. simpl. destruct (String.eqb_spec s "") as [->|_]; [done|]. simpl.
  by rewrite Hparse.
Qed.

(** An exception out of [process_entry] ends the file: the lines after
    it are not read. *)
Lemma raising_entry_abandons_file line rest entry e st st' :
  Py.blank line = false →
  json_loads line = Loaded entry →
  process_entry fromisoformat entry st = (st', inl e) →
  parse_session_file fromisoformat json_loads (Some (line :: rest)) st = (st', true).
Proof.
  intros Hblank Hline Hraise. unfold parse_session_file. simpl.
  rewrite Hblank, Hline. unfold bind. by rewrite Hraise.
Qed.

(** A line that is not JSON is skipped, and so is a blank one. *)
Lemma malformed_line_skipped line rest st :
  json_loads line = JSONDecodeError ∨ Py.blank line = true →
  parse_lines fromisoformat json_loads (line :: rest) st
  = parse_lines fromisoformat json_loads rest st.
Proof.
  intros [Hline | Hblank]; simpl.
  - rewrite Hline. by destruct (Py.blank line).
  - by rewrite Hblank.
Qed.

End Window.

(** ** Derived figures *)

Global Instance sum_list_perm {A : Type} (f : A → Z) :
  Proper (Permutation ==> eq) (sum_list f).
Proof.
  intros l1 l2 Hperm. unfold sum_list.
  induction Hperm as [|x l1 l2 _ IH|x y l|l1 l2 l3 _ IH1 _ IH2]; simpl; lia.
Qed.

Lemma sum_list_app {A : Type} (f : A → Z) (l1 l2 : list A) :
  sum_list f (l1 ++ l2) = sum_list f l1 + sum_list f l2.
Proof. unfold sum_list. induction l1 as [|x l1 IH]; simpl; lia. Qed.

Lemma sum_values_to_list {V : Type} (h : V → Z) (m : gmap key V) :
  sum_values h m = sum_list (λ item, h item.2) (map_to_list m).
Proof.
  induction m as [|k v m Hk IH] using map_ind.
  - by rewrite sum_values_empty, map_to_list_empty.
  - rewrite sum_values_insert, Hk, map_to_list_insert by done. simpl. lia.
Qed.

Lemma insert_by_billable_perm x l : insert_by_billable x l ≡ₚ x :: l.
Proof.
  induction l as [|y l IH]; simpl; [done|].
  destruct (total_billable y <=? total_billable x); [done|].
  rewrite IH. apply perm_swap.
Qed.

Lemma sort_by_billable_perm l : sort_by_billable l ≡ₚ l.
Proof.
  unfold sort_by_billable. induction l as [|x l IH]; simpl; [done|].
  by rewrite insert_by_billable_perm, IH.
Qed.

Lemma try_map_sum {A B : Type} (f : A → fault + B) (g : B → Z) (g' : A → Z) l l' :
  (∀ x y, f x = inr y → g y = g' x) →
  try_map f l = inr l' → sum_list g l' = sum_list g' l.
Proof.
  intros Hfg. revert l'. induction l as [|x l IH]; intros l'; simpl.
  - by intros [= <-].
  - destruct (f x) as [|y] eqn:Hx; [done|]. simpl.
    destruct (try_map f l) as [|ys]; [done|]. simpl. intros [= <-]. simpl.
    by rewrite (Hfg x y Hx), (IH ys).
Qed.

Lemma try_map_elem {A B : Type} (f : A → fault + B) l l' x :
  try_map f l = inr l' → x ∈ l → ∃ y, f x = inr y ∧ y ∈ l'.
Proof.
  revert l'. induction l as [|x0 l IH]; intros l'; simpl.
  - intros _ Hin. by apply elem_of_nil in Hin.
  - destruct (f x0) as [|y0] eqn:Hx0; [done|]. simpl.
    destruct (try_map f l) as [|ys]; [done|]. simpl. intros [= <-].
    intros [->|Hin]%elem_of_cons.
    + exists y0. split; [done | by left].
    + destruct (IH ys eq_refl Hin) as (y & Hy & Hyin).
      exists y. split; [done | by right].
Qed.

Lemma efficiency_spec billable cache_read e :
  efficiency cache_read (billable + cache_read) = inr e →
  is_cache_efficiency billable cache_read e.
Proof.
  unfold efficiency, is_cache_efficiency.
  destruct (Z.gtb_spec (billable + cache_read) 0) as [Hpos|Hle].
  - rewrite decide_True by lia.
    destruct (Float.truediv _ _) as [|q]; [done|]. simpl. intros [= <-]. by exists q.
  - rewrite decide_False by lia. by intros [= <-].
Qed.

Lemma agent_consumer_spec st a r c :
  agent_consumer st (a, r) = inr c →
  name c = (Agent, a) ∧
  total_billable c
  = billable_tokens (total_input_tokens r) (total_output_tokens r)
      (total_cache_creation_tokens r) ∧
  total_cache_read c = total_cache_read_tokens r ∧
  is_cache_efficiency (total_billable c) (total_cache_read_tokens r)
    (cache_efficiency c) ∧
  calls c = count r.
Proof.
  unfold agent_consumer.
  destruct (efficiency _ _) as [|e] eqn:He; [done|]. simpl. intros [= <-]. simpl.
  repeat split; [unfold billable_tokens; lia|]. by apply efficiency_spec.
Qed.

Lemma tool_consumer_spec st t r c :
  tool_consumer st (t, r) = inr c →
  name c = (Tool, t) ∧
  total_billable c
  = billable_tokens (input_tokens r) (output_tokens r) (cache_creation_tokens r) ∧
  total_cache_read c = cache_read_tokens r ∧
  is_cache_efficiency (total_billable c) (cache_read_tokens r) (cache_efficiency c) ∧
  calls c = call_count st t.
Proof.
  unfold tool_consumer.
  destruct (efficiency _ _) as [|e] eqn:He; [done|]. simpl. intros [= <-]. simpl.
  repeat split; [unfold billable_tokens; lia|]. by apply efficiency_spec.
Qed.

Lemma token_consumers_inv st consumers :
  token_consumers st = inr consumers →
  ∃ agents tools,
    try_map (agent_consumer st) (map_to_list (agent_usage st)) = inr agents ∧
    try_map (tool_consumer st) (map_to_list (tool_token_usage st)) = inr tools ∧
    consumers ≡ₚ agents ++ tools.
Proof.
  unfold token_consumers.
  destruct (try_map (agent_consumer st) _) as [|agents]; [done|]. simpl.
  destruct (try_map (tool_consumer st) _) as [|tools]; [done|]. simpl.
  intros [= <-]. exists agents, tools. repeat split. apply sort_by_billable_perm.
Qed.

(** C5. For every entity of the tables (agent or tool) the consumer that
    the report derives from it has billable tokens input + 3 × output +
    cache-creation, and cache efficiency cache-read / (billable +
    cache-read) × 100 when billable + cache-read > 0 and 0 otherwise; an
    entity with billable = 100 and cache-read = 900 has cache efficiency
    exactly 90.0. *)
Theorem billable_tokens_and_cache_efficiency (st : monitor) (consumers : list consumer) :
  token_consumers st = inr consumers →
  (∀ a r, agent_usage st !! a = Some r →
     ∃ c, c ∈ consumers ∧ name c = (Agent, a) ∧
       total_billable c
       = billable_tokens (total_input_tokens r) (total_output_tokens r)
           (total_cache_creation_tokens r) ∧
       is_cache_efficiency (total_billable c) (total_cache_read_tokens r)
         (cache_efficiency c) ∧
       (total_billable c = 100 → total_cache_read_tokens r = 900 →
        cache_efficiency c = PyFloat Float.lit_90)) ∧
  (∀ t r, tool_token_usage st !! t = Some r →
     ∃ c, c ∈ consumers ∧ name c = (Tool, t) ∧
       total_billable c
       = billable_tokens (input_tokens r) (output_tokens r) (cache_creation_tokens r) ∧
       is_cache_efficiency (total_billable c) (cache_read_tokens r)
         (cache_efficiency c) ∧
       (total_billable c = 100 → cache_read_tokens r = 900 →
        cache_efficiency c = PyFloat Float.lit_90)).
Proof.
  intros (agents & tools & Hagents & Htools & Hperm)%token_consumers_inv.
  assert (Hninety : ∀ b cr e,
    is_cache_efficiency b cr e → b = 100 → cr = 900 → e = PyFloat Float.lit_90).
  { intros b cr e He -> ->. unfold is_cache_efficiency in He. simpl in He.
    destruct He as (q & Hq & ->). vm_compute in Hq. by injection Hq as <-. }
  split.
  - intros a r Hr. apply elem_of_map_to_list in Hr.
    destruct (try_map_elem _ _ _ _ Hagents Hr) as (c & Hc & Hin).
    destruct (agent_consumer_spec st a r c Hc) as (Hn & Hb & _ & He & _).
    exists c. rewrite Hperm. split; [apply elem_of_app; by left|].
    repeat split; try done. by apply Hninety.
  - intros t r Hr. apply elem_of_map_to_list in Hr.
    destruct (try_map_elem _ _ _ _ Htools Hr) as (c & Hc & Hin).
    destruct (tool_consumer_spec st t r c Hc) as (Hn & Hb & _ & He & _).
    exists c. rewrite Hperm. split; [apply elem_of_app; by right|].
    repeat split; try done. by apply Hninety.
Qed.

Lemma touch_tool_tokens_sum (h : token_stats → Z) st :
  h new_token_stats = 0 →
  sum_values h (tool_token_usage (touch_tool_tokens st))
  = sum_values h (tool_token_usage st).
Proof.
  intros Hzero. unfold touch_tool_tokens. simpl.
  apply (map_fold_weak_ind
    (λ acc (_ : gmap key Z), sum_values h acc = sum_values h (tool_token_usage st)));
    [done|].
  intros k n m acc _ IH. rewrite sum_values_upd by done. simpl. lia.
Qed.

Lemma grand_total_touch c st :
  grand_total c (touch_tool_tokens st) = grand_total c st.
Proof.
  unfold grand_total. rewrite touch_tool_tokens_sum by by destruct c. done.
Qed.

Lemma total_cache_read_all_spec st consumers :
  token_consumers st = inr consumers →
  total_cache_read_all consumers = grand_total CacheRead st.
Proof.
  intros (agents & tools & Hagents & Htools & Hperm)%token_consumers_inv.
  assert (Ha : sum_list total_cache_read agents
               = sum_list (λ item, total_cache_read_tokens item.2)
                   (map_to_list (agent_usage st))).
  { apply (try_map_sum (agent_consumer st)); [|done].
    intros [a r] c Hc.
    by destruct (agent_consumer_spec st a r c Hc) as (_ & _ & -> & _). }
  assert (Ht : sum_list total_cache_read tools
               = sum_list (λ item, cache_read_tokens item.2)
                   (map_to_list (tool_token_usage st))).
  { apply (try_map_sum (tool_consumer st)); [|done].
    intros [t r] c Hc.
    by destruct (tool_consumer_spec st t r c Hc) as (_ & _ & -> & _). }
  unfold total_cache_read_all, grand_total.
  rewrite Hperm, sum_list_app, Ha, Ht, !sum_values_to_list. simpl. lia.
Qed.

Lemma estimated_cost_spec st consumers :
  token_consumers st = inr consumers →
  estimated_cost st consumers
  = cost_formula (grand_total InputTokens st) (grand_total OutputTokens st)
      (grand_total CacheCreation st) (grand_total CacheRead st).
Proof.
  intros Hc. unfold estimated_cost. by rewrite (total_cache_read_all_spec st).
Qed.

Lemma sum_values_singleton {V : Type} (h : V → Z) (k : key) (v : V) :
  sum_values h ({[k := v]} : gmap key V) = h v.
Proof.
  rewrite <- insert_empty, sum_values_insert, sum_values_empty, lookup_empty.
  simpl. lia.
Qed.

(** ** The sample log, processed *)

Example sample_entry_processed :
  let st := (process_entry sample_fromisoformat recent_entry sample_monitor).1 in
  map_to_list (tool_usage st) = [(KStr "Read", 2); (KStr "Task", 1)] ∧
  map_to_list (tool_token_usage st)
  = [(KStr "Read", TokenStats 200 14 0 0); (KStr "Task", TokenStats 100 7 0 0)] ∧
  invocations st (KStr "reviewer") = 1 ∧
  elements (sessions_analyzed st) = [KStr "session-1"].
Proof. vm_compute. done. Qed.

(** *** The claims on the sample log *)

Lemma tool_call_count_matches_blocks_witness :
  retained sample_fromisoformat recent_entry sample_monitor ∧
  wf_entry recent_entry = true ∧
  ∃ st',
    process_entry sample_fromisoformat recent_entry sample_monitor = (st', inr tt) ∧
    call_count st' (KStr "Read") = call_count sample_monitor (KStr "Read") + 2.
Proof.
  split; [reflexivity|]. split; [reflexivity|].
  destruct (tool_call_count_matches_blocks sample_fromisoformat recent_entry
              sample_monitor eq_refl) as (Hcount & Hreturns & _).
  destruct (Hreturns eq_refl) as [st' Hrun].
  exists st'. split; [exact Hrun|].
  rewrite (Hcount st' Hrun "Read") by done. reflexivity.
Defined.

Lemma unparseable_timestamp_fails_open_witness :
  wf_entry garbled_entry = true ∧
  process_entry sample_fromisoformat garbled_entry sample_monitor
  = process_entry sample_fromisoformat undated_entry sample_monitor ∧
  ∃ st',
    process_entry sample_fromisoformat garbled_entry sample_monitor = (st', inr tt) ∧
    parse_lines sample_fromisoformat sample_json_loads ["garbled"; "recent"]
      sample_monitor
    = parse_lines sample_fromisoformat sample_json_loads ["recent"] st'.
Proof.
  destruct (unparseable_timestamp_fails_open sample_fromisoformat sample_json_loads
              (sample_fields [("timestamp", JStr "yesterday")]) "yesterday"
              sample_monitor eq_refl eq_refl) as (_ & Hsame & Hnext & Hreturns).
  split; [reflexivity|]. split; [exact Hsame|].
  destruct (Hreturns eq_refl) as [st' Hrun].
  exists st'. split; [exact Hrun|]. apply Hnext; [exact Hrun | reflexivity..].
Defined.

(** C3 (the code departs from the claim). The timestamp of
    [numeric_entry] is present and is no parseable timestamp, so the
    claim has the entry retained like [undated_entry] (two "Read" calls
    counted) and the next line of the file processed (four in all). In
    the code the number has no [replace]: the [AttributeError] is not the
    [ValueError] the handler catches, [process_entry] leaves the monitor
    untouched and [parse_session_file] abandons the rest of the file. *)
Theorem numeric_timestamp_abandons_file :
  process_entry sample_fromisoformat numeric_entry sample_monitor
  = (sample_monitor, inl AttributeError) ∧
  parse_session_file sample_fromisoformat sample_json_loads
    (Some ["numeric"; "recent"]) sample_monitor
  = (sample_monitor, true) ∧
  call_count
    (process_entry sample_fromisoformat undated_entry sample_monitor).1 (KStr "Read")
  = 2 ∧
  call_count
    (parse_session_file sample_fromisoformat sample_json_loads
       (Some ["undated"; "recent"]) sample_monitor).1 (KStr "Read")
  = 4.
Proof.
  assert (Hraise :
    process_entry sample_fromisoformat numeric_entry sample_monitor
    = (sample_monitor, inl AttributeError)).
  { by apply (nonstring_timestamp_raises sample_fromisoformat _ (JNum 1768046400)). }
  split; [exact Hraise|]. split.
  - by apply (raising_entry_abandons_file sample_fromisoformat sample_json_loads
                "numeric" ["recent"] numeric_entry AttributeError).
  - split; reflexivity.
Qed.

Lemma usage_counted_once_per_block_witness :
  count_named "Read" (content_of (message_of recent_entry)) = 2 ∧
  ∃ st',
    process_entry sample_fromisoformat recent_entry sample_monitor = (st', inr tt) ∧
    tool_tokens st' (KStr "Read") InputTokens
    = tool_tokens sample_monitor (KStr "Read") InputTokens + 200.
Proof.
  split; [reflexivity|].
  destruct (usage_counted_once_per_block sample_fromisoformat recent_entry
              sample_monitor eq_refl eq_refl eq_refl) as [Htokens Hreturns].
  destruct (Hreturns eq_refl) as [st' Hrun].
  exists st'. split; [exact Hrun | by apply Htokens].
Defined.

Lemma task_agent_falls_back_to_agent_field_witness :
  ∃ st',
    process_entry sample_fromisoformat recent_entry sample_monitor = (st', inr tt) ∧
    invocations st' (KStr "reviewer") = 1 ∧
    agent_tokens st' (KStr "reviewer") InputTokens = 100.
Proof.
  destruct (task_agent_falls_back_to_agent_field sample_fromisoformat recent_entry
              sample_monitor
              [("type", JStr "tool_use"); ("id", JStr "toolu_01");
               ("name", JStr "Task");
               ("input", JObj [("subagent_type", JStr ""); ("agent", JStr "reviewer");
                               ("prompt", JStr "Review the change.")])]
              [("subagent_type", JStr ""); ("agent", JStr "reviewer");
               ("prompt", JStr "Review the change.")]
              "reviewer")
    as [Hagent Hreturns];
    [reflexivity | | reflexivity | reflexivity | reflexivity
     | reflexivity | reflexivity | done |].
  - simpl. do 3 right. left.
  - destruct (Hreturns eq_refl) as [st' Hrun].
    destruct (Hagent st' Hrun) as (n & Hn & _ & Hcount & Htokens).
    exists st'. split; [exact Hrun|]. rewrite Hcount, (Htokens InputTokens), Hn.
    split; reflexivity.
Defined.

Lemma aggregates_never_decrease_witness :
  counters_nonneg recent_entry = true ∧
  grows sample_monitor
    (process_entry sample_fromisoformat recent_entry sample_monitor).1 ∧
  nonneg (process_all sample_fromisoformat [recent_entry; garbled_entry]
            sample_monitor).
Proof.
  destruct (aggregates_start_at_zero_and_never_decrease sample_fromisoformat)
    as (_ & Hstep & Hall).
  split; [reflexivity|]. split.
  - apply Hstep. reflexivity.
  - apply Hall. repeat constructor.
Defined.

Lemma recorded_tools_and_agents_are_counted_witness :
  let st := process_all sample_fromisoformat [recent_entry; old_entry; garbled_entry]
              sample_monitor in
  dom (tool_token_usage st) = dom (tool_usage st).
Proof.
  destruct (recorded_tools_and_agents_are_counted sample_fromisoformat 7
              1767484800000000 [recent_entry; old_entry; garbled_entry])
    as (_ & Hreturned & _).
  apply Hreturned. vm_compute. tauto.
Defined.

Lemma billable_tokens_and_cache_efficiency_witness :
  ∃ c, token_consumers cached_monitor = inr [c] ∧
       total_billable c = 100 ∧ cache_efficiency c = PyFloat Float.lit_90.
Proof.
  destruct (token_consumers cached_monitor) as [e|consumers] eqn:Hc;
    [vm_compute in Hc; discriminate|].
  destruct (billable_tokens_and_cache_efficiency cached_monitor consumers Hc)
    as [_ Htools].
  destruct (Htools (KStr "Read") (TokenStats 40 20 0 900) eq_refl)
    as (c & Hin & Hname & Hbill & _ & Hninety).
  exists c. vm_compute in Hc. injection Hc as <-.
  apply list_elem_of_singleton in Hin. rewrite <- Hin.
  split; [reflexivity|]. split; [exact Hbill|].
  apply Hninety; [exact Hbill | reflexivity].
Defined.

(** ** Further properties of the pass *)

Lemma sessions_analyzed_items u session items st :
  sessions_analyzed (items_effect u session items st) = sessions_analyzed st.
Proof.
  unfold items_effect. revert st.
  induction items as [|item items IH]; intros st; simpl; [done|].
  rewrite IH. unfold item_effect.
  destruct (tool_of item); [|done]. by destruct (agent_of item).
Qed.

(** A retained entry records its session id whether or not it holds a
    tool call, and records nothing when it has none. *)
Lemma session_recorded fromisoformat entry st st' :
  retained fromisoformat entry st →
  process_entry fromisoformat entry st = (st', inr tt) →
  sessions_analyzed st' =
    match session_key (session_of entry) with
    | Some s => {[s]} ∪ sessions_analyzed st
    | None => sessions_analyzed st
    end.
Proof.
  intros Hr [_ ->]%process_entry_effect; [|done].
  unfold entry_effect. rewrite sessions_analyzed_items.
  by destruct (session_key (session_of entry)).
Qed.

Lemma session_recorded_witness :
  ∃ st',
    process_entry sample_fromisoformat recent_entry sample_monitor = (st', inr tt) ∧
    sessions_analyzed st' = {[KStr "session-1"]} ∪ sessions_analyzed sample_monitor.
Proof.
  eexists. split; [reflexivity|].
  apply (session_recorded sample_fromisoformat recent_entry sample_monitor);
    reflexivity.
Defined.

(** Agent attribution: the invocation count of every agent grows by the
    number of "Task" blocks that name it (by [subagent_type], or by
    [agent] when that is falsy), and a "Task" block that names none
    counts for no agent. *)
Lemma agent_invocations_match_blocks fromisoformat entry st st' a :
  retained fromisoformat entry st →
  process_entry fromisoformat entry st = (st', inr tt) →
  invocations st' a
  = invocations st a + count_agents a (content_of (message_of entry)).
Proof.
  intros Hr [Hwf ->]%process_entry_effect; [|done]. by apply invocations_entry.
Qed.

Lemma agent_invocations_match_blocks_witness :
  ∃ st',
    process_entry sample_fromisoformat recent_entry sample_monitor = (st', inr tt) ∧
    invocations st' (KStr "reviewer") = 1 ∧
    invocations st' (KStr "planner") = 0.
Proof.
  eexists. split; [reflexivity|]. split.
  - rewrite (agent_invocations_match_blocks sample_fromisoformat recent_entry
               sample_monitor _ (KStr "reviewer") eq_refl eq_refl).
    reflexivity.
  - rewrite (agent_invocations_match_blocks sample_fromisoformat recent_entry
               sample_monitor _ (KStr "planner") eq_refl eq_refl).
    reflexivity.
Defined.

Lemma agent_of_subagent_type block input A :
  Py.dict_get block "type" = Some (JStr "tool_use") →
  Py.dict_get block "name" = Some (JStr "Task") →
  Py.dict_get block "input" = Some (JObj input) →
  Py.dict_get input "subagent_type" = Some (JStr A) →
  A ≠ "" →
  agent_of (JObj block) = Some (KStr A).
Proof.
  intros Htype Hname Hinput Hsub HA. unfold agent_of, subagent_of.
  rewrite Htype, Hname, Hinput. simpl. rewrite Hsub. simpl.
  assert (Hne : (A =? "")%string = false) by by apply String.eqb_neq.
  rewrite Hne. simpl. by rewrite Hne.
Qed.

Lemma agent_of_unnamed block input :
  Py.dict_get block "input" = Some (JObj input) →
  Py.dict_get input "subagent_type" = None →
  Py.dict_get input "agent" = None →
  agent_of (JObj block) = None.
Proof.
  intros Hinput Hsub Hagent. unfold agent_of.
  destruct (_ && _); [|done]. rewrite Hinput. simpl.
  unfold subagent_of. by rewrite Hsub, Hagent.
Qed.

Lemma tool_tokens_grow_per_block_witness :
  ∃ st',
    process_entry sample_fromisoformat recent_entry sample_monitor = (st', inr tt) ∧
    tool_tokens st' (KStr "Read") OutputTokens = 14.
Proof.
  eexists. split; [reflexivity|].
  rewrite (tool_tokens_grow_per_block sample_fromisoformat recent_entry sample_monitor
             _ "Read" OutputTokens eq_refl eq_refl) by done.
  reflexivity.
Defined.

Lemma naive_timestamp_raises_witness :
  process_entry sample_fromisoformat naive_entry sample_monitor
  = (sample_monitor, inl TypeError) ∧
  parse_session_file sample_fromisoformat sample_json_loads
    (Some ["naive"; "recent"]) sample_monitor
  = (sample_monitor, true).
Proof.
  assert (Hraise :
    process_entry sample_fromisoformat naive_entry sample_monitor
    = (sample_monitor, inl TypeError)).
  { by apply (naive_timestamp_raises sample_fromisoformat _ "2026-01-10T12:00:00"). }
  split; [exact Hraise|].
  by apply (raising_entry_abandons_file sample_fromisoformat sample_json_loads
              "naive" ["recent"] naive_entry TypeError).
Defined.

Lemma malformed_line_skipped_witness :
  parse_lines sample_fromisoformat sample_json_loads ["{not json"; "recent"]
    sample_monitor
  = parse_lines sample_fromisoformat sample_json_loads ["recent"] sample_monitor.
Proof.
  apply (malformed_line_skipped sample_fromisoformat sample_json_loads).
  by left.
Defined.

(** A file with one valid line and one line that is not JSON yields the
    aggregates of the valid line, and nothing is reported. *)
Example malformed_line_resilience :
  parse_session_file sample_fromisoformat sample_json_loads
    (Some ["recent"; "{not json"]) sample_monitor
  = ((process_entry sample_fromisoformat recent_entry sample_monitor).1, false).
Proof. reflexivity. Qed.

(** A missing directory leaves the monitor as it was; a directory
    without files sets the file count to 0 and nothing else. *)
Lemma no_files_no_counts fromisoformat json_loads days cutoff :
  analyze_all_sessions fromisoformat json_loads None (init days cutoff)
  = init days cutoff ∧
  analyze_all_sessions fromisoformat json_loads (Some []) (init days cutoff)
  = init days cutoff.
Proof. by split. Qed.

Example broken_task_counted_without_tokens :
  let r := process_entry sample_fromisoformat broken_task_entry sample_monitor in
  r.2 = inl AttributeError ∧
  map_to_list (tool_usage r.1) = [(KStr "Task", 1)] ∧
  map_to_list (tool_token_usage r.1) = [] ∧
  count_named "Read" (content_of (message_of broken_task_entry)) = 1.
Proof. vm_compute. done. Qed.

Example negative_counter_decreases_total :
  counters_nonneg refund_entry = false ∧
  tool_tokens (process_entry sample_fromisoformat refund_entry sample_monitor).1
    (KStr "Read") InputTokens = -5.
Proof. by vm_compute. Qed.

(** The average of an agent invoked 3 times with 9 input tokens is 3, the
    remainder of a division is discarded, and a zero count gives 0. *)
Example average_floor :
  average 9 3 = 3 ∧ average 10 3 = 3 ∧ average 10 0 = 0.
Proof. by vm_compute. Qed.

(** The literals of the report are the binary64 values of the numbers
    they denote. *)
Example float_literals :
  Float.of_int 100 = inr Float.lit_100 ∧ Float.of_int 3 = inr Float.lit_3 ∧
  Float.of_int 15 = inr Float.lit_15 ∧ Float.of_int 90 = inr Float.lit_90 ∧
  Float.truediv 3 10 = inr Float.lit_0_30.
Proof. by vm_compute. Qed.

(** * Further properties of the code *)

(** ** The stable descending sort of the reports *)

Lemma insert_desc_perm {A : Type} (key : A → Z) x (l : list A) :
  insert_desc key x l ≡ₚ x :: l.
Proof.
  induction l as [|y l IH]; simpl; [done|].
  destruct (key y <=? key x); [done|]. rewrite IH. apply perm_swap.
Qed.

Lemma sort_desc_perm {A : Type} (key : A → Z) (l : list A) :
  sort_desc key l ≡ₚ l.
Proof.
  unfold sort_desc. induction l as [|x l IH]; simpl; [done|].
  by rewrite insert_desc_perm, IH.
Qed.

Lemma insert_desc_descending {A : Type} (key : A → Z) x (l : list A) :
  descending key l → descending key (insert_desc key x l).
Proof.
  induction l as [|y l IH]; simpl; [intros _; split; [|done]|].
  - intros z Hz. by apply elem_of_nil in Hz.
  - intros [Hy Hl]. destruct (Z.leb_spec (key y) (key x)) as [Hle|Hgt]; simpl.
    + split; [|done]. intros z [->|Hz]%elem_of_cons; [done|].
      specialize (Hy z Hz). lia.
    + split; [|by apply IH]. intros z Hz.
      rewrite insert_desc_perm in Hz. apply elem_of_cons in Hz as [->|Hz]; [lia|].
      by apply Hy.
Qed.

Lemma insert_desc_stable {A : Type} (key : A → Z) x (l : list A) v :
  filter (λ y, key y = v) (insert_desc key x l)
  = filter (λ y, key y = v) (x :: l).
Proof.
  induction l as [|y l IH]; simpl; [done|].
  destruct (Z.leb_spec (key y) (key x)) as [Hle|Hgt]; [done|].
  rewrite (filter_cons _ y), IH, !filter_cons.
  repeat case_decide; try done; lia.
Qed.

(** Python's [sorted(..., reverse=True)] as the reports use it: the
    result holds the same items, no item comes after one with a smaller
    key, and items with equal keys keep the order they had. *)
Theorem sort_desc_stable_descending {A : Type} (key : A → Z) (l : list A) :
  sort_desc key l ≡ₚ l ∧
  descending key (sort_desc key l) ∧
  ∀ v, filter (λ x, key x = v) (sort_desc key l) = filter (λ x, key x = v) l.
Proof.
  split; [apply sort_desc_perm|]. split.
  - unfold sort_desc. induction l as [|x l IH]; simpl; [done|].
    by apply insert_desc_descending.
  - intros v. unfold sort_desc. induction l as [|x l IH]; simpl; [done|].
    rewrite insert_desc_stable, !filter_cons. by rewrite IH.
Qed.

Lemma sort_by_billable_sort_desc l :
  sort_by_billable l = sort_desc total_billable l.
Proof.
  unfold sort_by_billable, sort_desc.
  assert (Hins : ∀ x k, insert_by_billable x k = insert_desc total_billable x k).
  { intros x k. induction k as [|y k IH]; simpl; [done|]. by rewrite IH. }
  induction l as [|x l IH]; simpl; [done|]. by rewrite IH, Hins.
Qed.

Lemma descending_take_drop {A : Type} (key : A → Z) (l : list A) n x y :
  descending key l → x ∈ take n l → y ∈ drop n l → key y ≤ key x.
Proof.
  revert n. induction l as [|z l IH]; intros n Hdesc Hx Hy.
  - rewrite take_nil in Hx. by apply elem_of_nil in Hx.
  - destruct n as [|n]; [by apply elem_of_nil in Hx|].
    destruct Hdesc as [Hz Hl]. simpl in Hx, Hy.
    apply elem_of_cons in Hx as [->|Hx].
    + apply Hz. by apply (subseteq_drop n l).
    + by apply (IH n).
Qed.

Lemma descending_take {A : Type} (key : A → Z) (l : list A) n :
  descending key l → descending key (take n l).
Proof.
  revert n. induction l as [|z l IH]; intros n Hdesc; [by rewrite take_nil|].
  destruct n as [|n]; [done|]. destruct Hdesc as [Hz Hl]. simpl.
  split; [|by apply IH]. intros y Hy. apply Hz. by apply (subseteq_take n l).
Qed.

(** ** The rankings of the text report *)

Lemma try_map_back {A B : Type} (f : A → fault + B) (g : B → A) l l' :
  (∀ x y, f x = inr y → g y = x) →
  try_map f l = inr l' → g <$> l' = l.
Proof.
  intros Hfg. revert l'. induction l as [|x l IH]; intros l'; simpl.
  - by intros [= <-].
  - destruct (f x) as [|y] eqn:Hx; [done|]. simpl.
    destruct (try_map f l) as [|ys]; [done|]. simpl. intros [= <-].
    rewrite fmap_cons. by rewrite (Hfg x y Hx), (IH ys).
Qed.

Lemma token_consumers_descending st consumers :
  token_consumers st = inr consumers → descending total_billable consumers.
Proof.
  unfold token_consumers.
  destruct (try_map (agent_consumer st) _) as [|agents]; [done|]. simpl.
  destruct (try_map (tool_consumer st) _) as [|tools]; [done|]. simpl.
  intros [= <-]. rewrite sort_by_billable_sort_desc.
  apply sort_desc_stable_descending.
Qed.

(** "Top 10 Token Consumers": the report lists the first ten consumers
    of the sorted list (all of them when there are fewer), in descending
    order of billable tokens, and no consumer it leaves out has more
    billable tokens than one it lists. *)
Theorem top_consumers_are_the_largest (st st' : monitor) (figs : figures) :
  generate_text_report st = (st', inr figs) →
  ∃ others,
    token_consumers st' = inr (top_consumers figs ++ others)%list ∧
    (length (top_consumers figs) ≤ 10)%nat ∧
    (others ≠ [] → length (top_consumers figs) = 10%nat) ∧
    descending total_billable (top_consumers figs) ∧
    ∀ x y, x ∈ top_consumers figs → y ∈ others →
           total_billable y ≤ total_billable x.
Proof.
  unfold generate_text_report. intros [= <- Hfigs].
  destruct (token_consumers (touch_tool_tokens st)) as [|consumers] eqn:Hc; [done|].
  simpl in Hfigs.
  destruct (overall_efficiency consumers) as [|eff]; [done|]. simpl in Hfigs.
  destruct (estimated_cost (touch_tool_tokens st) consumers) as [|c]; [done|].
  simpl in Hfigs. injection Hfigs as <-. simpl.
  pose proof (token_consumers_descending _ _ Hc) as Hdesc.
  exists (drop 10 consumers). rewrite take_drop. split; [done|].
  split; [rewrite length_take; lia|]. split; [|split].
  - intros Hrest. rewrite length_take.
    destruct (decide (length consumers ≤ 10)%nat) as [Hle|Hgt]; [|lia].
    by rewrite drop_ge in Hrest.
  - by apply descending_take.
  - intros x y. by apply descending_take_drop.
Qed.

(** "TOP 5 TOOLS": at most five tools are listed, each with its call
    count, in descending order of calls, and every counted tool is
    listed or has no more calls than each listed tool. *)
Theorem top_tools_are_the_most_called (st : monitor) (tops : list (key * Z * pynum)) :
  top_tools st = inr tops →
  (length tops ≤ 5)%nat ∧
  descending (λ t : key * Z * pynum, t.1.2) tops ∧
  (∀ t, t ∈ tops → tool_usage st !! t.1.1 = Some t.1.2) ∧
  (∀ k n, tool_usage st !! k = Some n →
     (∃ pct, (k, n, pct) ∈ tops) ∨ ∀ t, t ∈ tops → n ≤ t.1.2).
Proof.
  unfold top_tools. intros Htops.
  set (sorted := sort_desc snd (map_to_list (tool_usage st))) in *.
  assert (Hback : fst <$> tops = take 5 sorted).
  { apply (try_map_back _ fst _ _) in Htops; [done|].
    intros [k n] y. destruct (percent _ _); [done|]. simpl. by intros [= <-]. }
  destruct (sort_desc_stable_descending snd (map_to_list (tool_usage st)))
    as (Hperm & Hdesc & _). fold sorted in Hperm, Hdesc.
  assert (Hitem : ∀ t, t ∈ tops → t.1 ∈ take 5 sorted).
  { intros t Ht. rewrite <- Hback. by apply list_elem_of_fmap_2. }
  split; [|split; [|split]].
  - rewrite <- (length_fmap fst), Hback, length_take. lia.
  - assert (Hd : descending snd (fst <$> tops))
      by (rewrite Hback; by apply descending_take).
    clear -Hd. induction tops as [|t tops IH]; [done|]. destruct Hd as [Ht Hd].
    split; [|by apply IH]. intros y Hy. apply (Ht y.1). by apply list_elem_of_fmap_2.
  - intros t Ht. apply elem_of_map_to_list'. rewrite <- Hperm.
    by apply (subseteq_take 5 sorted), Hitem.
  - intros k n Hk. apply elem_of_map_to_list in Hk. rewrite <- Hperm in Hk.
    rewrite <- (take_drop 5 sorted) in Hk. apply elem_of_app in Hk as [Hin|Hout].
    + left. rewrite <- Hback in Hin.
      apply list_elem_of_fmap in Hin as ([[k' n'] pct] & [= -> ->] & Hin).
      by exists pct.
    + right. intros t Ht.
      apply (descending_take_drop snd sorted 5 t.1 (k, n)); [done | | done].
      by apply Hitem.
Qed.

(** ** The totals of the text report *)

Lemma total_billable_all_spec st consumers :
  token_consumers st = inr consumers →
  total_billable_all consumers
  = grand_total InputTokens st + 3 * grand_total OutputTokens st
    + grand_total CacheCreation st.
Proof.
  intros (agents & tools & Hagents & Htools & Hperm)%token_consumers_inv.
  assert (Ha : sum_list total_billable agents
               = sum_list (λ item : key * agent_stats,
                             billable_tokens (total_input_tokens item.2)
                               (total_output_tokens item.2)
                               (total_cache_creation_tokens item.2))
                   (map_to_list (agent_usage st))).
  { apply (try_map_sum (agent_consumer st)); [|done].
    intros [a r] c Hc.
    by destruct (agent_consumer_spec st a r c Hc) as (_ & -> & _). }
  assert (Ht : sum_list total_billable tools
               = sum_list (λ item : key * token_stats,
                             billable_tokens (input_tokens item.2)
                               (output_tokens item.2)
                               (cache_creation_tokens item.2))
                   (map_to_list (tool_token_usage st))).
  { apply (try_map_sum (tool_consumer st)); [|done].
    intros [t r] c Hc.
    by destruct (tool_consumer_spec st t r c Hc) as (_ & -> & _). }
  unfold total_billable_all, grand_total.
  rewrite Hperm, sum_list_app, Ha, Ht, !sum_values_to_list.
  unfold billable_tokens. simpl.
  generalize (map_to_list (agent_usage st)) (map_to_list (tool_token_usage st)).
  intros la lt.
  assert (Hl : ∀ {V : Type} (f g h : V → Z) (l : list (key * V)),
    sum_list (λ item, f item.2 + 3 * g item.2 + h item.2) l
    = sum_list (λ item, f item.2) l + 3 * sum_list (λ item, g item.2) l
      + sum_list (λ item, h item.2) l).
  { intros V f g h l. induction l as [|x l IH]; simpl; lia. }
  rewrite !Hl. lia.
Qed.

(** "Overall Statistics" agree with the cost breakdown: the total of
    billable tokens is the total input, plus three times the total
    output, plus the total cache creation, each summed over all tool
    records and all agent records; the total of cache reads is summed
    the same way. *)
Theorem overall_totals_match_records (st st' : monitor) (figs : figures) :
  generate_text_report st = (st', inr figs) →
  billable_all figs
  = grand_total InputTokens st + 3 * grand_total OutputTokens st
    + grand_total CacheCreation st ∧
  cache_read_all figs = grand_total CacheRead st.
Proof.
  unfold generate_text_report. intros [= <- Hfigs].
  destruct (token_consumers (touch_tool_tokens st)) as [|consumers] eqn:Hc; [done|].
  simpl in Hfigs.
  destruct (overall_efficiency consumers) as [|eff]; [done|]. simpl in Hfigs.
  destruct (estimated_cost (touch_tool_tokens st) consumers) as [|c]; [done|].
  simpl in Hfigs. injection Hfigs as <-. simpl.
  rewrite (total_billable_all_spec _ _ Hc), (total_cache_read_all_spec _ _ Hc).
  by rewrite !grand_total_touch.
Qed.

Lemma overall_totals_match_records_witness :
  ∃ st' figs,
    generate_text_report cached_monitor = (st', inr figs) ∧
    billable_all figs = 100 ∧ cache_read_all figs = 900.
Proof.
  destruct (generate_text_report cached_monitor) as [st' [e|figs]] eqn:Hreport;
    [vm_compute in Hreport; discriminate|].
  exists st', figs. split; [reflexivity|].
  destruct (overall_totals_match_records cached_monitor st' figs Hreport)
    as [-> ->].
  split; reflexivity.
Defined.

Lemma top_consumers_are_the_largest_witness :
  ∃ st' figs,
    generate_text_report cached_monitor = (st', inr figs) ∧
    (length (top_consumers figs) ≤ 10)%nat.
Proof.
  destruct (generate_text_report cached_monitor) as [st' [e|figs]] eqn:Hreport;
    [vm_compute in Hreport; discriminate|].
  exists st', figs. split; [reflexivity|].
  by destruct (top_consumers_are_the_largest cached_monitor st' figs Hreport)
    as (others & _ & Hlen & _).
Defined.

Lemma top_tools_are_the_most_called_witness :
  ∃ tops,
    top_tools cached_monitor = inr tops ∧
    ∀ t, t ∈ tops → tool_usage cached_monitor !! t.1.1 = Some t.1.2.
Proof.
  destruct (top_tools cached_monitor) as [e|tops] eqn:Htops;
    [vm_compute in Htops; discriminate|].
  exists tops. split; [reflexivity|].
  by destruct (top_tools_are_the_most_called cached_monitor tops Htops)
    as (_ & _ & Hin & _).
Defined.

(** ** What the text report does to the monitor *)

Lemma touch_tool_tokens_lookup st k :
  tool_token_usage (touch_tool_tokens st) !! k =
    match tool_token_usage st !! k, tool_usage st !! k with
    | Some r, _ => Some r
    | None, Some _ => Some new_token_stats
    | None, None => None
    end.
Proof.
  unfold touch_tool_tokens. simpl. revert k.
  apply (map_fold_weak_ind
    (λ acc (m : gmap key Z), ∀ k,
       acc !! k = match tool_token_usage st !! k, m !! k with
                  | Some r, _ => Some r
                  | None, Some _ => Some new_token_stats
                  | None, None => None
                  end)).
  - intros k. rewrite lookup_empty. by destruct (tool_token_usage st !! k).
  - intros i n m acc Hi IH k. rewrite lookup_upd. case_decide as Hik.
    + subst i. rewrite IH, Hi, lookup_insert_eq.
      by destruct (tool_token_usage st !! k).
    + rewrite IH. by rewrite lookup_insert_ne.
Qed.

Lemma monitor_eq (st1 st2 : monitor) :
  days st1 = days st2 → cutoff_date st1 = cutoff_date st2 →
  tool_usage st1 = tool_usage st2 → agent_usage st1 = agent_usage st2 →
  tool_token_usage st1 = tool_token_usage st2 →
  sessions_analyzed st1 = sessions_analyzed st2 →
  total_sessions st1 = total_sessions st2 →
  st1 = st2.
Proof. destruct st1, st2. simpl. by intros -> -> -> -> -> -> ->. Qed.

(** [generate_text_report] is not read-only: the monitor it leaves
    holds a zero token record for every counted tool that had none.
    Nothing else changes (call counts, agents, sessions, every token
    total a report reads), and a second text report changes nothing
    more; but the JSON report made afterwards lists those records. *)
Theorem text_report_creates_token_records (st : monitor) :
  let st' := (generate_text_report st).1 in
  tool_usage st' = tool_usage st ∧ agent_usage st' = agent_usage st ∧
  sessions_analyzed st' = sessions_analyzed st ∧
  (∀ k, tool_record st' k = tool_record st k) ∧
  dom (tool_token_usage st') = dom (tool_token_usage st) ∪ dom (tool_usage st) ∧
  (generate_text_report st').1 = st' ∧
  dom (json_tool_token_usage (generate_json_report st'))
  = dom (json_tool_token_usage (generate_json_report st))
    ∪ dom (json_tool_usage (generate_json_report st)).
Proof.
  simpl.
  assert (Hdom : dom (tool_token_usage (touch_tool_tokens st))
                 = dom (tool_token_usage st) ∪ dom (tool_usage st)).
  { apply set_eq. intros k. rewrite elem_of_union, !elem_of_dom.
    rewrite touch_tool_tokens_lookup.
    destruct (tool_token_usage st !! k) as [r|].
    - split; [intros _; left; by exists r | by exists r].
    - destruct (tool_usage st !! k) as [n|].
      + split; [right; by exists n | by exists new_token_stats].
      + split; [by intros [? ?] | intros [[? ?]|[? ?]]; done]. }
  split; [done|]. split; [done|]. split; [done|]. split; [|split; [|split]].
  - intros k. unfold tool_record. rewrite touch_tool_tokens_lookup.
    destruct (tool_token_usage st !! k); [done|].
    by destruct (tool_usage st !! k).
  - done.
  - apply monitor_eq; try done. apply map_eq. intros k.
    rewrite (touch_tool_tokens_lookup (touch_tool_tokens st)).
    rewrite touch_tool_tokens_lookup. simpl.
    destruct (tool_token_usage st !! k); [done|].
    by destruct (tool_usage st !! k).
  - done.
Qed.

(** ** Divisions of the text report *)

Lemma truediv_nonzero a b : b ≠ 0 → Float.truediv a b ≠ inl ZeroDivisionError.
Proof.
  intros Hb. unfold Float.truediv. destruct (Z.eqb_spec b 0) as [->|_]; [done|].
  destruct (a =? 0); [done|].
  destruct (SFdiv_core_binary _ _ _ _ _ _) as [[q e] l].
  by destruct (binary_round_aux _ _ _ _ _ _).
Qed.

Lemma efficiency_no_zero_division cache_read total :
  efficiency cache_read total ≠ inl ZeroDivisionError.
Proof.
  unfold efficiency. destruct (Z.gtb_spec total 0) as [Hpos|_]; [|done].
  pose proof (truediv_nonzero cache_read total) as Hdiv.
  destruct (Float.truediv cache_read total) as [[]|q]; simpl; try done.
  by destruct Hdiv; [lia|].
Qed.

Lemma percent_no_zero_division count total :
  percent count total ≠ inl ZeroDivisionError.
Proof. apply efficiency_no_zero_division. Qed.

Lemma try_map_fault {A B : Type} (f : A → fault + B) (l : list A) e :
  try_map f l = inl e → ∃ x, x ∈ l ∧ f x = inl e.
Proof.
  induction l as [|x l IH]; simpl; [done|].
  destruct (f x) as [e'|y] eqn:Hx; simpl.
  - intros [= ->]. exists x. split; [by left | done].
  - destruct (try_map f l) as [e'|ys]; [|done]. simpl. intros [= ->].
    destruct (IH eq_refl) as (x' & Hin & Hx'). exists x'. split; [by right|done].
Qed.

Lemma component_cost_no_zero_division total rate :
  component_cost total rate ≠ inl ZeroDivisionError.
Proof.
  unfold component_cost. pose proof (truediv_nonzero total 1000000) as Hdiv.
  destruct (Float.truediv total 1000000) as [[]|q]; simpl; try done.
  by destruct Hdiv.
Qed.

(** The guards of the report's divisions hold: whatever the monitor
    (no tool, no call, totals of zero, negative totals), neither the
    token analysis nor the top-5 percentages raise
    [ZeroDivisionError]. *)
Theorem text_report_never_divides_by_zero (st : monitor) :
  (generate_text_report st).2 ≠ inl ZeroDivisionError ∧
  top_tools st ≠ inl ZeroDivisionError.
Proof.
  split.
  - unfold generate_text_report. simpl. set (st' := touch_tool_tokens st).
    destruct (token_consumers st') as [e|consumers] eqn:Hc; simpl.
    + intros [= ->]. unfold token_consumers in Hc.
      destruct (try_map (agent_consumer st') _) as [e|agents] eqn:Ha; simpl in Hc.
      * injection Hc as ->. apply try_map_fault in Ha as ([a r] & _ & Hx).
        unfold agent_consumer in Hx.
        pose proof (efficiency_no_zero_division (total_cache_read_tokens r)
          (total_input_tokens r + total_output_tokens r * 3
           + total_cache_creation_tokens r + total_cache_read_tokens r)) as He.
        by destruct (efficiency _ _) as [[]|].
      * destruct (try_map (tool_consumer st') _) as [e|tools] eqn:Ht; [|done].
        simpl in Hc. injection Hc as ->.
        apply try_map_fault in Ht as ([t r] & _ & Hx).
        unfold tool_consumer in Hx.
        pose proof (efficiency_no_zero_division (cache_read_tokens r)
          (input_tokens r + output_tokens r * 3
           + cache_creation_tokens r + cache_read_tokens r)) as He.
        by destruct (efficiency _ _) as [[]|].
    + pose proof (efficiency_no_zero_division (total_cache_read_all consumers)
        (total_billable_all consumers + total_cache_read_all consumers)) as He.
      unfold overall_efficiency.
      destruct (efficiency _ _) as [[]|eff]; simpl; try done.
      unfold estimated_cost.
      pose proof (component_cost_no_zero_division (total_input st') Float.lit_3).
      destruct (component_cost (total_input st') _) as [[]|c1]; simpl; try done.
      pose proof (component_cost_no_zero_division (total_output st') Float.lit_15).
      destruct (component_cost (total_output st') _) as [[]|c2]; simpl; try done.
      pose proof (component_cost_no_zero_division (total_cache_create st') Float.lit_3).
      destruct (component_cost (total_cache_create st') _) as [[]|c3]; simpl;
        try done.
      pose proof (component_cost_no_zero_division (total_cache_read_all consumers)
                    Float.lit_0_30).
      by destruct (component_cost (total_cache_read_all consumers) _) as [[]|c4].
  - unfold top_tools. intros Hx. apply try_map_fault in Hx as ([k n] & _ & Hx).
    simpl in Hx.
    pose proof (percent_no_zero_division n (sum_values id (tool_usage st))) as Hp.
    by destruct (percent _ _) as [[]|].
Qed.

(** ** A "Task" call whose input is no dict *)

(** A "Task" block whose [input] is present and is no dict (a string, a
    number, [null], a list): the call is counted, then
    [tool_input.get] raises [AttributeError]. No agent and no token is
    recorded for the block, and the blocks after it are not looked at. *)
Theorem task_with_non_dict_input message session_id block input rest st :
  Py.dict_get block "type" = Some (JStr "tool_use") →
  Py.dict_get block "name" = Some (JStr "Task") →
  Py.dict_get block "input" = Some input →
  (∀ fields, input ≠ JObj fields) →
  for_each (process_item message session_id) (JObj block :: rest) st
  = (set_tool_usage (upd 0 (KStr "Task") (Z.add 1)) st, inl AttributeError).
Proof.
  intros Htype Hname Hinput Hdict. simpl. unfold bind at 1.
  unfold process_item. rewrite Htype, Hname, Hinput. simpl.
  destruct input as [|b|z|s|l|o]; try done. by destruct (Hdict o).
Qed.

Lemma task_with_non_dict_input_witness :
  (process_entry sample_fromisoformat broken_task_entry sample_monitor).2
  = inl AttributeError ∧
  call_count
    (process_entry sample_fromisoformat broken_task_entry sample_monitor).1
    (KStr "Read") = 0.
Proof.
  pose proof (task_with_non_dict_input
    (message_of broken_task_entry) JNull
    [("type", JStr "tool_use"); ("name", JStr "Task"); ("input", JStr "review")]
    (JStr "review") [tool_use "Read" [("file_path", JStr "a.py")]] sample_monitor
    eq_refl eq_refl eq_refl) as Hrun.
  assert (Hentry :
    process_entry sample_fromisoformat broken_task_entry sample_monitor
    = for_each (process_item (message_of broken_task_entry) JNull)
        (content_of (message_of broken_task_entry)) sample_monitor)
    by reflexivity.
  rewrite Hentry. simpl content_of. rewrite Hrun by done.
  split; reflexivity.
Defined.

(** ** A run as a sequence of calls of [process_entry] *)

Lemma process_all_app fromisoformat l1 l2 st :
  process_all fromisoformat (l1 ++ l2) st
  = process_all fromisoformat l2 (process_all fromisoformat l1 st).
Proof. unfold process_all. by rewrite foldl_app. Qed.

Lemma all_return_app fromisoformat l1 l2 st :
  all_return fromisoformat (l1 ++ l2) st ↔
  all_return fromisoformat l1 st ∧
  all_return fromisoformat l2 (process_all fromisoformat l1 st).
Proof.
  revert st. induction l1 as [|entry l1 IH]; intros st; simpl; [tauto|].
  rewrite IH. unfold process_all. simpl. tauto.
Qed.

Section Run.
Variable fromisoformat : string → option datetime.
Variable json_loads : string → loaded.

(** The lines of a file are processed in order, up to the first entry
    that raises (included). *)
Lemma parse_lines_prefix lines st :
  ∃ entries,
    entries `prefix_of` entries_of json_loads lines ∧
    (parse_lines fromisoformat json_loads lines st).1
    = process_all fromisoformat entries st ∧
    ((parse_lines fromisoformat json_loads lines st).2 = inr tt →
     entries = entries_of json_loads lines).
Proof.
  revert st. induction lines as [|line rest IH]; intros st; simpl.
  - exists []. by split.
  - destruct (Py.blank line); [apply IH|].
    destruct (json_loads line) as [entry| |e];
      [|apply IH|exists []; by split]. simpl.
    unfold bind.
    destruct (process_entry fromisoformat entry st) as [st1 [e|[]]] eqn:Hentry.
    + exists [entry]. split; [by apply prefix_cons, prefix_nil|].
      split; [|done]. unfold process_all. cbn [foldl]. by rewrite Hentry.
    + destruct (IH st1) as (entries & Hpre & Hst & Hall).
      exists (entry :: entries). split; [by apply prefix_cons|].
      split.
      * rewrite Hst. unfold process_all. cbn [foldl]. by rewrite Hentry.
      * intros Hret. by rewrite Hall.
Qed.

Lemma parse_lines_all_return lines st :
  all_return fromisoformat (entries_of json_loads lines) st →
  (parse_lines fromisoformat json_loads lines st).1
  = process_all fromisoformat (entries_of json_loads lines) st.
Proof.
  revert st. induction lines as [|line rest IH]; intros st; simpl; [done|].
  destruct (Py.blank line); [apply IH|].
  destruct (json_loads line) as [entry| |e]; [|apply IH|done]. simpl.
  intros [Hret Hrest]. unfold bind.
  destruct (process_entry fromisoformat entry st) as [st1 [e|[]]] eqn:Hentry;
    [done|].
  simpl in Hrest. by rewrite (IH st1 Hrest).
Qed.

Lemma parse_session_file_entries file st :
  ∃ entries,
    entries `sublist_of` from_option (entries_of json_loads) [] file ∧
    (parse_session_file fromisoformat json_loads file st).1
    = process_all fromisoformat entries st.
Proof.
  destruct file as [lines|]; simpl; [|by exists []].
  destruct (parse_lines_prefix lines st) as (entries & [k Hpre] & Hst & _).
  exists entries. split.
  - rewrite Hpre. by apply sublist_inserts_r.
  - by destruct (parse_lines fromisoformat json_loads lines st) as [st' [e|[]]].
Qed.

Lemma analyze_files_entries files st :
  ∃ entries,
    entries `sublist_of` read_entries json_loads files ∧
    foldl (λ acc file, (parse_session_file fromisoformat json_loads file acc).1)
      st files
    = process_all fromisoformat entries st.
Proof.
  revert st. induction files as [|file files IH]; intros st; simpl.
  - by exists [].
  - destruct (parse_session_file_entries file st) as (l1 & Hsub1 & ->).
    destruct (IH (process_all fromisoformat l1 st)) as (l2 & Hsub2 & ->).
    exists (l1 ++ l2)%list. split; [|by rewrite process_all_app].
    unfold read_entries. simpl. by apply sublist_app.
Qed.

Lemma analyze_files_all_return files st :
  all_return fromisoformat (read_entries json_loads files) st →
  foldl (λ acc file, (parse_session_file fromisoformat json_loads file acc).1)
    st files
  = process_all fromisoformat (read_entries json_loads files) st.
Proof.
  revert st. induction files as [|file files IH]; intros st; [done|].
  unfold read_entries. simpl. fold (read_entries json_loads files).
  intros [H1 H2]%all_return_app. rewrite process_all_app.
  destruct file as [lines|]; simpl in *.
  - pose proof (parse_lines_all_return lines st H1) as Hlines.
    destruct (parse_lines fromisoformat json_loads lines st) as [st1 [e|[]]];
      simpl in *; subst st1; by apply IH.
  - by apply IH.
Qed.

Lemma parse_session_file_prefix file st :
  ∃ entries,
    entries `prefix_of` from_option (entries_of json_loads) [] file ∧
    (parse_session_file fromisoformat json_loads file st).1
    = process_all fromisoformat entries st.
Proof.
  destruct file as [lines|]; simpl; [|by exists []].
  destruct (parse_lines_prefix lines st) as (entries & Hpre & Hst & _).
  exists entries. split; [done|].
  by destruct (parse_lines fromisoformat json_loads lines st) as [st' [e|[]]].
Qed.

Lemma analyze_files_prefixes files st :
  ∃ parts,
    Forall2 (λ part file,
               part `prefix_of` from_option (entries_of json_loads) [] file)
            parts files ∧
    foldl (λ acc file, (parse_session_file fromisoformat json_loads file acc).1)
      st files
    = process_all fromisoformat (concat parts) st.
Proof.
  revert st. induction files as [|file files IH]; intros st; simpl.
  - exists []. by split.
  - destruct (parse_session_file_prefix file st) as (part & Hpre & ->).
    destruct (IH (process_all fromisoformat part st)) as (parts & Hparts & ->).
    exists (part :: parts). split; [by constructor|].
    simpl. by rewrite process_all_app.
Qed.

(** [analyze_all_sessions] is [process_entry] called on the entries of
    the files, in the order of the files and of their lines. The entries
    of a file are those of its lines up to the first line on which
    [json.loads] raises another exception than [json.JSONDecodeError]
    (blank lines and lines that are no JSON have none). The calls are
    made on all of them when no call raises, and otherwise on an initial
    part of the entries of each file. *)
Theorem analysis_is_process_entry_in_order
    (files : list (option (list string))) (st : monitor) :
  let st0 := set_total_sessions (Z.of_nat (length files)) st in
  (∃ parts,
     Forall2 (λ part file,
                part `prefix_of` from_option (entries_of json_loads) [] file)
             parts files ∧
     analyze_all_sessions fromisoformat json_loads (Some files) st
     = process_all fromisoformat (concat parts) st0) ∧
  (all_return fromisoformat (read_entries json_loads files) st0 →
   analyze_all_sessions fromisoformat json_loads (Some files) st
   = process_all fromisoformat (read_entries json_loads files) st0).
Proof.
  simpl. split.
  - apply analyze_files_prefixes.
  - apply analyze_files_all_return.
Qed.

End Run.

Lemma analysis_is_process_entry_in_order_witness :
  analyze_all_sessions sample_fromisoformat sample_json_loads
    (Some [Some ["recent"; ""; "{not json"; "nested"; "recent"]; None;
           Some ["undated"; "recent"]])
    sample_monitor
  = process_all sample_fromisoformat [recent_entry; undated_entry; recent_entry]
      (set_total_sessions 3 sample_monitor).
Proof.
  apply (analysis_is_process_entry_in_order sample_fromisoformat sample_json_loads
           [Some ["recent"; ""; "{not json"; "nested"; "recent"]; None;
            Some ["undated"; "recent"]]
           sample_monitor).
  vm_compute. tauto.
Defined.

(** ** Invariants of a whole run *)

Lemma sum_values_nonneg {V : Type} (h : V → Z) (m : gmap key V) :
  (∀ k v, m !! k = Some v → 0 ≤ h v) → 0 ≤ sum_values h m.
Proof.
  induction m as [|k v m Hk IH] using map_ind; intros Hm.
  - by rewrite sum_values_empty.
  - rewrite sum_values_insert, Hk. simpl.
    pose proof (Hm k v (lookup_insert_eq m k v)).
    assert (0 ≤ sum_values h m); [|lia].
    apply IH. intros k' v' Hk'. apply (Hm k').
    rewrite lookup_insert_ne; [done|]. intros ->. congruence.
Qed.

Lemma size_le_sum_values {V : Type} (h : V → Z) (m : gmap key V) :
  (∀ k v, m !! k = Some v → 1 ≤ h v) → Z.of_nat (size m) ≤ sum_values h m.
Proof.
  induction m as [|k v m Hk IH] using map_ind; intros Hm.
  - by rewrite sum_values_empty, map_size_empty.
  - rewrite sum_values_insert, Hk, map_size_insert_None by done. simpl.
    pose proof (Hm k v (lookup_insert_eq m k v)).
    assert (Z.of_nat (size m) ≤ sum_values h m); [|lia].
    apply IH. intros k' v' Hk'. apply (Hm k').
    rewrite lookup_insert_ne; [done|]. intros ->. congruence.
Qed.

Lemma lookup_le_sum_values {V : Type} (h : V → Z) (m : gmap key V) k :
  (∀ k v, m !! k = Some v → 0 ≤ h v) →
  from_option h 0 (m !! k) ≤ sum_values h m.
Proof.
  intros Hm. destruct (m !! k) as [v|] eqn:Hk; simpl;
    [|by apply sum_values_nonneg].
  rewrite <- (insert_delete_id m k v Hk), sum_values_insert, lookup_delete_eq.
  simpl.
  assert (0 ≤ sum_values h (delete k m)); [|lia].
  apply sum_values_nonneg. intros k' v'.
  rewrite lookup_delete_Some. intros [_ Hk']. by apply (Hm k').
Qed.

Section Whole.
Variable fromisoformat : string → option datetime.
Variable json_loads : string → loaded.
Variable I : monitor → Prop.
Hypothesis entry_keeps : ∀ entry, always I (process_entry fromisoformat entry) I.
Hypothesis total_keeps : ∀ n st, I st → I (set_total_sessions n st).

Lemma analyze_all_sessions_keeps dir st :
  I st → I (analyze_all_sessions fromisoformat json_loads dir st).
Proof.
  intros HI. destruct dir as [files|]; simpl; [|done].
  destruct (analyze_files_entries fromisoformat json_loads files
              (set_total_sessions (Z.of_nat (length files)) st))
    as (entries & _ & ->).
  apply process_all_keeps; [done|]. by apply total_keeps.
Qed.

End Whole.

(** The figures of "SUMMARY" (and of the [summary] object of the JSON
    report) after a run on any directory, whatever the files hold: no
    more unique tools than tool calls, no more unique agents than agent
    invocations, and no more agent invocations than calls of "Task",
    which are among the tool calls. *)
Theorem summary_figures_are_ordered
    (fromisoformat : string → option datetime)
    (json_loads : string → loaded)
    (dir : option (list (option (list string)))) (days cutoff : Z) :
  let st := analyze_all_sessions fromisoformat json_loads dir (init days cutoff) in
  let s := json_summary (generate_json_report st) in
  unique_tools_used s ≤ total_tool_calls s ∧
  unique_agents_used s ≤ total_agent_invocations s ∧
  total_agent_invocations s ≤ call_count st (KStr "Task") ∧
  call_count st (KStr "Task") ≤ total_tool_calls s.
Proof.
  simpl.
  set (st := analyze_all_sessions fromisoformat json_loads dir (init days cutoff)).
  assert (Hrec : recorded_means_counted st).
  { apply analyze_all_sessions_keeps; [| |apply init_recorded].
    - intros entry.
      apply (process_entry_keeps fromisoformat recorded_means_counted (λ _, True)).
      + intros message session_id item _. apply recorded_means_counted_item.
      + by intros f s [].
      + done.
    - by intros n s []. }
  assert (Htask : agents_within_task st).
  { apply analyze_all_sessions_keeps; [| |apply init_agents_within_task].
    - intros entry.
      apply (process_entry_keeps fromisoformat agents_within_task (λ _, True)).
      + intros message session_id item _. apply agents_within_task_item.
      + done.
      + done.
    - done. }
  destruct Hrec as [Hc _ Ha].
  split; [by apply size_le_sum_values|].
  split; [by apply size_le_sum_values|].
  split; [exact Htask|].
  unfold call_count.
  pose proof (lookup_le_sum_values id (tool_usage st) (KStr "Task")) as Hle.
  destruct (tool_usage st !! KStr "Task") as [n|] eqn:Hn; simpl in *.
  - apply Hle. intros k v Hk. specialize (Hc k v Hk). unfold id. lia.
  - apply Hle. intros k v Hk. specialize (Hc k v Hk). unfold id. lia.
Qed.

(** ** The pass reads nothing but the cutoff, and its writes commute *)

Lemma upd_comm {V : Type} (dflt : V) k k' (f g : V → V) (m : gmap key V) :
  (∀ x, f (g x) = g (f x)) →
  upd dflt k f (upd dflt k' g m) = upd dflt k' g (upd dflt k f m).
Proof.
  intros Hfg. destruct (decide (k = k')) as [->|Hk].
  - rewrite !upd_upd. unfold upd. f_equal. simpl. apply Hfg.
  - unfold upd. rewrite !lookup_insert_ne by done. by apply insert_insert_ne.
Qed.

Lemma agent_step_comm f g r :
  agent_step f → agent_step g → f (g r) = g (f r).
Proof.
  intros [| |c n|s] [| |c' n'|s']; try done;
    try (by destruct c); try (by destruct c').
  - destruct c, c'; unfold agent_add; simpl; f_equal; lia.
  - unfold agent_add_session. simpl. f_equal. set_solver.
Qed.

Lemma tool_step_comm f g t :
  tool_step f → tool_step g → f (g t) = g (f t).
Proof.
  intros [|c n] [|c' n']; try done.
  destruct c, c'; unfold tool_add; simpl; f_equal; lia.
Qed.

Lemma write_comm T1 T2 st : write T1 → write T2 → T1 (T2 st) = T2 (T1 st).
Proof.
  intros [k|a f Hf|k g Hg|s] [k'|a' f' Hf'|k' g' Hg'|s']; try done.
  - unfold set_tool_usage. simpl. f_equal. apply upd_comm. intros x. lia.
  - unfold set_agent_usage. simpl. f_equal. apply upd_comm.
    intros r. by apply agent_step_comm.
  - unfold set_tool_token_usage. simpl. f_equal. apply upd_comm.
    intros t. by apply tool_step_comm.
  - unfold set_sessions_analyzed. simpl. f_equal. set_solver.
Qed.

Lemma writes_comm T1 T2 : writes T1 → writes T2 → ∀ st, T1 (T2 st) = T2 (T1 st).
Proof.
  intros H1. revert T2. induction H1 as [|T1 H1|T1a T1b _ IHa _ IHb];
    intros T2 H2 st; [done| |].
  - induction H2 as [|T2 H2|T2a T2b _ IHa _ IHb] in st |- *; [done| |].
    + by apply write_comm.
    + cbv beta. by rewrite IHb, IHa.
  - cbv beta. by rewrite IHa, IHb.
Qed.

Lemma write_frame T st :
  write T →
  days (T st) = days st ∧ cutoff_date (T st) = cutoff_date st ∧
  total_sessions (T st) = total_sessions st ∧
  sessions_analyzed st ⊆ sessions_analyzed (T st).
Proof. intros [k|a f Hf|k g Hg|s]; simpl; set_solver. Qed.

Lemma writes_frame T st :
  writes T →
  days (T st) = days st ∧ cutoff_date (T st) = cutoff_date st ∧
  total_sessions (T st) = total_sessions st ∧
  sessions_analyzed st ⊆ sessions_analyzed (T st).
Proof.
  intros H. revert st. induction H as [|T H|T1 T2 _ IH1 _ IH2]; intros st.
  - done.
  - by apply write_frame.
  - destruct (IH1 st) as (Hd1 & Hc1 & Ht1 & Hs1).
    destruct (IH2 (T1 st)) as (Hd2 & Hc2 & Ht2 & Hs2). cbv beta.
    rewrite Hd2, Hc2, Ht2, Hd1, Hc1, Ht1. split_and!; try done. set_solver.
Qed.

Lemma uniform_ret {A : Type} (a : A) : uniform (ret a).
Proof. intros cutoff. exists (λ st, st), (inr a). split; [constructor|done]. Qed.

Lemma uniform_raise {A : Type} (e : exn) : uniform (raise (A := A) e).
Proof. intros cutoff. exists (λ st, st), (inl e). split; [constructor|done]. Qed.

Lemma uniform_lift {A : Type} (r : exn + A) : uniform (lift r).
Proof. intros cutoff. exists (λ st, st), r. split; [constructor|done]. Qed.

Lemma uniform_gets_cutoff : uniform (gets cutoff_date).
Proof.
  intros cutoff. exists (λ st, st), (inr cutoff). split; [constructor|].
  intros st <-. done.
Qed.

Lemma uniform_modify T : write T → uniform (modify T).
Proof.
  intros HT cutoff. exists T, (inr tt). split; [by constructor|done].
Qed.

Lemma uniform_bind {A B : Type} (m : M A) (k : A → M B) :
  uniform m → (∀ a, uniform (k a)) → uniform (bind m k).
Proof.
  intros Hm Hk cutoff. destruct (Hm cutoff) as (T1 & [e|a] & HT1 & Hrun1).
  - exists T1, (inl e). split; [done|]. intros st Hst. unfold bind.
    by rewrite (Hrun1 st Hst).
  - destruct (Hk a cutoff) as (T2 & r & HT2 & Hrun2).
    exists (λ st, T2 (T1 st)), r. split; [by constructor|].
    intros st Hst. unfold bind. rewrite (Hrun1 st Hst). apply Hrun2.
    destruct (writes_frame T1 st HT1) as (_ & -> & _). done.
Qed.

Ltac uniform_steps :=
  repeat (intros;
    first [ apply uniform_ret | apply uniform_raise | apply uniform_lift
          | apply uniform_gets_cutoff
          | apply uniform_modify; by repeat constructor
          | apply uniform_bind
          | match goal with
            | |- uniform (if ?b then _ else _) => destruct b
            | |- uniform (match ?x with _ => _ end) => destruct x
            end ]).

Lemma uniform_for_each {A : Type} (f : A → M unit) (l : list A) :
  (∀ x, uniform (f x)) → uniform (for_each f l).
Proof.
  intros Hf. induction l as [|x l IH]; simpl; [apply uniform_ret|].
  apply uniform_bind; [apply Hf | intros _; apply IH].
Qed.

Lemma uniform_process_item message session_id item :
  uniform (process_item message session_id item).
Proof.
  unfold process_item, track_agent_usage, track_tool_tokens, add_agent_counter,
    add_tool_counter.
  uniform_steps.
Qed.

Lemma uniform_process_entry fromisoformat entry :
  uniform (process_entry fromisoformat entry).
Proof.
  unfold process_entry, before_cutoff, process_retained.
  uniform_steps. apply uniform_for_each. intros item. apply uniform_process_item.
Qed.

Lemma uniform_parse_lines fromisoformat json_loads lines :
  uniform (parse_lines fromisoformat json_loads lines).
Proof.
  induction lines as [|line rest IH]; simpl; [apply uniform_ret|].
  destruct (Py.blank line); [done|].
  destruct (json_loads line) as [entry| |e]; [|done|apply uniform_raise].
  apply uniform_bind; [apply uniform_process_entry | by intros _].
Qed.

Lemma parse_session_file_uniform fromisoformat json_loads file cutoff :
  ∃ T failed,
    writes T ∧
    ∀ st, cutoff_date st = cutoff →
      parse_session_file fromisoformat json_loads file st = (T st, failed).
Proof.
  destruct file as [lines|]; simpl.
  - destruct (uniform_parse_lines fromisoformat json_loads lines cutoff)
      as (T & [e|[]] & HT & Hrun).
    + exists T, true. split; [done|]. intros st Hst. by rewrite (Hrun st Hst).
    + exists T, false. split; [done|]. intros st Hst. by rewrite (Hrun st Hst).
  - exists (λ st, st), true. split; [constructor|done].
Qed.

Lemma analyze_files_perm fromisoformat json_loads files files' st :
  files ≡ₚ files' →
  foldl (λ acc file, (parse_session_file fromisoformat json_loads file acc).1)
    st files
  = foldl (λ acc file, (parse_session_file fromisoformat json_loads file acc).1)
      st files'.
Proof.
  intros Hperm. revert st.
  induction Hperm as [|x l1 l2 _ IH|x y l|l1 l2 l3 _ IH1 _ IH2]; intros st.
  - done.
  - simpl. apply IH.
  - simpl. f_equal.
    destruct (parse_session_file_uniform fromisoformat json_loads x (cutoff_date st))
      as (Tx & rx & HTx & Hx).
    destruct (parse_session_file_uniform fromisoformat json_loads y (cutoff_date st))
      as (Ty & ry & HTy & Hy).
    destruct (writes_frame Tx st HTx) as (_ & Hcx & _).
    destruct (writes_frame Ty st HTy) as (_ & Hcy & _).
    rewrite (Hy st eq_refl), (Hx st eq_refl). simpl.
    rewrite (Hx (Ty st) Hcy), (Hy (Tx st) Hcx). simpl.
    by apply writes_comm.
  - by rewrite IH1.
Qed.

Lemma process_all_perm fromisoformat entries entries' st :
  entries ≡ₚ entries' →
  process_all fromisoformat entries st = process_all fromisoformat entries' st.
Proof.
  intros Hperm. unfold process_all. revert st.
  induction Hperm as [|x l1 l2 _ IH|x y l|l1 l2 l3 _ IH1 _ IH2]; intros st.
  - done.
  - simpl. apply IH.
  - simpl. f_equal.
    destruct (uniform_process_entry fromisoformat x (cutoff_date st))
      as (Tx & rx & HTx & Hx).
    destruct (uniform_process_entry fromisoformat y (cutoff_date st))
      as (Ty & ry & HTy & Hy).
    destruct (writes_frame Tx st HTx) as (_ & Hcx & _).
    destruct (writes_frame Ty st HTy) as (_ & Hcy & _).
    rewrite (Hy st eq_refl), (Hx st eq_refl). simpl.
    rewrite (Hx (Ty st) Hcy), (Hy (Tx st) Hcx). simpl.
    by apply writes_comm.
  - by rewrite IH1.
Qed.

(** The order in which the directory lists its files does not matter:
    two listings of the same files leave the same monitor, also when
    some files cannot be opened or are abandoned on an exception. Nor
    does the order of the calls of [process_entry]: the same entries in
    another order leave the same monitor, whether or not calls raise. *)
Theorem file_order_is_irrelevant
    (fromisoformat : string → option datetime)
    (json_loads : string → loaded) (st : monitor) :
  (∀ files files',
     files ≡ₚ files' →
     analyze_all_sessions fromisoformat json_loads (Some files) st
     = analyze_all_sessions fromisoformat json_loads (Some files') st) ∧
  (∀ entries entries',
     entries ≡ₚ entries' →
     process_all fromisoformat entries st
     = process_all fromisoformat entries' st).
Proof.
  split.
  - intros files files' Hperm. simpl. rewrite <- (Permutation_length Hperm).
    by apply analyze_files_perm.
  - intros entries entries'. apply process_all_perm.
Qed.

Lemma file_order_is_irrelevant_witness :
  analyze_all_sessions sample_fromisoformat sample_json_loads
    (Some [Some ["naive"; "recent"]; Some ["recent"]; None]) sample_monitor
  = analyze_all_sessions sample_fromisoformat sample_json_loads
      (Some [Some ["recent"]; Some ["naive"; "recent"]; None]) sample_monitor ∧
  process_all sample_fromisoformat [naive_entry; recent_entry] sample_monitor
  = process_all sample_fromisoformat [recent_entry; naive_entry] sample_monitor.
Proof.
  destruct (file_order_is_irrelevant sample_fromisoformat sample_json_loads
              sample_monitor) as [Hfiles Hentries].
  split; [apply Hfiles | apply Hentries]; apply perm_swap.
Defined.

(** Whether a call raises, and whether a file is reported as failing,
    depends on the entry (the file) and on the cutoff only: never on
    what was aggregated before. *)
Theorem outcome_independent_of_aggregates
    (fromisoformat : string → option datetime)
    (json_loads : string → loaded) (st st' : monitor) :
  cutoff_date st = cutoff_date st' →
  (∀ entry,
     (process_entry fromisoformat entry st).2
     = (process_entry fromisoformat entry st').2) ∧
  (∀ file,
     (parse_session_file fromisoformat json_loads file st).2
     = (parse_session_file fromisoformat json_loads file st').2).
Proof.
  intros Hcut. split.
  - intros entry.
    destruct (uniform_process_entry fromisoformat entry (cutoff_date st))
      as (T & r & _ & Hrun).
    by rewrite (Hrun st eq_refl), (Hrun st' (eq_sym Hcut)).
  - intros file.
    destruct (parse_session_file_uniform fromisoformat json_loads file
                (cutoff_date st)) as (T & r & _ & Hrun).
    by rewrite (Hrun st eq_refl), (Hrun st' (eq_sym Hcut)).
Qed.

Lemma outcome_independent_of_aggregates_witness :
  (process_entry sample_fromisoformat naive_entry cached_monitor).2
  = (process_entry sample_fromisoformat naive_entry million_monitor).2.
Proof.
  by apply (outcome_independent_of_aggregates sample_fromisoformat
              sample_json_loads cached_monitor million_monitor).
Defined.

(** ** What a run leaves alone *)

Lemma write_grows T st k :
  write T →
  call_count st k ≤ call_count (T st) k ∧
  invocations st k ≤ invocations (T st) k.
Proof.
  intros [k'|a f Hf|k' g Hg|s]; try done.
  - rewrite call_count_upd. split; [case_decide; subst; lia | done].
  - split; [done|]. unfold invocations. rewrite agent_record_upd.
    case_decide; [subst|done].
    destruct Hf as [| |c n|s]; simpl; try lia. destruct c; simpl; lia.
Qed.

Lemma writes_grows T st k :
  writes T →
  call_count st k ≤ call_count (T st) k ∧
  invocations st k ≤ invocations (T st) k.
Proof.
  intros H. revert st. induction H as [|T H|T1 T2 _ IH1 _ IH2]; intros st.
  - done.
  - by apply write_grows.
  - destruct (IH1 st), (IH2 (T1 st)). split; lia.
Qed.

Lemma analyze_files_writes fromisoformat json_loads files cutoff :
  ∃ T,
    writes T ∧
    ∀ st, cutoff_date st = cutoff →
      foldl (λ acc file, (parse_session_file fromisoformat json_loads file acc).1)
        st files
      = T st.
Proof.
  induction files as [|file files IH]; simpl.
  - exists (λ st, st). split; [constructor|done].
  - destruct (parse_session_file_uniform fromisoformat json_loads file cutoff)
      as (T1 & r & HT1 & Hrun1).
    destruct IH as (T2 & HT2 & Hrun2).
    exists (λ st, T2 (T1 st)). split; [by constructor|].
    intros st Hst. rewrite (Hrun1 st Hst). simpl. apply Hrun2.
    destruct (writes_frame T1 st HT1) as (_ & -> & _). done.
Qed.

(** A run only accumulates. Whatever the files hold, it leaves the
    window alone, sets the number of session files to the number of
    [*.jsonl] files found (readable or not, abandoned or not), forgets
    no session, and lowers no call count and no invocation count. *)
Theorem analysis_only_accumulates
    (fromisoformat : string → option datetime)
    (json_loads : string → loaded)
    (files : list (option (list string))) (st : monitor) :
  let st' := analyze_all_sessions fromisoformat json_loads (Some files) st in
  let report := generate_json_report st' in
  analysis_period_days report = days st ∧
  cutoff_date st' = cutoff_date st ∧
  total_session_files report = Z.of_nat (length files) ∧
  sessions_analyzed st ⊆ sessions_analyzed st' ∧
  ∀ k, call_count st k ≤ call_count st' k ∧ invocations st k ≤ invocations st' k.
Proof.
  simpl.
  destruct (analyze_files_writes fromisoformat json_loads files (cutoff_date st))
    as (T & HT & Hrun).
  rewrite (Hrun (set_total_sessions (Z.of_nat (length files)) st) eq_refl).
  destruct (writes_frame T (set_total_sessions (Z.of_nat (length files)) st) HT)
    as (-> & -> & -> & Hs).
  split_and!; try done.
  intros k.
  apply (writes_grows T (set_total_sessions (Z.of_nat (length files)) st) k HT).
Qed.

(** ** The usage of an entry in the grand totals *)

Lemma grand_total_item u session c item st :
  wf_item item = true →
  grand_total c (item_effect u session item st)
  = grand_total c st
    + (if decide (is_Some (tool_of item)) then u c else 0)
    + (if decide (is_Some (agent_of item)) then u c else 0).
Proof.
  intros Hwf. unfold item_effect, grand_total.
  destruct (agent_of item) as [a|] eqn:Ha.
  - rewrite (agent_of_tool_of item a Ha Hwf). cbn [tool_token_usage agent_usage
      set_tool_token_usage set_agent_usage set_tool_usage].
    rewrite !sum_values_upd by by destruct c.
    rewrite tool_total_effect, agent_total_effect.
    destruct (decide (is_Some (Some (KStr "Task")))) as [_|[]]; [|done].
    destruct (decide (is_Some (Some a))) as [_|[]]; [|done]. lia.
  - destruct (decide (is_Some (@None key))) as [[? ?]|_]; [done|].
    destruct (tool_of item) as [k|].
    + cbn [tool_token_usage agent_usage
        set_tool_token_usage set_agent_usage set_tool_usage].
      rewrite sum_values_upd by by destruct c. rewrite tool_total_effect.
      destruct (decide (is_Some (Some k))) as [_|[]]; [|done]. lia.
    + destruct (decide (is_Some (@None key))) as [[? ?]|_]; [done|]. lia.
Qed.

Lemma grand_total_items u session c items st :
  forallb wf_item items = true →
  grand_total c (items_effect u session items st)
  = grand_total c st + (tool_blocks items + agent_blocks items) * u c.
Proof.
  unfold items_effect, tool_blocks, agent_blocks. revert st.
  induction items as [|item items IH]; intros st Hwf; simpl; [lia|].
  simpl in Hwf. apply andb_true_iff in Hwf as [Hitem Hitems].
  rewrite IH, grand_total_item by done.
  rewrite !filter_cons.
  destruct (decide (is_Some (tool_of item))),
    (decide (is_Some (agent_of item))); simpl; lia.
Qed.

(** The totals behind "Overall Statistics" and the estimated cost count
    the usage of a message once for every block counted as a tool call
    and once more for every block counted as an agent invocation: a
    message with one "Task" block that names an agent enters them
    twice. *)
Theorem entry_usage_enters_totals_per_block
    (fromisoformat : string → option datetime) (entry : json)
    (st st' : monitor) (c : counter) :
  retained fromisoformat entry st →
  process_entry fromisoformat entry st = (st', inr tt) →
  grand_total c st'
  = grand_total c st
    + (tool_blocks (content_of (message_of entry))
       + agent_blocks (content_of (message_of entry)))
      * counter_value (usage_of (message_of entry)) c.
Proof.
  intros Hr [Hwf ->]%process_entry_effect; [|done].
  unfold entry_effect. rewrite grand_total_items by done.
  by destruct (session_key (session_of entry)).
Qed.

Lemma entry_usage_enters_totals_per_block_witness :
  ∃ st',
    process_entry sample_fromisoformat recent_entry sample_monitor = (st', inr tt) ∧
    grand_total InputTokens st' = 400.
Proof.
  eexists. split; [reflexivity|].
  rewrite (entry_usage_enters_totals_per_block sample_fromisoformat recent_entry
             sample_monitor _ InputTokens eq_refl eq_refl).
  reflexivity.
Defined.

(** ** A wider window *)

Lemma before_cutoff_wider fromisoformat entry st st' :
  cutoff_date st' ≤ cutoff_date st →
  match (before_cutoff fromisoformat entry st).2 with
  | inl e => (before_cutoff fromisoformat entry st').2 = inl e
  | inr false => (before_cutoff fromisoformat entry st').2 = inr false
  | inr true => ∃ old, (before_cutoff fromisoformat entry st').2 = inr old
  end.
Proof.
  intros Hle. unfold before_cutoff, bind, lift, gets, ret, raise.
  destruct (Py.get entry "timestamp" JNull) as [e|timestamp]; simpl; [done|].
  destruct (Py.truthy timestamp); [|done].
  destruct timestamp as [|b|z|s|l|o]; try done.
  destruct (fromisoformat (Py.replace_Z s)) as [[|t]|]; simpl; try done.
  destruct (Z.ltb_spec t (cutoff_date st)); [by eexists|].
  destruct (Z.ltb_spec t (cutoff_date st')); [lia|done].
Qed.

Lemma process_entry_wf fromisoformat entry st :
  wf_entry entry = true →
  process_entry fromisoformat entry st =
    match (before_cutoff fromisoformat entry st).2 with
    | inl e => (st, inl e)
    | inr true => (st, inr tt)
    | inr false => (entry_effect entry st, inr tt)
    end.
Proof.
  intros Hwf. unfold process_entry, bind.
  pose proof (before_cutoff_unchanged fromisoformat entry st) as Hst.
  destruct (before_cutoff fromisoformat entry st) as [st1 [e|[]]];
    simpl in *; subst st1; try done.
  by apply process_retained_run.
Qed.

Lemma counter_value_nonneg entry c :
  wf_entry entry = true → counters_nonneg entry = true →
  0 ≤ counter_value (usage_of (message_of entry)) c.
Proof.
  unfold wf_entry, counters_nonneg. destruct entry as [| | | | |fields]; try done.
  simpl Py.get. intros [_ Hm]%andb_true_iff.
  change (from_option id (JObj []) (Py.dict_get fields "message"))
    with (message_of (JObj fields)).
  destruct (message_of (JObj fields)) as [| | | | |message]; try done.
  simpl Py.get.
  change (from_option id (JObj []) (Py.dict_get message "usage"))
    with (usage_of (JObj message)).
  intros Hnn. unfold counter_value.
  destruct (usage_counter (usage_of (JObj message)) c) as [e|n] eqn:Hc; [done|].
  by apply (usage_nonneg_counter (usage_of (JObj message)) c).
Qed.

Lemma count_tools_nonneg k items : 0 ≤ count_tools k items.
Proof.
  apply sum_list_nonneg. intros item. unfold hit. case_decide; lia.
Qed.

Lemma count_agents_nonneg a items : 0 ≤ count_agents a items.
Proof.
  apply sum_list_nonneg. intros item. unfold hit. case_decide; lia.
Qed.

Lemma cutoff_date_entry entry st :
  cutoff_date (entry_effect entry st) = cutoff_date st.
Proof.
  unfold entry_effect.
  assert (Hitems : ∀ u session items s,
    cutoff_date (items_effect u session items s) = cutoff_date s).
  { intros u session items. unfold items_effect.
    induction items as [|item items IH]; intros s; simpl; [done|].
    rewrite IH. unfold item_effect.
    destruct (tool_of item); [|done]. by destruct (agent_of item). }
  rewrite Hitems. by destruct (session_key (session_of entry)).
Qed.

Lemma sessions_analyzed_entry entry st :
  sessions_analyzed (entry_effect entry st)
  = match session_key (session_of entry) with
    | Some s => {[s]} ∪ sessions_analyzed st
    | None => sessions_analyzed st
    end.
Proof.
  unfold entry_effect. rewrite sessions_analyzed_items.
  by destruct (session_key (session_of entry)).
Qed.

Section Wider.
Variable fromisoformat : string → option datetime.
Variable json_loads : string → loaded.

Lemma covers_both entry st st' :
  schema_entry entry → covers st st' →
  covers (entry_effect entry st) (entry_effect entry st').
Proof.
  intros [Hwf Hnn] (Hcut & [Hc Hi Ht Ha] & Hs).
  pose proof (wf_entry_items entry Hwf) as Hitems.
  split; [by rewrite !cutoff_date_entry|]. split; [split|].
  - intros k. rewrite !call_count_entry. specialize (Hc k). lia.
  - intros a. rewrite !invocations_entry by done. specialize (Hi a). lia.
  - intros k c. rewrite !tool_tokens_entry. specialize (Ht k c). lia.
  - intros a c. rewrite !agent_tokens_entry by done. specialize (Ha a c). lia.
  - rewrite !sessions_analyzed_entry.
    destruct (session_key (session_of entry)); set_solver.
Qed.

Lemma covers_wide entry st st' :
  schema_entry entry → covers st st' → covers st (entry_effect entry st').
Proof.
  intros [Hwf Hnn] (Hcut & [Hc Hi Ht Ha] & Hs).
  pose proof (wf_entry_items entry Hwf) as Hitems.
  assert (Hu := counter_value_nonneg entry).
  split; [by rewrite cutoff_date_entry|]. split; [split|].
  - intros k. rewrite call_count_entry. specialize (Hc k).
    pose proof (count_tools_nonneg k (content_of (message_of entry))). lia.
  - intros a. rewrite invocations_entry by done. specialize (Hi a).
    pose proof (count_agents_nonneg a (content_of (message_of entry))). lia.
  - intros k c. rewrite tool_tokens_entry. specialize (Ht k c).
    pose proof (count_tools_nonneg k (content_of (message_of entry))).
    specialize (Hu c Hwf Hnn). nia.
  - intros a c. rewrite agent_tokens_entry by done. specialize (Ha a c).
    pose proof (count_agents_nonneg a (content_of (message_of entry))).
    specialize (Hu c Hwf Hnn). nia.
  - rewrite sessions_analyzed_entry.
    destruct (session_key (session_of entry)); set_solver.
Qed.

Lemma parse_lines_covers lines st st' :
  Forall schema_entry (entries_of json_loads lines) → covers st st' →
  covers (parse_lines fromisoformat json_loads lines st).1
         (parse_lines fromisoformat json_loads lines st').1.
Proof.
  revert st st'. induction lines as [|line rest IH]; intros st st'; simpl; [done|].
  simpl.
  destruct (Py.blank line); [apply IH|].
  destruct (json_loads line) as [entry| |e]; [|apply IH|by intros _ ?]. simpl.
  intros Hall Hcov. inversion Hall as [|? ? Hentry Hrest]; subst.
  unfold bind. rewrite !process_entry_wf by apply Hentry.
  pose proof (before_cutoff_wider fromisoformat entry st st' (proj1 Hcov)) as Hw.
  destruct ((before_cutoff fromisoformat entry st).2) as [e|[]].
  - by rewrite Hw.
  - destruct Hw as [[] ->].
    + by apply IH.
    + apply IH; [done|]. by apply covers_wide.
  - rewrite Hw. apply IH; [done|]. by apply covers_both.
Qed.

Lemma parse_session_file_covers file st st' :
  Forall schema_entry (from_option (entries_of json_loads) [] file) → covers st st' →
  covers (parse_session_file fromisoformat json_loads file st).1
         (parse_session_file fromisoformat json_loads file st').1.
Proof.
  intros Hall Hcov. destruct file as [lines|]; simpl in *; [|done].
  pose proof (parse_lines_covers lines st st' Hall Hcov) as H.
  destruct (parse_lines fromisoformat json_loads lines st) as [s1 [?|?]],
    (parse_lines fromisoformat json_loads lines st') as [s2 [?|?]]; done.
Qed.

Lemma analyze_files_covers files st st' :
  Forall schema_entry (read_entries json_loads files) → covers st st' →
  covers
    (foldl (λ acc file, (parse_session_file fromisoformat json_loads file acc).1)
       st files)
    (foldl (λ acc file, (parse_session_file fromisoformat json_loads file acc).1)
       st' files).
Proof.
  revert st st'. induction files as [|file files IH]; intros st st'; [done|].
  unfold read_entries. simpl. fold (read_entries json_loads files).
  intros [H1 H2]%Forall_app Hcov. apply IH; [done|].
  by apply parse_session_file_covers.
Qed.

(** A wider window never reports less. On files whose entries follow
    the log schema and have no negative counter, the run with the
    earlier cutoff has at least the call counts, the invocation counts,
    the token totals and the sessions of the run with the later one. *)
Theorem wider_window_counts_more
    (files : list (option (list string))) (days days' cutoff cutoff' : Z) :
  cutoff' ≤ cutoff →
  Forall schema_entry (read_entries json_loads files) →
  let narrow :=
    analyze_all_sessions fromisoformat json_loads (Some files) (init days cutoff) in
  let wide :=
    analyze_all_sessions fromisoformat json_loads (Some files) (init days' cutoff') in
  grows narrow wide ∧ sessions_analyzed narrow ⊆ sessions_analyzed wide.
Proof.
  intros Hle Hall. simpl.
  destruct (analyze_files_covers files
              (set_total_sessions (Z.of_nat (length files)) (init days cutoff))
              (set_total_sessions (Z.of_nat (length files)) (init days' cutoff'))
              Hall) as (_ & Hgrows & Hs).
  - split; [done|]. split; [|done]. by split.
  - split; [exact Hgrows | exact Hs].
Qed.

End Wider.

Lemma wider_window_counts_more_witness :
  call_count
    (analyze_all_sessions sample_fromisoformat sample_json_loads
       (Some [Some ["recent"; "undated"]]) (init 7 1768046400000001))
    (KStr "Read")
  ≤ call_count
      (analyze_all_sessions sample_fromisoformat sample_json_loads
         (Some [Some ["recent"; "undated"]]) (init 30 1767484800000000))
      (KStr "Read").
Proof.
  apply (wider_window_counts_more sample_fromisoformat sample_json_loads
           [Some ["recent"; "undated"]] 7 30 1768046400000001 1767484800000000).
  - lia.
  - repeat constructor.
Defined.

(** ** The tokens of the agents and of the tool "Task" *)

Lemma agent_sum_item u session c item st :
  wf_item item = true →
  sum_values (agent_total c) (agent_usage (item_effect u session item st))
  = sum_values (agent_total c) (agent_usage st)
    + (if decide (is_Some (agent_of item)) then u c else 0).
Proof.
  intros Hwf. unfold item_effect.
  destruct (agent_of item) as [a|] eqn:Ha.
  - rewrite (agent_of_tool_of item a Ha Hwf).
    cbn [tool_token_usage agent_usage
      set_tool_token_usage set_agent_usage set_tool_usage].
    rewrite sum_values_upd by by destruct c. rewrite agent_total_effect.
    destruct (decide (is_Some (Some a))) as [_|[]]; [|done]. lia.
  - destruct (decide (is_Some (@None key))) as [[? ?]|_]; [done|].
    destruct (tool_of item); simpl; lia.
Qed.

Lemma agent_tokens_within_task_item u session item st :
  wf_item item = true → (∀ c, 0 ≤ u c) →
  agent_tokens_within_task st →
  agent_tokens_within_task (item_effect u session item st).
Proof.
  intros Hwf Hu H c. specialize (H c). specialize (Hu c).
  rewrite agent_sum_item by done. unfold tool_tokens.
  rewrite tool_record_item.
  destruct (agent_of item) as [a|] eqn:Ha.
  - rewrite (agent_of_tool_of item a Ha Hwf).
    destruct (decide (is_Some (Some a))) as [_|[]]; [|done].
    rewrite decide_True by done. rewrite tool_total_effect.
    unfold tool_tokens in H. lia.
  - destruct (decide (is_Some (@None key))) as [[? ?]|_]; [done|].
    unfold tool_tokens in H. case_decide; [rewrite tool_total_effect|]; lia.
Qed.

Lemma agent_tokens_within_task_entry entry st :
  schema_entry entry →
  agent_tokens_within_task st →
  agent_tokens_within_task (entry_effect entry st).
Proof.
  intros [Hwf Hnn] H. unfold entry_effect.
  pose proof (wf_entry_items entry Hwf) as Hitems.
  assert (Hu : ∀ c, 0 ≤ counter_value (usage_of (message_of entry)) c)
    by (intros c; by apply counter_value_nonneg).
  set (u := counter_value (usage_of (message_of entry))) in *.
  set (session := session_key (session_of entry)).
  assert (H1 : agent_tokens_within_task
                 match session with
                 | Some s => set_sessions_analyzed (union {[s]}) st
                 | None => st
                 end) by by destruct session.
  revert H1. generalize (match session with
                         | Some s => set_sessions_analyzed (union {[s]}) st
                         | None => st
                         end).
  unfold items_effect.
  induction (content_of (message_of entry)) as [|item items IH]; intros s Hs;
    simpl; [done|].
  simpl in Hitems. apply andb_true_iff in Hitems as [Hitem Hrest].
  apply IH; [done|]. by apply agent_tokens_within_task_item.
Qed.

(** The usage of a message that invokes an agent is added to the agent
    and to the tool "Task" alike: after a run on files whose entries
    follow the log schema and have no negative counter, each of the four
    token totals summed over all agents is at most the total of the
    tool "Task". *)
Theorem agent_tokens_are_within_task_tokens
    (fromisoformat : string → option datetime)
    (json_loads : string → loaded)
    (files : list (option (list string))) (days cutoff : Z) (c : counter) :
  Forall schema_entry (read_entries json_loads files) →
  let st :=
    analyze_all_sessions fromisoformat json_loads (Some files) (init days cutoff) in
  sum_values (agent_total c) (agent_usage st) ≤ tool_tokens st (KStr "Task") c.
Proof.
  intros Hall. simpl.
  destruct (analyze_files_entries fromisoformat json_loads files
              (set_total_sessions (Z.of_nat (length files)) (init days cutoff)))
    as (entries & Hsub & ->).
  assert (Hentries : Forall schema_entry entries).
  { rewrite Forall_forall in Hall |- *. intros entry Hin.
    apply Hall. by apply (elem_of_sublist entries). }
  assert (Hinit : agent_tokens_within_task
                    (set_total_sessions (Z.of_nat (length files))
                       (init days cutoff))).
  { intros c'. unfold tool_tokens, tool_record. simpl.
    rewrite sum_values_empty, lookup_empty. by destruct c'. }
  revert Hinit. clear Hsub.
  generalize (set_total_sessions (Z.of_nat (length files)) (init days cutoff)).
  unfold process_all.
  induction Hentries as [|entry entries Hentry _ IH]; intros st Hst; cbn [foldl].
  - apply Hst.
  - apply IH. cbv beta.
    destruct (process_entry_cases fromisoformat entry st (proj1 Hentry))
      as [Hsame | Heffect]; [by rewrite Hsame|].
    rewrite Heffect. by apply agent_tokens_within_task_entry.
Qed.

Lemma agent_tokens_are_within_task_tokens_witness :
  sum_values (agent_total InputTokens)
    (agent_usage
       (analyze_all_sessions sample_fromisoformat sample_json_loads
          (Some [Some ["recent"; "undated"]]) sample_monitor))
  ≤ tool_tokens
      (analyze_all_sessions sample_fromisoformat sample_json_loads
         (Some [Some ["recent"; "undated"]]) sample_monitor)
      (KStr "Task") InputTokens.
Proof.
  apply (agent_tokens_are_within_task_tokens sample_fromisoformat
           sample_json_loads [Some ["recent"; "undated"]] 7 1767484800000000
           InputTokens).
  repeat constructor.
Defined.

(** ** The steps of a block, with the provenance of the keys *)

(** As [Section Item], with two additions: every key written is the
    key of a truthy value, and the session added to an agent is the
    session of the entry. *)
Section Keyed.
Variables (message session_id : json).
Variable I : monitor → Prop.
Variables Ik J Ia : key → monitor → Prop.

Hypothesis tool_counted :
  ∀ name k st, key_of name k → I st →
    Ik k (set_tool_usage (upd 0 k (Z.add 1)) st).
Hypothesis agent_counted :
  ∀ name a st, key_of name a → Ik (KStr "Task") st →
    Ia a (set_agent_usage (upd new_agent_stats a agent_bump) st).
Hypothesis agent_added :
  ∀ a f st, (f = id ∨ ∃ c n, f = agent_add c n) → Ia a st →
    Ia a (set_agent_usage (upd new_agent_stats a f) st).
Hypothesis agent_session :
  ∀ a s st, key_of session_id s → Ia a st →
    J (KStr "Task")
      (set_agent_usage (upd new_agent_stats a (agent_add_session s)) st).
Hypothesis agent_done : ∀ a st, Ia a st → J (KStr "Task") st.
Hypothesis agent_skipped : ∀ k st, Ik k st → J k st.
Hypothesis tool_updated :
  ∀ k g st, J k st → J k (set_tool_token_usage (upd new_token_stats k g) st).
Hypothesis tool_done : ∀ k st, J k st → I st.

Lemma keyed_add_agent_counter a usage c :
  always (Ia a) (add_agent_counter a usage c) (Ia a).
Proof.
  unfold add_agent_counter.
  eapply always_modify_bind.
  { intros st H. apply agent_added; [by left | exact H]. }
  apply always_lift_bind; [done|]. intros v _.
  apply always_lift_bind; [done|]. intros n _.
  apply always_modify. intros st H. apply agent_added; [|exact H].
  right. by exists c, n.
Qed.

Lemma keyed_track_agent_usage agent_name :
  Py.truthy agent_name = true →
  always (Ik (KStr "Task")) (track_agent_usage agent_name message session_id)
         (J (KStr "Task")).
Proof.
  intros Hname. unfold track_agent_usage.
  apply always_lift_bind; [apply agent_skipped|]. intros usage _.
  apply always_lift_bind; [apply agent_skipped|]. intros a Ha.
  eapply always_modify_bind;
    [intros st H; by apply (agent_counted agent_name)|].
  do 4 (eapply always_bind with (Q := Ia a);
          [apply keyed_add_agent_counter | apply agent_done | intros _]).
  destruct (Py.truthy session_id) eqn:Hsession.
  - apply always_lift_bind; [apply agent_done|]. intros s Hs.
    apply always_modify. intros st H. by apply agent_session.
  - eapply always_weaken; [done | apply agent_done | apply always_ret].
Qed.

Lemma keyed_add_tool_counter k usage c :
  always (J k) (add_tool_counter k usage c) (J k).
Proof.
  unfold add_tool_counter.
  eapply always_modify_bind; [intros st H; by apply tool_updated|].
  apply always_lift_bind; [done|]. intros v _.
  apply always_lift_bind; [done|]. intros n _.
  apply always_modify. intros st H. by apply tool_updated.
Qed.

Lemma keyed_track_tool_tokens tool_name k :
  Py.hash_key tool_name = inr k →
  always (J k) (track_tool_tokens tool_name message) (J k).
Proof.
  intros Hk. unfold track_tool_tokens.
  apply always_lift_bind; [done|]. intros usage _.
  apply always_lift_bind; [done|]. intros k' Hk'.
  assert (k' = k) as -> by congruence.
  do 3 (eapply always_bind; [apply keyed_add_tool_counter | done | intros _]).
  apply keyed_add_tool_counter.
Qed.

Lemma keyed_process_item item :
  always I (process_item message session_id item) I.
Proof.
  unfold process_item. destruct item as [| | | | |fields]; try apply always_ret.
  destruct (Py.eq_str _ "tool_use"); [|apply always_ret].
  destruct (Py.truthy _) eqn:Hname; [|apply always_ret].
  apply always_lift_bind; [done|]. intros k Hk.
  eapply always_modify_bind;
    [intros st H;
     by apply (tool_counted (default JNull (Py.dict_get fields "name")))|].
  eapply always_weaken with (P := Ik k) (Q := J k); [done | apply tool_done |].
  eapply always_bind with (Q := J k);
    [| done | intros _; by apply keyed_track_tool_tokens].
  destruct (Py.eq_str _ "Task") eqn:HTask;
    [|eapply always_weaken; [done | apply agent_skipped | apply always_ret]].
  pose proof (hash_key_Task _ _ HTask Hk) as ->.
  apply always_lift_bind; [apply agent_skipped|]. intros first _.
  apply always_lift_bind; [apply agent_skipped|]. intros subagent _.
  destruct (Py.truthy subagent) eqn:Hsubagent;
    [|eapply always_weaken; [done | apply agent_skipped | apply always_ret]].
  by apply keyed_track_agent_usage.
Qed.

End Keyed.

(** An invariant that rests on the session of the entry: [Is] holds
    while the blocks of an entry with that session id are processed. *)
Section KeyedEntry.
Variable fromisoformat : string → option datetime.
Variable json_loads : string → loaded.
Variable I : monitor → Prop.
Variable Is : json → monitor → Prop.

Hypothesis session_added :
  ∀ session_id s st, key_of session_id s → I st →
    Is session_id (set_sessions_analyzed (union {[s]}) st).
Hypothesis session_skipped :
  ∀ session_id st, Py.truthy session_id = false → I st → Is session_id st.
Hypothesis item_keeps :
  ∀ message session_id item,
    always (Is session_id) (process_item message session_id item) (Is session_id).
Hypothesis items_done : ∀ session_id st, Is session_id st → I st.
Hypothesis total_keeps : ∀ n st, I st → I (set_total_sessions n st).

Lemma keyed_process_retained entry : always I (process_retained entry) I.
Proof.
  intros st HI. unfold process_retained. unfold bind at 1. unfold lift at 1.
  destruct (Py.get entry "sessionId" JNull) as [e|session_id]; [done|].
  assert (Hrest : always (Is session_id)
    (message <- lift (Py.get entry "message" (JObj [])) ;;
     content <- lift (Py.get message "content" (JArr [])) ;;
     match content with
     | JArr items => for_each (process_item message session_id) items
     | _ => ret tt
     end) (Is session_id)).
  { apply always_lift_bind; [done|]. intros message _.
    apply always_lift_bind; [done|]. intros content _.
    destruct content; try apply always_ret.
    apply always_for_each. intros item. apply item_keeps. }
  unfold bind at 1.
  destruct (Py.truthy session_id) eqn:Htruthy.
  - unfold bind at 1. unfold lift at 1.
    destruct (Py.hash_key session_id) as [e|s] eqn:Hs; [done|].
    unfold modify at 1.
    apply (items_done session_id), Hrest. by apply session_added.
  - unfold ret at 1.
    apply (items_done session_id), Hrest. by apply session_skipped.
Qed.

Lemma keyed_process_entry entry :
  always I (process_entry fromisoformat entry) I.
Proof.
  intros st HI. unfold process_entry, bind.
  pose proof (before_cutoff_unchanged fromisoformat entry st) as Hst.
  destruct (before_cutoff fromisoformat entry st) as [st' [e|old]];
    simpl in *; subst st'; [done|].
  destruct old; [done|]. by apply keyed_process_retained.
Qed.

Lemma keyed_analyze_all_sessions dir st :
  I st → I (analyze_all_sessions fromisoformat json_loads dir st).
Proof.
  apply analyze_all_sessions_keeps; [apply keyed_process_entry | apply total_keeps].
Qed.

End KeyedEntry.

Lemma key_of_inj v k k' : key_of v k → key_of v k' → k = k'.
Proof. intros [_ H] [_ H']. congruence. Qed.

Lemma key_of_truthy v k : key_of v k → ¬ falsy_key k.
Proof.
  intros [Ht Hk] Hfalsy. destruct v as [|b|z|s|l|o]; simpl in *; try done.
  - destruct b; [|done]. injection Hk as <-. by destruct Hfalsy as [|[|]].
  - injection Hk as <-. destruct Hfalsy as [|[[= ->]|]]; done.
  - injection Hk as <-. destruct Hfalsy as [|[|[= ->]]]; done.
Qed.

(** *** The sessions of an agent *)

Lemma size_add_session (s : key) (X : gset key) :
  Z.of_nat (size ({[s]} ∪ X)) ≤ Z.of_nat (size X) + 1.
Proof.
  rewrite size_union_alt, size_singleton.
  assert (size (X ∖ {[s]}) ≤ size X)%nat by (apply subseteq_size; set_solver).
  lia.
Qed.

Lemma sessions_consistent_item message session_id item :
  let Is st :=
    sessions_consistent st ∧ ∀ s, key_of session_id s → s ∈ sessions_analyzed st in
  always Is (process_item message session_id item) Is.
Proof.
  intros Is.
  apply keyed_process_item with
    (Ik := λ _, Is) (J := λ _, Is)
    (Ia := λ a st,
       (∀ s, key_of session_id s → s ∈ sessions_analyzed st) ∧
       is_Some (agent_usage st !! a) ∧
       ∀ a' r, agent_usage st !! a' = Some r →
         sessions r ⊆ sessions_analyzed st ∧
         Z.of_nat (size (sessions r)) + (if decide (a' = a) then 1 else 0)
         ≤ count r); try done.
  - intros name a st _ [Hcons Hs]. split; [done|]. simpl. split.
    { rewrite lookup_upd, decide_True by done. by eexists. }
    intros a' r. rewrite lookup_upd.
    destruct (decide (a' = a)) as [->|Hne].
    + rewrite decide_True by done. intros [= <-]. simpl.
      destruct (agent_usage st !! a) as [old|] eqn:Hold; simpl.
      * destruct (Hcons a old Hold). split; [done|]. lia.
      * split; [set_solver|].
        change (Z.of_nat (size (∅ : gset key)) + 1 ≤ 0 + 1).
        rewrite size_empty. lia.
    + rewrite decide_False by done. intros Hr.
      destruct (Hcons a' r Hr). split; [done|]. lia.
  - intros a f st Hf (Hs & [old Hold] & Hcons). split; [done|]. simpl. split.
    { rewrite lookup_upd, decide_True by done. by eexists. }
    intros a' r. rewrite lookup_upd.
    destruct (decide (a' = a)) as [->|Hne].
    + rewrite decide_True by done. intros [= <-]. rewrite Hold. simpl.
      destruct (Hcons a old Hold) as [Hsub Hsize].
      rewrite decide_True in Hsize by done.
      destruct Hf as [->|(c & n & ->)]; [done|]. by destruct c.
    + rewrite decide_False by done. intros Hr.
      specialize (Hcons a' r Hr). by rewrite decide_False in Hcons.
  - intros a s st Hkey (Hs & [old Hold] & Hcons). split; [|done].
    intros a' r. simpl. rewrite lookup_upd.
    destruct (decide (a' = a)) as [->|Hne].
    + rewrite decide_True by done. intros [= <-]. rewrite Hold. simpl.
      destruct (Hcons a old Hold) as [Hsub Hsize].
      rewrite decide_True in Hsize by done.
      pose proof (Hs s Hkey). pose proof (size_add_session s (sessions old)).
      split; [set_solver | lia].
    + rewrite decide_False by done. intros Hr.
      specialize (Hcons a' r Hr). rewrite decide_False in Hcons by done.
      destruct Hcons. split; [done | lia].
  - intros a st (Hs & _ & Hcons). split; [|done]. intros a' r Hr.
    destruct (Hcons a' r Hr) as [Hsub Hsize]. split; [done|].
    case_decide; lia.
Qed.

(** The sessions listed for an agent are sessions the run analyzed,
    and an agent has no more sessions than invocations: "Sessions" of
    an agent's row is at most its "Invocations" and at most "Sessions
    analyzed". This holds after a run on any directory, whatever the
    files hold. *)
Theorem agent_sessions_are_analyzed_sessions
    (fromisoformat : string → option datetime)
    (json_loads : string → loaded)
    (dir : option (list (option (list string)))) (days cutoff : Z) :
  let st := analyze_all_sessions fromisoformat json_loads dir (init days cutoff) in
  ∀ row, row ∈ agent_section st →
    (∃ r, agent_usage st !! row_agent row = Some r ∧
          sessions r ⊆ sessions_analyzed st) ∧
    row_sessions row ≤ row_invocations row ∧
    row_sessions row ≤ json_sessions_analyzed (generate_json_report st).
Proof.
  simpl.
  set (st := analyze_all_sessions fromisoformat json_loads dir (init days cutoff)).
  assert (Hcons : sessions_consistent st).
  { apply (keyed_analyze_all_sessions fromisoformat json_loads sessions_consistent
             (λ session_id st,
                sessions_consistent st ∧
                ∀ s, key_of session_id s → s ∈ sessions_analyzed st)).
    - intros session_id s s0 Hkey Hc. split.
      + intros a r Hr. destruct (Hc a r Hr). split; [set_solver | done].
      + intros s' Hkey'. rewrite (key_of_inj _ _ _ Hkey' Hkey). set_solver.
    - intros session_id s0 Hfalse Hc. split; [done|].
      intros s [Htrue _]. congruence.
    - intros message session_id item.
      apply (sessions_consistent_item message session_id item).
    - by intros session_id s0 [Hc _].
    - done.
    - intros a r. simpl. by rewrite lookup_empty. }
  intros row Hrow. unfold agent_section in Hrow.
  apply list_elem_of_fmap in Hrow as ([a r] & -> & Hin).
  rewrite sort_desc_perm in Hin. apply elem_of_map_to_list in Hin.
  destruct (Hcons a r Hin) as [Hsub Hsize]. simpl.
  split; [by exists r|]. split; [done|].
  apply Nat2Z.inj_le, subseteq_size, Hsub.
Qed.

Lemma agent_sessions_are_analyzed_sessions_witness :
  ∃ row,
    row ∈ agent_section
            (analyze_all_sessions sample_fromisoformat sample_json_loads
               (Some [Some ["recent"; "undated"]]) sample_monitor) ∧
    row_agent row = KStr "reviewer" ∧
    row_sessions row ≤ row_invocations row.
Proof.
  assert (Hin :
    AgentRow (KStr "reviewer") 2 100 7 0 0 1
    ∈ agent_section
        (analyze_all_sessions sample_fromisoformat sample_json_loads
           (Some [Some ["recent"; "undated"]]) sample_monitor))
    by (vm_compute; left).
  eexists. split; [exact Hin|]. split; [reflexivity|].
  apply (agent_sessions_are_analyzed_sessions sample_fromisoformat
           sample_json_loads (Some [Some ["recent"; "undated"]])
           7 1767484800000000 _ Hin).
Defined.

(** *** Falsy names *)

Lemma no_falsy_agent a f st :
  ¬ falsy_key a →
  (∀ k r, falsy_key k → k ∉ sessions r → k ∉ sessions (f r)) →
  no_falsy_key st →
  no_falsy_key (set_agent_usage (upd new_agent_stats a f) st).
Proof.
  intros Ha Hf H k Hk. destruct (H k Hk) as (H1 & H2 & H3 & H4 & H5). simpl.
  split_and!; try done.
  - rewrite dom_upd. intros [->%elem_of_singleton|?]%elem_of_union; done.
  - intros a' r. rewrite lookup_upd. case_decide.
    + intros [= <-]. apply Hf; [done|].
      destruct (agent_usage st !! a) as [old|] eqn:Hold; simpl;
        [by apply (H5 a) | set_solver].
    + apply H5.
Qed.

Lemma no_falsy_key_item message session_id item :
  always no_falsy_key (process_item message session_id item) no_falsy_key.
Proof.
  apply keyed_process_item with
    (Ik := λ k st, no_falsy_key st ∧ ¬ falsy_key k)
    (J := λ k st, no_falsy_key st ∧ ¬ falsy_key k)
    (Ia := λ a st, no_falsy_key st ∧ ¬ falsy_key a); try done.
  - intros name k st Hkey H. pose proof (key_of_truthy name k Hkey) as Hk.
    split; [|done]. intros k' Hk'.
    destruct (H k' Hk') as (H1 & H2 & H3 & H4 & H5). simpl.
    split_and!; try done.
    rewrite dom_upd. intros [->%elem_of_singleton|?]%elem_of_union; done.
  - intros name a st Hkey [H _]. pose proof (key_of_truthy name a Hkey) as Ha.
    split; [|done]. by apply no_falsy_agent.
  - intros a f st Hf [H Ha]. split; [|done]. apply no_falsy_agent; [done| |done].
    intros k r _. destruct Hf as [->|(c & n & ->)]; [done|]. by destruct c.
  - intros a s st Hkey [H Ha]. pose proof (key_of_truthy session_id s Hkey) as Hs.
    split; [|by intros [|[|]]]. apply no_falsy_agent; [done| |done].
    intros k r Hk Hr. simpl. intros [->%elem_of_singleton|?]%elem_of_union; done.
  - intros a st [H _]. split; [done|]. by intros [|[|]].
  - intros k g st [H Hk]. split; [|done]. intros k' Hk'.
    destruct (H k' Hk') as (H1 & H2 & H3 & H4 & H5). simpl.
    split_and!; try done.
    rewrite dom_upd. intros [->%elem_of_singleton|?]%elem_of_union; done.
  - by intros k st [H _].
Qed.

(** What the code tests with [if tool_name:], [if subagent:] and
    [if session_id:] never becomes a key: after a run on any directory,
    no tool, no agent and no session is recorded under [None], [0],
    [False] or the empty string. *)
Theorem falsy_names_are_never_recorded
    (fromisoformat : string → option datetime)
    (json_loads : string → loaded)
    (dir : option (list (option (list string)))) (days cutoff : Z) (k : key) :
  let st := analyze_all_sessions fromisoformat json_loads dir (init days cutoff) in
  falsy_key k →
  call_count st k = 0 ∧ (k ∉ dom (tool_token_usage st)) ∧
  (k ∉ dom (agent_usage st)) ∧ (k ∉ sessions_analyzed st) ∧
  ∀ a r, agent_usage st !! a = Some r → k ∉ sessions r.
Proof.
  simpl. intros Hk.
  set (st := analyze_all_sessions fromisoformat json_loads dir (init days cutoff)).
  assert (H : no_falsy_key st).
  { apply (keyed_analyze_all_sessions fromisoformat json_loads no_falsy_key
             (λ _, no_falsy_key)); try done.
    - intros session_id s s0 Hkey H k' Hk'.
      pose proof (key_of_truthy session_id s Hkey) as Hs.
      destruct (H k' Hk') as (H1 & H2 & H3 & H4 & H5). simpl.
      split_and!; try done.
      intros [->%elem_of_singleton|?]%elem_of_union; done.
    - intros message session_id item. apply no_falsy_key_item. }
  destruct (H k Hk) as (H1 & H2 & H3 & H4 & H5).
  split_and!; try done.
  unfold call_count. by rewrite (not_elem_of_dom_1 _ _ H1).
Qed.

Lemma falsy_names_are_never_recorded_witness :
  call_count
    (analyze_all_sessions sample_fromisoformat sample_json_loads
       (Some [Some ["recent"]]) sample_monitor) (KStr "") = 0.
Proof.
  apply (falsy_names_are_never_recorded sample_fromisoformat sample_json_loads
           (Some [Some ["recent"]]) 7 1767484800000000 (KStr "")).
  right. by right.
Defined.

(** ** The sections "AGENT USAGE" and "TOOL USAGE" *)




(** ** The aggregates of a whole run *)

Lemma before_cutoff_result fromisoformat entry st st' :
  cutoff_date st = cutoff_date st' →
  (before_cutoff fromisoformat entry st).2
  = (before_cutoff fromisoformat entry st').2.
Proof.
  intros Hcut. unfold before_cutoff, bind, lift, gets, ret, raise.
  destruct (Py.get entry "timestamp" JNull) as [e|timestamp]; simpl; [done|].
  destruct (Py.truthy timestamp); [|done].
  destruct timestamp as [|b|z|s|l|o]; try done.
  destruct (fromisoformat (Py.replace_Z s)) as [[|t]|]; simpl; try done.
  by rewrite Hcut.
Qed.

Section Sums.
Variable fromisoformat : string → option datetime.

Lemma process_entry_returns_in_window entry st :
  (process_entry fromisoformat entry st).2 = inr tt →
  if in_window fromisoformat (cutoff_date st) entry
  then forallb wf_item (content_of (message_of entry)) = true ∧
       (process_entry fromisoformat entry st).1 = entry_effect entry st
  else (process_entry fromisoformat entry st).1 = st.
Proof.
  intros Hret. unfold in_window.
  rewrite <- (before_cutoff_result fromisoformat entry st
                (init 0 (cutoff_date st)) eq_refl).
  pose proof (before_cutoff_unchanged fromisoformat entry st) as Hst.
  destruct (before_cutoff fromisoformat entry st) as [st1 [e|[]]] eqn:Hcheck;
    simpl in *; subst st1.
  - unfold process_entry, bind in Hret. by rewrite Hcheck in Hret.
  - unfold process_entry, bind. by rewrite Hcheck.
  - destruct (process_entry fromisoformat entry st) as [st' [e|[]]] eqn:Hrun;
      [done|].
    destruct (process_entry_effect fromisoformat entry st st' Hcheck Hrun)
      as [Hwf ->].
    by split.
Qed.

Lemma process_all_sums entries st :
  all_return fromisoformat entries st →
  let kept :=
    filter (λ entry, in_window fromisoformat (cutoff_date st) entry = true)
           entries in
  let st' := process_all fromisoformat entries st in
  (∀ k,
     call_count st' k
     = call_count st k
       + sum_list (λ entry, count_tools k (content_of (message_of entry))) kept) ∧
  (∀ a,
     invocations st' a
     = invocations st a
       + sum_list (λ entry, count_agents a (content_of (message_of entry))) kept) ∧
  (∀ k c,
     tool_tokens st' k c
     = tool_tokens st k c
       + sum_list (λ entry, count_tools k (content_of (message_of entry))
                            * counter_value (usage_of (message_of entry)) c)
           kept) ∧
  (∀ a c,
     agent_tokens st' a c
     = agent_tokens st a c
       + sum_list (λ entry, count_agents a (content_of (message_of entry))
                            * counter_value (usage_of (message_of entry)) c)
           kept) ∧
  sessions_analyzed st' = sessions_analyzed st ∪ session_keys kept.
Proof.
  revert st. induction entries as [|entry entries IH]; intros st.
  - intros _. simpl. split_and!; intros; try lia. set_solver.
  - intros [Hret Hrest]. cbn zeta.
    change (process_all fromisoformat (entry :: entries) st)
      with (process_all fromisoformat entries
              (process_entry fromisoformat entry st).1).
    pose proof (process_entry_returns_in_window entry st Hret) as Hentry.
    rewrite filter_cons.
    destruct (in_window fromisoformat (cutoff_date st) entry) eqn:Hwin.
    + destruct Hentry as [Hwf Heffect]. rewrite Heffect in Hrest |- *.
      destruct (IH _ Hrest) as (Hc & Hi & Ht & Ha & Hs).
      rewrite cutoff_date_entry in Hc, Hi, Ht, Ha, Hs.
      rewrite decide_True by done. simpl.
      split_and!.
      * intros k. rewrite Hc, call_count_entry. lia.
      * intros a. rewrite Hi, invocations_entry by done. lia.
      * intros k c. rewrite Ht, tool_tokens_entry. lia.
      * intros a c. rewrite Ha, agent_tokens_entry by done. lia.
      * rewrite Hs, sessions_analyzed_entry.
        destruct (session_key (session_of entry)); set_solver.
    + rewrite Hentry in Hrest |- *.
      destruct (IH _ Hrest) as (Hc & Hi & Ht & Ha & Hs).
      rewrite decide_False by done. by split_and!.
Qed.

End Sums.

(** The aggregates of a run in which no call of [process_entry] raises
    are sums over the entries read (those of each file up to the first
    line on which [json.loads] raises another exception than
    [json.JSONDecodeError]) that pass the date check: a tool's call
    count is the number of its blocks in those entries, an agent's
    invocation count the number of "Task" blocks that name it, a token
    total the usage of each entry times the number of such blocks in
    it, and the sessions are those of these entries. *)
Theorem run_aggregates_are_sums_over_kept_entries
    (fromisoformat : string → option datetime)
    (json_loads : string → loaded)
    (files : list (option (list string))) (days cutoff : Z) :
  all_return fromisoformat (read_entries json_loads files)
    (set_total_sessions (Z.of_nat (length files)) (init days cutoff)) →
  let st :=
    analyze_all_sessions fromisoformat json_loads (Some files) (init days cutoff) in
  let kept :=
    filter (λ entry, in_window fromisoformat cutoff entry = true)
           (read_entries json_loads files) in
  (∀ k,
     call_count st k
     = sum_list (λ entry, count_tools k (content_of (message_of entry))) kept) ∧
  (∀ a,
     invocations st a
     = sum_list (λ entry, count_agents a (content_of (message_of entry))) kept) ∧
  (∀ k c,
     tool_tokens st k c
     = sum_list (λ entry, count_tools k (content_of (message_of entry))
                          * counter_value (usage_of (message_of entry)) c) kept) ∧
  (∀ a c,
     agent_tokens st a c
     = sum_list (λ entry, count_agents a (content_of (message_of entry))
                          * counter_value (usage_of (message_of entry)) c) kept) ∧
  sessions_analyzed st = session_keys kept.
Proof.
  intros Hall. cbn zeta.
  change (analyze_all_sessions fromisoformat json_loads (Some files)
            (init days cutoff))
    with (foldl (λ acc file,
                   (parse_session_file fromisoformat json_loads file acc).1)
            (set_total_sessions (Z.of_nat (length files)) (init days cutoff))
            files).
  rewrite (analyze_files_all_return fromisoformat json_loads files _ Hall).
  destruct (process_all_sums fromisoformat _ _ Hall) as (Hc & Hi & Ht & Ha & Hs).
  simpl cutoff_date in *.
  split_and!.
  - intros k. rewrite Hc. done.
  - intros a. rewrite Hi. done.
  - intros k c. rewrite Ht.
    unfold tool_tokens, tool_record. simpl. rewrite lookup_empty. by destruct c.
  - intros a c. rewrite Ha.
    unfold agent_tokens, agent_record. simpl. rewrite lookup_empty. by destruct c.
  - rewrite Hs. simpl. set_solver.
Qed.

Lemma run_aggregates_are_sums_over_kept_entries_witness :
  call_count
    (analyze_all_sessions sample_fromisoformat sample_json_loads
       (Some [Some ["recent"; "garbled"; "nested"; "recent"]; Some ["undated"]])
       sample_monitor)
    (KStr "Read") = 6.
Proof.
  destruct (run_aggregates_are_sums_over_kept_entries sample_fromisoformat
              sample_json_loads
              [Some ["recent"; "garbled"; "nested"; "recent"]; Some ["undated"]]
              7 1767484800000000) as (Hc & _).
  - vm_compute. tauto.
  - rewrite Hc. reflexivity.
Defined.

(** ** Negative counters *)

(** The counters of a usage object are not checked: a negative one is
    added like any other, and lowers the total of every tool the entry
    has a block of. *)
Theorem negative_counter_lowers_total
    (fromisoformat : string → option datetime) (entry : json)
    (st st' : monitor) (T : string) (c : counter) :
  retained fromisoformat entry st →
  process_entry fromisoformat entry st = (st', inr tt) →
  T ≠ "" →
  0 < count_named T (content_of (message_of entry)) →
  counter_value (usage_of (message_of entry)) c < 0 →
  tool_tokens st' (KStr T) c < tool_tokens st (KStr T) c.
Proof.
  intros Hr [_ ->]%process_entry_effect HT Hblocks Hneg; [|done].
  rewrite tool_tokens_entry, count_tools_named by done. nia.
Qed.

Lemma negative_counter_lowers_total_witness :
  ∃ st',
    process_entry sample_fromisoformat refund_entry sample_monitor = (st', inr tt) ∧
    tool_tokens st' (KStr "Read") InputTokens
    < tool_tokens sample_monitor (KStr "Read") InputTokens.
Proof.
  eexists. split; [reflexivity|].
  apply (negative_counter_lowers_total sample_fromisoformat refund_entry
           sample_monitor _ "Read" InputTokens); try reflexivity. done.
Defined.

(** * Entries outside the log schema and the data model *)

(** The statements above about a retained entry are about a call of
    [process_entry] that returns. The code checks no type and no sign:
    on the entries below a call raises part-way, or adds a negative
    counter, and the aggregates are not what the blocks of the entry
    would give. *)

(** [broken_task_entry] is retained and holds one "Read" block; the
    "Task" block before it raises, and the call count of "Read" is not
    incremented. *)
Lemma tool_call_count_stops_at_exception :
  retained sample_fromisoformat broken_task_entry sample_monitor ∧
  count_named "Read" (content_of (message_of broken_task_entry)) = 1 ∧
  (process_entry sample_fromisoformat broken_task_entry sample_monitor).2
  = inl AttributeError ∧
  call_count
    (process_entry sample_fromisoformat broken_task_entry sample_monitor).1
    (KStr "Read")
  ≠ call_count sample_monitor (KStr "Read")
    + count_named "Read" (content_of (message_of broken_task_entry)).
Proof. split_and!; [reflexivity..|]. by vm_compute. Qed.

(** [mistyped_usage_entry] is retained, has [input_tokens] = 100 and
    exactly two blocks, both "Read" calls; the input total of "Read"
    grows by 100, not by 200. *)
Lemma usage_counted_once_when_usage_raises :
  retained sample_fromisoformat mistyped_usage_entry sample_monitor ∧
  Py.get (usage_of (message_of mistyped_usage_entry)) "input_tokens" (JNum 0)
  = inr (JNum 100) ∧
  length (content_of (message_of mistyped_usage_entry)) = 2%nat ∧
  count_named "Read" (content_of (message_of mistyped_usage_entry)) = 2 ∧
  (process_entry sample_fromisoformat mistyped_usage_entry sample_monitor).2
  = inl TypeError ∧
  tool_tokens
    (process_entry sample_fromisoformat mistyped_usage_entry sample_monitor).1
    (KStr "Read") InputTokens
  = tool_tokens sample_monitor (KStr "Read") InputTokens + 100 ∧
  tool_tokens
    (process_entry sample_fromisoformat mistyped_usage_entry sample_monitor).1
    (KStr "Read") InputTokens
  ≠ tool_tokens sample_monitor (KStr "Read") InputTokens + 200.
Proof. split_and!; [reflexivity..|]. by vm_compute. Qed.

(** [refund_entry] has [input_tokens] = -5: the input total of "Read"
    decreases, to a negative value. *)
Lemma negative_counter_breaks_monotonicity :
  tool_tokens (process_entry sample_fromisoformat refund_entry sample_monitor).1
    (KStr "Read") InputTokens
  < tool_tokens sample_monitor (KStr "Read") InputTokens ∧
  tool_tokens (process_entry sample_fromisoformat refund_entry sample_monitor).1
    (KStr "Read") InputTokens
  < 0.
Proof. split; reflexivity. Qed.

(** [late_fallback_entry] is retained and holds a "Task" block with an
    empty [subagent_type] and the [agent] "reviewer"; the "Task" block
    before it raises, and "reviewer" is not counted. *)
Lemma agent_fallback_stops_at_exception :
  retained sample_fromisoformat late_fallback_entry sample_monitor ∧
  tool_use "Task" [("subagent_type", JStr ""); ("agent", JStr "reviewer")]
  ∈ content_of (message_of late_fallback_entry) ∧
  (process_entry sample_fromisoformat late_fallback_entry sample_monitor).2
  = inl AttributeError ∧
  invocations
    (process_entry sample_fromisoformat late_fallback_entry sample_monitor).1
    (KStr "reviewer")
  = invocations sample_monitor (KStr "reviewer") ∧
  agent_tokens
    (process_entry sample_fromisoformat late_fallback_entry sample_monitor).1
    (KStr "reviewer") InputTokens
  = 0.
Proof.
  split_and!; try reflexivity. simpl. right. left.
Qed.

(** After [broken_task_entry], "Task" has a call count and no token
    record: the two sets of tool names differ. *)
Lemma counted_tool_without_token_record :
  let st := process_all sample_fromisoformat [broken_task_entry] (init 7 0) in
  tool_usage st !! KStr "Task" = Some 1 ∧
  tool_token_usage st !! KStr "Task" = None ∧
  dom (tool_token_usage st) ≠ dom (tool_usage st).
Proof.
  cbv zeta.
  set (st := process_all sample_fromisoformat [broken_task_entry] (init 7 0)).
  assert (Hcount : tool_usage st !! KStr "Task" = Some 1) by reflexivity.
  assert (Htokens : tool_token_usage st !! KStr "Task" = None) by reflexivity.
  split; [done|]. split; [done|].
  intros Heq.
  assert (Hin : KStr "Task" ∈ dom (tool_usage st)) by (apply elem_of_dom; by exists 1).
  rewrite <- Heq in Hin. apply elem_of_dom in Hin as [r Hr]. congruence.
Qed.

(** * The date check, once more *)

(** C2 (the code departs from the claim). The timestamp of [naive_entry],
    "2026-01-10T12:00:00", is present and parses; the instant it names
    is after the cutoff of [sample_monitor] (2026-01-04) whatever offset
    it is read with, so the claim has the entry processed normally, as
    the same entry with "2026-01-10T12:00:00Z" is ([recent_entry]: two
    "Read" calls, one session). In the code the parser yields a naive
    [datetime], its comparison with the aware cutoff raises [TypeError],
    which is not the [ValueError] the handler catches: [process_entry]
    leaves the monitor untouched and [parse_session_file] abandons the
    rest of the file. *)
Theorem naive_timestamp_in_window_abandons_file :
  process_entry sample_fromisoformat naive_entry sample_monitor
  = (sample_monitor, inl TypeError) ∧
  call_count
    (process_entry sample_fromisoformat naive_entry sample_monitor).1 (KStr "Read")
  = 0 ∧
  (process_entry sample_fromisoformat recent_entry sample_monitor).2 = inr tt ∧
  call_count
    (process_entry sample_fromisoformat recent_entry sample_monitor).1 (KStr "Read")
  = 2 ∧
  parse_session_file sample_fromisoformat sample_json_loads
    (Some ["naive"; "recent"]) sample_monitor
  = (sample_monitor, true) ∧
  call_count
    (parse_session_file sample_fromisoformat sample_json_loads
       (Some ["recent"; "recent"]) sample_monitor).1 (KStr "Read")
  = 4.
Proof. split_and!; reflexivity. Qed.

(** The date check on a timestamp with a UTC offset, for an entry of
    the log schema. Strictly before the cutoff the call returns and
    changes nothing. At the cutoff or after it, and without a timestamp,
    the call returns with the whole effect of the entry: every tool's
    call count grows by the number of its blocks and its token totals
    by as many times the usage of the entry, every agent's invocation
    count by the number of "Task" blocks that name it, and the session
    of the entry is recorded. *)
Theorem window_decides_contribution
    (fromisoformat : string → option datetime)
    (fields : list (string * json)) (st : monitor) :
  fromisoformat "" = None →
  wf_entry (JObj fields) = true →
  let entry := JObj fields in
  let items := content_of (message_of entry) in
  let usage := counter_value (usage_of (message_of entry)) in
  (∀ s t,
     Py.dict_get fields "timestamp" = Some (JStr s) →
     fromisoformat (Py.replace_Z s) = Some (Aware t) →
     t < cutoff_date st →
     process_entry fromisoformat entry st = (st, inr tt)) ∧
  ((Py.dict_get fields "timestamp" = None ∨
    ∃ s t, Py.dict_get fields "timestamp" = Some (JStr s) ∧
           fromisoformat (Py.replace_Z s) = Some (Aware t) ∧
           cutoff_date st ≤ t) →
   ∃ st',
     process_entry fromisoformat entry st = (st', inr tt) ∧
     (∀ T, T ≠ "" →
        call_count st' (KStr T) = call_count st (KStr T) + count_named T items ∧
        ∀ c, tool_tokens st' (KStr T) c
             = tool_tokens st (KStr T) c + count_named T items * usage c) ∧
     (∀ a, invocations st' a = invocations st a + count_agents a items ∧
           ∀ c, agent_tokens st' a c
                = agent_tokens st a c + count_agents a items * usage c) ∧
     sessions_analyzed st'
     = match session_key (session_of entry) with
       | Some s => {[s]} ∪ sessions_analyzed st
       | None => sessions_analyzed st
       end).
Proof.
  intros Hempty Hwf. cbv zeta.
  assert (Hne : ∀ s t, fromisoformat (Py.replace_Z s) = Some (Aware t) → s ≠ "").
  { intros s t Hparse ->. simpl in Hparse. congruence. }
  split.
  - intros s t Hts Hparse Hlt. unfold process_entry, bind.
    rewrite (before_cutoff_aware fromisoformat fields s t) by eauto.
    by rewrite (proj2 (Z.ltb_lt _ _) Hlt).
  - intros Hin.
    assert (Hr : retained fromisoformat (JObj fields) st).
    { destruct Hin as [Hts | (s & t & Hts & Hparse & Hle)].
      - by apply before_cutoff_absent.
      - unfold retained.
        rewrite (before_cutoff_aware fromisoformat fields s t) by eauto.
        by rewrite (proj2 (Z.ltb_ge _ _) Hle). }
    pose proof (wf_entry_items (JObj fields) Hwf) as Hitems.
    exists (entry_effect (JObj fields) st).
    split; [by apply process_entry_run|]. split; [|split].
    + intros T HT. rewrite call_count_entry, count_tools_named by done.
      split; [done|]. intros c.
      by rewrite tool_tokens_entry, count_tools_named.
    + intros a. rewrite invocations_entry by done. split; [done|]. intros c.
      by rewrite agent_tokens_entry.
    + apply sessions_analyzed_entry.
Qed.

Lemma window_decides_contribution_witness :
  process_entry sample_fromisoformat old_entry sample_monitor
  = (sample_monitor, inr tt) ∧
  ∃ st',
    process_entry sample_fromisoformat recent_entry sample_monitor = (st', inr tt) ∧
    call_count st' (KStr "Read") = 2 ∧
    tool_tokens st' (KStr "Read") OutputTokens = 14 ∧
    invocations st' (KStr "reviewer") = 1.
Proof.
  split.
  - apply (window_decides_contribution sample_fromisoformat
             (sample_fields [("timestamp", JStr "2026-01-01T00:00:00Z")])
             sample_monitor eq_refl eq_refl)
      with (s := "2026-01-01T00:00:00Z") (t := 1767225600000000);
      [reflexivity | reflexivity | simpl; lia].
  - destruct (window_decides_contribution sample_fromisoformat
                (sample_fields [("timestamp", JStr "2026-01-10T12:00:00Z")])
                sample_monitor eq_refl eq_refl) as [_ Hin].
    destruct Hin as (st' & Hrun & Htools & Hagents & _).
    { right. exists "2026-01-10T12:00:00Z", 1768046400000000.
      split; [reflexivity|]. split; [reflexivity|]. simpl. lia. }
    exists st'. split; [exact Hrun|].
    destruct (Htools "Read") as [Hcalls Htokens]; [done|].
    destruct (Hagents (KStr "reviewer")) as [Hinv _].
    rewrite Hcalls, (Htokens OutputTokens), Hinv. split_and!; reflexivity.
Defined.

(** * The rounding of the cost estimate *)

(** ** Powers of two and binary digits *)

Lemma pow2_pos e : (0 < pow2 e)%Q.
Proof. apply Qpower_0_lt. reflexivity. Qed.

Lemma pow2_add a b : (pow2 (a + b) == pow2 a * pow2 b)%Q.
Proof. apply Qpower_plus. discriminate. Qed.

Lemma pow2_Z n : 0 <= n -> (pow2 n == inject_Z (2 ^ n))%Q.
Proof. intros Hn. unfold pow2. rewrite Zpower_Qpower by exact Hn. reflexivity. Qed.

Lemma pow2_1 : (pow2 1 == 2)%Q.
Proof. reflexivity. Qed.

Lemma pow2_le a b : a <= b -> (pow2 a <= pow2 b)%Q.
Proof. intros H. apply Qpower_le_compat_l; [exact H|]. discriminate. Qed.

Lemma pow2_lt a b : a < b -> (pow2 a < pow2 b)%Q.
Proof. intros H. apply Qpower_lt_compat_l; [exact H|]. reflexivity. Qed.

(** [digits2_pos p] is the number of binary digits of [p]. *)
Lemma digits2_pos_bounds (p : positive) :
  2 ^ (Zpos (digits2_pos p) - 1) <= Zpos p < 2 ^ Zpos (digits2_pos p).
Proof.
  induction p as [p IH|p IH|]; simpl digits2_pos.
  - rewrite Pos2Z.inj_succ.
    replace (Z.succ (Zpos (digits2_pos p)) - 1)
      with (Z.succ (Zpos (digits2_pos p) - 1)) by lia.
    rewrite !Z.pow_succ_r by lia. lia.
  - rewrite Pos2Z.inj_succ.
    replace (Z.succ (Zpos (digits2_pos p)) - 1)
      with (Z.succ (Zpos (digits2_pos p) - 1)) by lia.
    rewrite !Z.pow_succ_r by lia. lia.
  - simpl. lia.
Qed.

Lemma digits2_pos_unique (p : positive) (k : Z) :
  2 ^ (k - 1) <= Zpos p < 2 ^ k -> Zpos (digits2_pos p) = k.
Proof.
  intros [Hlo Hhi]. pose proof (digits2_pos_bounds p) as [Hlo' Hhi'].
  assert (0 < k).
  { destruct (Z.ltb_spec 0 k); [assumption|].
    rewrite (Z.pow_neg_r 2 (k - 1)) in Hlo by lia.
    assert (2 ^ k <= 1); [|lia].
    destruct (Z.eq_dec k 0) as [->|]; [simpl; lia|].
    rewrite Z.pow_neg_r by lia. lia. }
  set (d := Zpos (digits2_pos p)) in *.
  destruct (Z.lt_trichotomy d k) as [Hlt|[Heq|Hgt]]; [|exact Heq|].
  - assert (2 ^ d <= 2 ^ (k - 1)) by (apply Z.pow_le_mono_r; lia). lia.
  - assert (2 ^ k <= 2 ^ (d - 1)) by (apply Z.pow_le_mono_r; lia). lia.
Qed.

(** ** Shifting and rounding a located value *)

Lemma located_eq y y' mrs : (y == y')%Q -> located y mrs -> located y' mrs.
Proof.
  intros Heq [Hm H]. split; [exact Hm|].
  destruct (shr_r mrs), (shr_s mrs); lra.
Qed.

Lemma inject_Z_xI p : (inject_Z (Zpos p~1) == 2 * inject_Z (Zpos p) + 1)%Q.
Proof. rewrite Pos2Z.inj_xI, inject_Z_plus, inject_Z_mult. reflexivity. Qed.

Lemma inject_Z_xO p : (inject_Z (Zpos p~0) == 2 * inject_Z (Zpos p))%Q.
Proof. rewrite Pos2Z.inj_xO, inject_Z_mult. reflexivity. Qed.

Lemma shr_1_located y mrs : located y mrs -> located (y * (1 # 2)) (shr_1 mrs).
Proof.
  destruct mrs as [m r s]. intros [Hm H]. simpl in Hm, H.
  destruct m as [|p|p]; [| |lia].
  - unfold shr_1. split; [simpl; lia|]. simpl.
    change (inject_Z 0) with 0%Q in *.
    destruct r, s; simpl; lra.
  - destruct p as [p|p|]; unfold shr_1; (split; [simpl; lia|]); simpl.
    + pose proof (inject_Z_xI p) as Hp. destruct r, s; simpl; lra.
    + pose proof (inject_Z_xO p) as Hp. destruct r, s; simpl; lra.
    + change (inject_Z 1) with 1%Q in *. change (inject_Z 0) with 0%Q.
      destruct r, s; simpl; lra.
Qed.

Lemma pow2_m1 : (pow2 (-1) == 1 # 2)%Q.
Proof. reflexivity. Qed.

Lemma pow2_neg_xO p : (pow2 (Zneg p~0) == pow2 (Zneg p) * pow2 (Zneg p))%Q.
Proof.
  rewrite <- pow2_add. replace (Zneg p~0) with (Zneg p + Zneg p) by lia. reflexivity.
Qed.

Lemma pow2_neg_xI p : (pow2 (Zneg p~1) == (1 # 2) * (pow2 (Zneg p) * pow2 (Zneg p)))%Q.
Proof.
  replace (Zneg p~1) with (-1 + (Zneg p + Zneg p)) by lia.
  rewrite !pow2_add. rewrite pow2_m1. reflexivity.
Qed.

Lemma iter_shr_located p y mrs :
  located y mrs -> located (y * pow2 (Zneg p)) (SpecFloat.iter_pos shr_1 p mrs).
Proof.
  revert y mrs. induction p as [p IH|p IH|]; intros y mrs H; simpl iter_pos.
  - apply (located_eq (y * (1 # 2) * pow2 (Zneg p) * pow2 (Zneg p))).
    + rewrite pow2_neg_xI. ring.
    + apply IH, IH, shr_1_located, H.
  - apply (located_eq (y * pow2 (Zneg p) * pow2 (Zneg p))).
    + rewrite pow2_neg_xO. ring.
    + apply IH, IH, H.
  - apply (located_eq (y * (1 # 2))); [|apply shr_1_located, H].
    rewrite pow2_m1. reflexivity.
Qed.

Lemma shr_located y mrs e n :
  located y mrs ->
  let '(mrs', e') := shr mrs e n in
  e' = e + Z.max n 0 /\ located (y * pow2 (- Z.max n 0)) mrs'.
Proof.
  intros H. destruct n as [|p|p]; simpl.
  - split; [lia|]. apply (located_eq y); [|exact H]. unfold pow2. simpl. ring.
  - split; [reflexivity|]. apply iter_shr_located, H.
  - split; [lia|]. apply (located_eq y); [|exact H]. unfold pow2. simpl. ring.
Qed.

Lemma located_of_loc y m l :
  located y (shr_record_of_loc m l) ->
  loc_of_shr_record (shr_record_of_loc m l) = l.
Proof. intros _. destruct l as [|[]]; reflexivity. Qed.

Lemma round_nearest_even_located y mrs :
  located y mrs ->
  let m2 := round_nearest_even (shr_m mrs) (loc_of_shr_record mrs) in
  shr_m mrs <= m2 <= shr_m mrs + 1 /\
  (- (1 # 2) <= inject_Z m2 - y <= (1 # 2))%Q /\
  (shr_r mrs = false -> shr_s mrs = false -> (inject_Z m2 == y)%Q).
Proof.
  destruct mrs as [m r s]. intros [Hm H]. simpl in *.
  destruct r, s; simpl.
  - rewrite inject_Z_plus. change (inject_Z 1) with 1%Q. split; [lia|]. split; [lra|]. discriminate.
  - destruct (Z.even m); [|rewrite inject_Z_plus; change (inject_Z 1) with 1%Q];
      (split; [lia|]); (split; [lra|]); discriminate.
  - split; [lia|]. split; [lra|]. discriminate.
  - split; [lia|]. split; [lra|]. intros _ _. lra.
Qed.

Lemma located_bounds y mrs :
  located y mrs -> (inject_Z (shr_m mrs) <= y /\ y < inject_Z (shr_m mrs) + 1)%Q.
Proof. intros [_ H]. destruct (shr_r mrs), (shr_s mrs); lra. Qed.

Lemma inject_Z_lt a b : (inject_Z a < inject_Z b)%Q -> a < b.
Proof. intros H. rewrite Zlt_Qlt. exact H. Qed.

Lemma inject_Z_le a b : (inject_Z a <= inject_Z b)%Q -> a <= b.
Proof. intros H. rewrite Zle_Qle. exact H. Qed.

Lemma fexp_normal e : -1021 <= e -> fexp 53 1024 e = e - 53.
Proof. intros H. unfold fexp, emin. lia. Qed.

Lemma shr_record_of_loc_m m l : shr_m (shr_record_of_loc m l) = m.
Proof. destruct l as [|[]]; reflexivity. Qed.

(** Rounding to nearest, ties to even: a mantissa of at least 53 digits
    that locates [x] at exponent [ex], in the range of the normal
    numbers, rounds to a float with a 53-digit mantissa whose value is
    within the relative error [u53] of [x]. *)
Lemma round_aux_spec (s : bool) (mx : positive) (ex : Z) (l : location) (x : Q) :
  located (x * pow2 (- ex)) (shr_record_of_loc (Zpos mx) l) ->
  53 <= Zpos (digits2_pos mx) ->
  -1021 <= Zpos (digits2_pos mx) + ex <= 1023 ->
  exists m e,
    binary_round_aux 53 1024 s (Zpos mx) ex l = S754_finite s m e /\
    2 ^ 52 <= Zpos m < 2 ^ 53 /\
    ex + Zpos (digits2_pos mx) - 53 <= e <= ex + Zpos (digits2_pos mx) - 52 /\
    ((1 - u53) * x <= inject_Z (Zpos m) * pow2 e <= (1 + u53) * x)%Q.
Proof.
  intros Hloc Hd Hrange.
  set (d := Zpos (digits2_pos mx)) in *.
  unfold binary_round_aux, shr_fexp. simpl Zdigits2. fold d.
  rewrite fexp_normal by lia.
  replace (d + ex - 53 - ex) with (d - 53) by lia.
  pose proof (shr_located _ _ ex (d - 53) Hloc) as H1.
  destruct (shr (shr_record_of_loc (Zpos mx) l) ex (d - 53)) as [mrs1 e1].
  destruct H1 as [He1 Hloc1].
  rewrite Z.max_l in He1, Hloc1 by lia.
  set (y := (x * pow2 (- ex))%Q) in *.
  set (y1 := (y * pow2 (- (d - 53)))%Q) in *.
  (* bounds on y and y1 *)
  pose proof (located_bounds _ _ Hloc) as [Hy_lo Hy_hi].
  rewrite shr_record_of_loc_m in Hy_lo, Hy_hi.
  pose proof (digits2_pos_bounds mx) as [Hmx_lo Hmx_hi]. fold d in Hmx_lo, Hmx_hi.
  assert (Hy1_lo : (pow2 52 <= y1)%Q).
  { unfold y1.
    assert (pow2 52 == pow2 (d - 1) * pow2 (- (d - 53)))%Q as ->
      by (rewrite <- pow2_add; replace (d - 1 + - (d - 53)) with 52 by lia; reflexivity).
    apply Qmult_le_compat_r; [|apply Qlt_le_weak, pow2_pos].
    rewrite pow2_Z by lia. apply Qle_trans with (inject_Z (Zpos mx)); [|exact Hy_lo].
    rewrite <- Zle_Qle. exact Hmx_lo. }
  assert (Hy1_hi : (y1 < pow2 53)%Q).
  { unfold y1.
    assert (pow2 53 == pow2 d * pow2 (- (d - 53)))%Q as ->
      by (rewrite <- pow2_add; replace (d + - (d - 53)) with 53 by lia; reflexivity).
    apply Qmult_lt_compat_r; [apply pow2_pos|].
    rewrite pow2_Z by lia. apply Qlt_le_trans with (inject_Z (Zpos mx) + 1)%Q; [exact Hy_hi|].
    change 1%Q with (inject_Z 1). rewrite <- inject_Z_plus, <- Zle_Qle. lia. }
  pose proof (located_bounds _ _ Hloc1) as [Hm1_lo Hm1_hi].
  set (m1 := shr_m mrs1) in *.
  assert (Hm1 : 2 ^ 52 <= m1 < 2 ^ 53).
  { split.
    - assert (inject_Z (2 ^ 52) < inject_Z (m1 + 1))%Q as H%inject_Z_lt; [|lia].
      rewrite inject_Z_plus. change (inject_Z 1) with 1%Q.
      rewrite <- pow2_Z by lia. lra.
    - apply inject_Z_lt. rewrite <- pow2_Z by lia. lra. }
  pose proof (round_nearest_even_located _ _ Hloc1) as (Hm2 & Herr & _).
  fold m1 in Hm2, Herr.
  set (m2 := round_nearest_even m1 (loc_of_shr_record mrs1)) in *.
  (* x in terms of y1 *)
  assert (Hx : (x == y1 * pow2 e1)%Q).
  { unfold y1, y. subst e1.
    rewrite <- !Qmult_assoc, <- !pow2_add.
    replace (- ex + (- (d - 53) + (ex + (d - 53)))) with 0 by lia.
    unfold pow2. simpl. ring. }
  assert (Hhalf : (u53 * pow2 52 == 1 # 2)%Q).
  { unfold u53. rewrite <- pow2_add. reflexivity. }
  pose proof (pow2_pos e1) as HP.
  assert (Hbound : ((1 - u53) * x <= inject_Z m2 * pow2 e1 <= (1 + u53) * x)%Q).
  { rewrite Hx. set (P := pow2 e1) in *. set (M := inject_Z m2) in *.
    assert (0 <= u53)%Q by (apply Qlt_le_weak, pow2_pos).
    assert ((1 # 2) <= u53 * y1)%Q.
    { nra. }
    split; nra. }
  destruct (Z.eq_dec m2 (2 ^ 53)) as [Heq|Hne].
  - (* carry *)
    rewrite Heq in *.
    change (Zdigits2 (2 ^ 53)) with 54.
    rewrite fexp_normal by lia.
    replace (54 + e1 - 53 - e1) with 1 by lia.
    cbn -[Z.leb Z.sub Z.add pow2].
    replace (e1 + 1 <=? 1024 - 53) with true by (symmetry; apply Z.leb_le; lia).
    exists (4503599627370496%positive), (e1 + 1). split; [reflexivity|].
    split; [lia|]. split; [lia|].
    assert (inject_Z (Zpos 4503599627370496) * pow2 (e1 + 1)
            == inject_Z (2 ^ 53) * pow2 e1)%Q as ->; [|exact Hbound].
    rewrite pow2_add, pow2_1.
    change (inject_Z (Z.pos 4503599627370496)) with (4503599627370496 # 1)%Q.
    change (inject_Z (2 ^ 53)) with (9007199254740992 # 1)%Q. ring.
  - destruct m2 as [|p2|p2] eqn:Hp2; [lia| |lia].
    assert (Hd2 : Zpos (digits2_pos p2) = 53) by (apply digits2_pos_unique; lia).
    simpl Zdigits2. rewrite Hd2.
    rewrite fexp_normal by lia.
    replace (53 + e1 - 53 - e1) with 0 by lia.
    cbn -[Z.leb Z.sub Z.add pow2].
    replace (e1 <=? 1024 - 53) with true by (symmetry; apply Z.leb_le; lia).
    exists p2, e1. split; [reflexivity|]. split; [lia|]. split; [lia|].
    exact Hbound.
Qed.

(** ** The product of two binary64 values *)
Lemma digits2_pos_mul mx my :
  2 ^ 52 <= Zpos mx < 2 ^ 53 -> 2 ^ 52 <= Zpos my < 2 ^ 53 ->
  105 <= Zpos (digits2_pos (mx * my)) <= 106.
Proof.
  intros Hx Hy.
  pose proof (digits2_pos_bounds (mx * my)) as [Hlo Hhi].
  set (d := Zpos (digits2_pos (mx * my))) in *.
  rewrite Pos2Z.inj_mul in Hlo, Hhi.
  assert (H1 : 2 ^ 104 <= Zpos mx * Zpos my) by (change (2 ^ 104) with (2 ^ 52 * 2 ^ 52); nia).
  assert (H2 : Zpos mx * Zpos my < 2 ^ 106) by (change (2 ^ 106) with (2 ^ 53 * 2 ^ 53); nia).
  split.
  - destruct (Z.le_gt_cases 105 d) as [|Hlt]; [assumption|].
    assert (2 ^ d <= 2 ^ 104) by (apply Z.pow_le_mono_r; lia). lia.
  - destruct (Z.le_gt_cases d 106) as [|Hgt]; [assumption|].
    assert (2 ^ 106 <= 2 ^ (d - 1)) by (apply Z.pow_le_mono_r; lia). lia.
Qed.

(** [x * y] on two positive normal floats. *)
Lemma mul_spec mx ex my ey :
  2 ^ 52 <= Zpos mx < 2 ^ 53 -> 2 ^ 52 <= Zpos my < 2 ^ 53 ->
  -1000 <= ex + ey <= 900 ->
  exists m e,
    SFmul 53 1024 (S754_finite false mx ex) (S754_finite false my ey)
    = S754_finite false m e /\
    2 ^ 52 <= Zpos m < 2 ^ 53 /\
    ex + ey + 52 <= e <= ex + ey + 54 /\
    ((1 - u53) * (inject_Z (Zpos mx) * pow2 ex * (inject_Z (Zpos my) * pow2 ey))
     <= inject_Z (Zpos m) * pow2 e
     <= (1 + u53) * (inject_Z (Zpos mx) * pow2 ex * (inject_Z (Zpos my) * pow2 ey)))%Q.
Proof.
  intros Hx Hy He. simpl SFmul.
  pose proof (digits2_pos_mul mx my Hx Hy) as Hd.
  destruct (round_aux_spec false (mx * my) (ex + ey) loc_Exact
              (inject_Z (Zpos mx) * pow2 ex * (inject_Z (Zpos my) * pow2 ey)))
    as (m & e & Hr & Hm & Hexp & Hb).
  - split; [simpl; lia|]. simpl.
    rewrite Pos2Z.inj_mul, inject_Z_mult.
    assert (pow2 ex * pow2 ey * pow2 (- (ex + ey)) == 1)%Q as Hone.
    { rewrite <- !pow2_add. replace (ex + ey + - (ex + ey)) with 0 by lia. reflexivity. }
    transitivity (inject_Z (Zpos mx) * inject_Z (Zpos my)
                  * (pow2 ex * pow2 ey * pow2 (- (ex + ey))))%Q;
      [ring | rewrite Hone; ring].
  - lia.
  - lia.
  - exists m, e. split; [exact Hr|]. split; [exact Hm|]. split; [lia|]. exact Hb.
Qed.

(** ** The quotient of two integers *)
(** The remainder of the integer division locates the quotient. *)
Lemma new_location_located (q r b : Z) :
  0 <= q -> 0 <= r < b ->
  located (inject_Z q + inject_Z r / inject_Z b)
    (shr_record_of_loc q (new_location b r)).
Proof.
  intros Hq Hr.
  assert (HB : (0 < inject_Z b)%Q) by (change 0%Q with (inject_Z 0); rewrite <- Zlt_Qlt; lia).
  assert (HR : (0 <= inject_Z r)%Q) by (change 0%Q with (inject_Z 0); rewrite <- Zle_Qle; lia).
  set (t := (inject_Z r / inject_Z b)%Q).
  assert (Ht : (t * inject_Z b == inject_Z r)%Q).
  { unfold t. field. intros H0. rewrite H0 in HB. apply (Qlt_irrefl _ HB). }
  assert (Hlt : forall x y : Z, x < y -> (inject_Z x < inject_Z y)%Q)
    by (intros x y H; rewrite <- Zlt_Qlt; exact H).
  assert (H2 : (inject_Z (2 * r) == 2 * inject_Z r)%Q) by (rewrite inject_Z_mult; reflexivity).
  assert (H21 : (inject_Z (2 * r + 1) == 2 * inject_Z r + 1)%Q)
    by (rewrite inject_Z_plus, inject_Z_mult; reflexivity).
  assert (Hrb : (inject_Z r < inject_Z b)%Q) by (apply Hlt; lia).
  split; [rewrite shr_record_of_loc_m; lia|].
  unfold new_location.
  destruct (Z.even b) eqn:Heven;
    unfold new_location_even, new_location_odd;
    (destruct (Z.eqb_spec r 0) as [Hr0|Hr0];
     [ assert (t == 0)%Q as Ht0
         by (unfold t; rewrite Hr0; change (inject_Z 0) with 0%Q; unfold Qdiv; ring);
       simpl; rewrite Ht0; ring
     | assert (Hrpos : (0 < inject_Z r)%Q)
         by (change 0%Q with (inject_Z 0); rewrite <- Zlt_Qlt; lia);
       assert (Htpos : (0 < t)%Q) by nra ]).
  - destruct (Z.compare_spec (2 * r) b) as [Heq|Hc|Hc]; simpl.
    + assert (2 * inject_Z r == inject_Z b)%Q by (rewrite <- H2, Heq; reflexivity).
      assert (t <= 1 # 2)%Q by nra. assert ((1 # 2) <= t)%Q by nra.
      apply Qle_antisym; lra.
    + apply Hlt in Hc. rewrite H2 in Hc. assert (t < 1 # 2)%Q by nra. lra.
    + apply Hlt in Hc. rewrite H2 in Hc.
      assert ((1 # 2) < t)%Q by nra. assert (t < 1)%Q by nra. lra.
  - assert (Hodd : 2 * r <> b).
    { intros <-. rewrite Z.even_mul in Heven. discriminate. }
    destruct (Z.compare_spec (2 * r + 1) b) as [Heq|Hc|Hc]; simpl.
    + assert (2 * inject_Z r + 1 == inject_Z b)%Q by (rewrite <- H21, Heq; reflexivity).
      assert (t < 1 # 2)%Q by nra. lra.
    + apply Hlt in Hc. rewrite H21 in Hc. assert (t < 1 # 2)%Q by nra. lra.
    + assert (Hc' : b < 2 * r) by lia.
      apply Hlt in Hc'. rewrite H2 in Hc'.
      assert ((1 # 2) < t)%Q by nra. assert (t < 1)%Q by nra. lra.
Qed.

(** [a / b] on two positive [int]s, [a] below [b * 2^53]. *)
Lemma truediv_spec (a b : positive) :
  Zpos (digits2_pos a) < Zpos (digits2_pos b) + 53 ->
  Zpos (digits2_pos b) <= 1000 ->
  exists m e,
    Float.truediv (Zpos a) (Zpos b) = inr (S754_finite false m e) /\
    2 ^ 52 <= Zpos m < 2 ^ 53 /\
    Zpos (digits2_pos a) - Zpos (digits2_pos b) - 53 <= e
      <= Zpos (digits2_pos a) - Zpos (digits2_pos b) - 51 /\
    ((1 - u53) * (inject_Z (Zpos a) / inject_Z (Zpos b))
     <= inject_Z (Zpos m) * pow2 e
     <= (1 + u53) * (inject_Z (Zpos a) / inject_Z (Zpos b)))%Q.
Proof.
  intros Hdab Hdb.
  pose proof (digits2_pos_bounds a) as [Ha_lo Ha_hi].
  pose proof (digits2_pos_bounds b) as [Hb_lo Hb_hi].
  set (da := Zpos (digits2_pos a)) in *. set (db := Zpos (digits2_pos b)) in *.
  assert (Hda : 1 <= da) by (unfold da; lia).
  assert (Hdb1 : 1 <= db) by (unfold db; lia).
  unfold Float.truediv.
  change (Z.pos b =? 0) with false. change (Z.pos a =? 0) with false.
  change (xorb (Z.pos a <? 0) (Z.pos b <? 0)) with false.
  cbv iota. change (Z.abs (Z.pos a)) with (Z.pos a). change (Z.abs (Z.pos b)) with (Z.pos b).
  unfold SFdiv_core_binary, Float.prec, Float.emax.
  change (Zdigits2 (Z.pos a)) with da. change (Zdigits2 (Z.pos b)) with db.
  replace (da + 0 - (db + 0)) with (da - db) by lia.
  rewrite fexp_normal by lia.
  replace (Z.min (da - db - 53) (0 - 0)) with (da - db - 53) by lia.
  set (s := 53 + db - da).
  replace (0 - 0 - (da - db - 53)) with s by (unfold s; lia).
  assert (Hs : 0 < s) by (unfold s; lia).
  assert (Hm' : match s with
                | Z.pos _ => Z.shiftl (Z.pos a) s
                | 0 => Z.pos a
                | Z.neg _ => 0
                end = Z.pos a * 2 ^ s).
  { destruct s; [lia| |lia]. apply Z.shiftl_mul_pow2. lia. }
  rewrite Hm'. clear Hm'.
  pose proof (Z_div_mod (Z.pos a * 2 ^ s) (Z.pos b) eq_refl) as Hdiv.
  destruct (Z.div_eucl (Z.pos a * 2 ^ s) (Z.pos b)) as [q r].
  destruct Hdiv as [Hdiv Hr].
  assert (HS : 0 < 2 ^ s) by (apply Z.pow_pos_nonneg; lia).
  assert (HAS : 2 ^ (da - 1) * 2 ^ s = 2 ^ 53 * 2 ^ (db - 1)).
  { rewrite <- !Z.pow_add_r by lia. f_equal. unfold s. lia. }
  assert (Hdb2 : 2 ^ db = 2 * 2 ^ (db - 1)).
  { replace db with (1 + (db - 1)) at 1 by lia. rewrite Z.pow_add_r by lia. reflexivity. }
  assert (Hda2 : 2 ^ da = 2 * 2 ^ (da - 1)).
  { replace da with (1 + (da - 1)) at 1 by lia. rewrite Z.pow_add_r by lia. reflexivity. }
  set (A := 2 ^ (da - 1)) in *. set (B := 2 ^ (db - 1)) in *. set (P := 2 ^ s) in *.
  assert (HB : 0 < B) by (apply Z.pow_pos_nonneg; lia).
  assert (Hq_lo : 2 ^ 52 <= q).
  { assert (Z.pos b * 2 ^ 52 < Z.pos b * (q + 1)); [|nia].
    assert (A * P <= Z.pos a * P) by nia. nia. }
  assert (Hq_hi : q < 2 ^ 54).
  { assert (Z.pos b * q < Z.pos b * 2 ^ 54); [|nia].
    assert (Z.pos a * P < 2 * A * P) by nia. nia. }
  destruct q as [|pq|pq]; [lia| |lia].
  pose proof (digits2_pos_bounds pq) as [Hpq_lo Hpq_hi].
  set (dq := Z.pos (digits2_pos pq)) in *.
  assert (Hdq : 53 <= dq <= 54).
  { split.
    - destruct (Z.le_gt_cases 53 dq) as [|Hlt]; [assumption|].
      assert (2 ^ dq <= 2 ^ 52) by (apply Z.pow_le_mono_r; lia). lia.
    - destruct (Z.le_gt_cases dq 54) as [|Hgt]; [assumption|].
      assert (2 ^ 54 <= 2 ^ (dq - 1)) by (apply Z.pow_le_mono_r; lia). lia. }
  set (x := (inject_Z (Z.pos a) / inject_Z (Z.pos b))%Q).
  destruct (round_aux_spec false pq (da - db - 53) (new_location (Z.pos b) r) x)
    as (m & e & Hround & Hm & He & Hbound).
  - apply located_eq with (inject_Z (Z.pos pq) + inject_Z r / inject_Z (Z.pos b))%Q;
      [|apply new_location_located; lia].
    replace (- (da - db - 53)) with s by (unfold s; lia).
    rewrite pow2_Z by lia. fold P.
    assert (HQ : (inject_Z (Z.pos a) * inject_Z P
                  == inject_Z (Z.pos b) * inject_Z (Z.pos pq) + inject_Z r)%Q).
    { rewrite <- !inject_Z_mult, <- inject_Z_plus, Hdiv. reflexivity. }
    assert (Hb0 : ~ (inject_Z (Z.pos b) == 0)%Q) by discriminate.
    unfold x.
    transitivity ((inject_Z (Z.pos b) * inject_Z (Z.pos pq) + inject_Z r) / inject_Z (Z.pos b))%Q;
      [field; exact Hb0 | rewrite <- HQ; field; exact Hb0].
  - fold dq. lia.
  - fold dq. lia.
  - fold dq in He. exists m, e. rewrite Hround.
    split; [reflexivity|]. split; [exact Hm|]. split; [lia|]. exact Hbound.
Qed.

(** ** The sum of two binary64 values *)
Lemma iter_xO_value (m d : positive) :
  Zpos (Pos.iter xO m d) = Zpos m * 2 ^ Zpos d.
Proof.
  induction d as [|d IH] using Pos.peano_ind.
  - simpl. lia.
  - rewrite Pos.iter_succ, Pos2Z.inj_succ, Z.pow_succ_r by lia.
    rewrite Pos2Z.inj_xO, IH. lia.
Qed.

Lemma shl_align_fst mx ex ez :
  ez <= ex -> Zpos (fst (shl_align mx ex ez)) = Zpos mx * 2 ^ (ex - ez).
Proof.
  intros H. unfold shl_align. destruct (ez - ex) as [|p|p] eqn:Hd; simpl fst.
  - replace (ex - ez) with 0 by lia. lia.
  - lia.
  - rewrite iter_xO_value. f_equal. f_equal. lia.
Qed.

Lemma shl_align_id mx ex e' : ex <= e' -> shl_align mx ex e' = (mx, ex).
Proof. intros H. unfold shl_align. destruct (e' - ex) eqn:Hd; [reflexivity|reflexivity|lia]. Qed.

(** [x + y] on two positive normal floats. *)
Lemma add_spec mx ex my ey :
  2 ^ 52 <= Zpos mx < 2 ^ 53 -> 2 ^ 52 <= Zpos my < 2 ^ 53 ->
  -1000 <= ex <= 900 -> -1000 <= ey <= 900 ->
  exists m e,
    SFadd 53 1024 (S754_finite false mx ex) (S754_finite false my ey)
    = S754_finite false m e /\
    2 ^ 52 <= Zpos m < 2 ^ 53 /\
    Z.max ex ey <= e <= Z.max ex ey + 2 /\
    ((1 - u53) * (inject_Z (Zpos mx) * pow2 ex + inject_Z (Zpos my) * pow2 ey)
     <= inject_Z (Zpos m) * pow2 e
     <= (1 + u53) * (inject_Z (Zpos mx) * pow2 ex + inject_Z (Zpos my) * pow2 ey))%Q.
Proof.
  intros Hx Hy Hex Hey. unfold SFadd, cond_Zopp.
  set (ez := Z.min ex ey). set (K := Z.max ex ey - ez).
  rewrite !shl_align_fst by (unfold ez; lia).
  assert (Hkx : 0 <= ex - ez <= K) by (unfold K, ez; lia).
  assert (Hky : 0 <= ey - ez <= K) by (unfold K, ez; lia).
  assert (HPx : 0 < 2 ^ (ex - ez) <= 2 ^ K)
    by (split; [apply Z.pow_pos_nonneg; lia | apply Z.pow_le_mono_r; lia]).
  assert (HPy : 0 < 2 ^ (ey - ez) <= 2 ^ K)
    by (split; [apply Z.pow_pos_nonneg; lia | apply Z.pow_le_mono_r; lia]).
  assert (HK : 2 ^ (ex - ez) = 2 ^ K \/ 2 ^ (ey - ez) = 2 ^ K).
  { destruct (Z.le_ge_cases ex ey); [right|left]; f_equal; unfold K, ez; lia. }
  set (Px := 2 ^ (ex - ez)) in *. set (Py := 2 ^ (ey - ez)) in *.
  remember (Z.pos mx * Px + Z.pos my * Py) as M eqn:HMeq.
  assert (HM_lo : 2 ^ 52 * 2 ^ K <= M) by (rewrite HMeq; destruct HK as [<-|<-]; nia).
  assert (HM_hi : M < 2 ^ 54 * 2 ^ K) by (rewrite HMeq; nia).
  assert (HPK : 0 < 2 ^ K) by lia.
  destruct M as [|pm|pm]; [lia| |lia].
  unfold binary_normalize, binary_round.
  pose proof (digits2_pos_bounds pm) as [Hpm_lo Hpm_hi].
  set (dm := Z.pos (digits2_pos pm)) in *.
  rewrite <- !Z.pow_add_r in HM_lo, HM_hi by lia.
  assert (Hdm : 53 + K <= dm <= 54 + K).
  { split.
    - destruct (Z.le_gt_cases (53 + K) dm) as [|Hlt]; [assumption|].
      assert (2 ^ dm <= 2 ^ (52 + K)) by (apply Z.pow_le_mono_r; lia). lia.
    - destruct (Z.le_gt_cases dm (54 + K)) as [|Hgt]; [assumption|].
      assert (2 ^ (54 + K) <= 2 ^ (dm - 1)) by (apply Z.pow_le_mono_r; lia). lia. }
  assert (Hez : -1000 <= ez <= 900) by (unfold ez; lia).
  assert (HKez : K + ez = Z.max ex ey) by (unfold K; lia).
  rewrite fexp_normal by lia.
  rewrite shl_align_id by lia.
  set (x := (inject_Z (Z.pos mx) * pow2 ex + inject_Z (Z.pos my) * pow2 ey)%Q).
  destruct (round_aux_spec false pm ez loc_Exact x)
    as (m & e & Hround & Hm & He & Hbound).
  - split; [simpl; lia|]. simpl. rewrite HMeq. unfold x.
    rewrite inject_Z_plus, !inject_Z_mult. unfold Px, Py.
    rewrite <- !pow2_Z by lia.
    replace (ex - ez) with (ex + - ez) by lia.
    replace (ey - ez) with (ey + - ez) by lia.
    rewrite !pow2_add. ring.
  - fold dm. lia.
  - fold dm. lia.
  - fold dm in He. exists m, e. split; [exact Hround|]. split; [exact Hm|].
    split; [lia|]. exact Hbound.
Qed.

(** ** Approximations and their composition *)

Lemma digits2_pos_le (p : positive) (n : Z) :
  0 <= n -> Z.pos p < 2 ^ n -> Z.pos (digits2_pos p) <= n.
Proof.
  intros Hn Hp. pose proof (digits2_pos_bounds p) as [Hlo _].
  destruct (Z.le_gt_cases (Z.pos (digits2_pos p)) n) as [|Hgt]; [assumption|].
  assert (2 ^ n <= 2 ^ (Z.pos (digits2_pos p) - 1)) by (apply Z.pow_le_mono_r; lia).
  lia.
Qed.

Lemma u53_bounds : (0 < u53 /\ u53 < 1)%Q.
Proof. split; reflexivity. Qed.

Lemma Qmult_mono (a b c d : Q) :
  (0 <= a -> a <= b -> 0 <= c -> c <= d -> a * c <= b * d)%Q.
Proof. intros. nra. Qed.

Lemma float_positive (m : positive) (e : Z) : (0 < inject_Z (Z.pos m) * pow2 e)%Q.
Proof.
  pose proof (pow2_pos e).
  assert (0 < inject_Z (Z.pos m))%Q by reflexivity. nra.
Qed.

Lemma approximates_weaken a b a' b' lo hi lo' hi' x f :
  (0 < b)%Q -> (a' <= a)%Q -> (b <= b')%Q -> lo' <= lo -> hi <= hi' ->
  approximates a b lo hi x f -> approximates a' b' lo' hi' x f.
Proof.
  intros Hb Ha Hb' Hlo Hhi [H|(m & e & -> & Hm & He & Hv)]; [left; exact H|].
  right. exists m, e. split; [reflexivity|]. split; [exact Hm|]. split; [lia|].
  pose proof (float_positive m e). split; nra.
Qed.

Lemma approximates_eq a b lo hi x x' f :
  (x == x')%Q -> approximates a b lo hi x f -> approximates a b lo hi x' f.
Proof.
  intros Hx [[-> H]|(m & e & -> & Hm & He & Hv)].
  - left. split; [reflexivity|]. rewrite <- Hx. exact H.
  - right. exists m, e. split; [reflexivity|]. split; [exact Hm|]. split; [exact He|].
    rewrite <- Hx. exact Hv.
Qed.

Lemma approximates_value a b a' b' lo hi x f :
  (0 < b)%Q -> (a' <= a)%Q -> (b <= b')%Q ->
  approximates a b lo hi x f ->
  (f = S754_zero false \/ exists m e, f = S754_finite false m e) /\
  (0 <= x)%Q /\
  (a' * x <= float_value f <= b' * x)%Q.
Proof.
  intros Hb Ha Hb' [[-> H]|(m & e & -> & Hm & He & Hv)].
  - split; [left; reflexivity|]. simpl. rewrite H. split; [lra|]. split; lra.
  - split; [right; exists m, e; reflexivity|]. simpl.
    pose proof (float_positive m e). split; [nra|]. split; nra.
Qed.

(** A sum of two approximations is one of the sum, with one more
    rounding; [+0.0] is added exactly. *)
Lemma add_approximates a b lo hi x y f g :
  (0 <= a)%Q -> (0 < b)%Q -> -1000 <= lo -> hi <= 900 ->
  approximates a b lo hi x f -> approximates a b lo hi y g ->
  approximates (a * (1 - u53)) (b * (1 + u53)) lo (hi + 2) (x + y) (Float.add f g).
Proof.
  intros Ha Hb Hlo Hhi Hf Hg. pose proof u53_bounds as [Hu0 Hu1].
  assert (Hwa : (a * (1 - u53) <= a)%Q) by nra.
  assert (Hwb : (b <= b * (1 + u53))%Q) by nra.
  destruct Hf as [[-> Hx]|(mx & ex & -> & Hmx & Hex & Hvx)].
  - apply approximates_eq with y; [rewrite Hx; ring|].
    apply approximates_weaken with a b lo hi; [assumption..|lia|lia|].
    destruct Hg as [[-> Hy]|(my & ey & -> & Hg)]; [left|right].
    + split; [reflexivity|exact Hy].
    + exists my, ey. split; [reflexivity|exact Hg].
  - destruct Hg as [[-> Hy]|(my & ey & -> & Hmy & Hey & Hvy)].
    + apply approximates_eq with x; [rewrite Hy; ring|].
      apply approximates_weaken with a b lo hi; [assumption..|lia|lia|].
      right. exists mx, ex. repeat split; tauto || lia.
    + destruct (add_spec mx ex my ey Hmx Hmy) as (m & e & Hadd & Hm & He & Hv);
        [lia|lia|].
      right. exists m, e. split; [exact Hadd|]. split; [exact Hm|]. split; [lia|].
      pose proof (float_positive mx ex). pose proof (float_positive my ey).
      set (vx := (inject_Z (Z.pos mx) * pow2 ex)%Q) in *.
      set (vy := (inject_Z (Z.pos my) * pow2 ey)%Q) in *.
      set (v := (inject_Z (Z.pos m) * pow2 e)%Q) in *.
      split.
      * apply Qle_trans with ((1 - u53) * (vx + vy))%Q; [|tauto].
        assert (a * (x + y) <= vx + vy)%Q by lra.
        assert (0 <= 1 - u53)%Q by lra.
        nra.
      * apply Qle_trans with ((1 + u53) * (vx + vy))%Q; [tauto|].
        assert (vx + vy <= b * (x + y))%Q by lra.
        nra.
Qed.

(** ** The terms of the cost estimate *)

Lemma factor_below (a : Q) :
  (0 <= a -> 0 <= a * (1 - u53) /\ a * (1 - u53) <= a)%Q.
Proof. intros Ha. pose proof u53_bounds as [Hu0 Hu1]. split; nra. Qed.

Lemma factor_above (b : Q) :
  (0 < b -> 0 < b * (1 + u53) /\ b <= b * (1 + u53))%Q.
Proof. intros Hb. pose proof u53_bounds as [Hu0 Hu1]. split; nra. Qed.

(** One term [(total / 1_000_000) * rate]: three roundings, that of the
    rate's literal, of the quotient and of the product. *)
Lemma component_cost_approximates (total : Z) (mr : positive) (er : Z) (R : Q) :
  0 <= total < 2 ^ 62 ->
  2 ^ 52 <= Z.pos mr < 2 ^ 53 -> -54 <= er <= -49 ->
  ((1 - u53) * R <= inject_Z (Z.pos mr) * pow2 er <= (1 + u53) * R)%Q ->
  exists f,
    component_cost total (S754_finite false mr er) = inr f /\
    approximates ((1 - u53) * (1 - u53) * (1 - u53))
      ((1 + u53) * (1 + u53) * (1 + u53)) (-74) (-4)
      (inject_Z total * R / 1000000) f.
Proof.
  intros Ht Hmr Her HR. pose proof u53_bounds as [Hu0 Hu1].
  destruct total as [|p|p]; [| |lia].
  - exists (S754_zero false). split; [reflexivity|]. left. split; [reflexivity|].
    change (inject_Z 0) with 0%Q. unfold Qdiv. ring.
  - assert (Hdp : Z.pos (digits2_pos p) <= 62) by (apply digits2_pos_le; lia).
    assert (Hd1 : 1 <= Z.pos (digits2_pos p)) by lia.
    destruct (truediv_spec p 1000000) as (mq & eq & Hdiv & Hmq & Heq & Hq).
    { change (Z.pos (digits2_pos 1000000)) with 20. lia. }
    { change (Z.pos (digits2_pos 1000000)) with 20. lia. }
    change (Z.pos (digits2_pos 1000000)) with 20 in Heq.
    destruct (mul_spec mq eq mr er Hmq Hmr) as (m & e & Hmul & Hm & He & Hv); [lia|].
    exists (S754_finite false m e). split.
    { unfold component_cost. rewrite Hdiv. unfold try, Float.mul, Float.prec, Float.emax.
      rewrite Hmul. reflexivity. }
    right. exists m, e. split; [reflexivity|]. split; [exact Hm|]. split; [lia|].
    pose proof (float_positive mq eq). pose proof (float_positive mr er).
    set (vq := (inject_Z (Z.pos mq) * pow2 eq)%Q) in *.
    set (vr := (inject_Z (Z.pos mr) * pow2 er)%Q) in *.
    set (v := (inject_Z (Z.pos m) * pow2 e)%Q) in *.
    set (X := (inject_Z (Z.pos p) / inject_Z 1000000)%Q) in *.
    assert (HX : (inject_Z (Z.pos p) * R / 1000000 == X * R)%Q).
    { unfold X. change (inject_Z 1000000) with 1000000%Q. field. }
    rewrite HX.
    assert (HXpos : (0 < X)%Q) by nra.
    assert (HRpos : (0 < R)%Q) by nra.
    assert (Hlo : ((1 - u53) * X * ((1 - u53) * R) <= vq * vr)%Q)
      by (apply Qmult_mono; nra || tauto).
    assert (Hhi : (vq * vr <= (1 + u53) * X * ((1 + u53) * R))%Q)
      by (apply Qmult_mono; lra || tauto).
    split.
    + apply Qle_trans with ((1 - u53) * (vq * vr))%Q; [|tauto]. nra.
    + apply Qle_trans with ((1 + u53) * (vq * vr))%Q; [tauto|]. nra.
Qed.

Lemma lit_3_value : (float_value Float.lit_3 == 3)%Q.
Proof. reflexivity. Qed.

Lemma lit_15_value : (float_value Float.lit_15 == 15)%Q.
Proof. reflexivity. Qed.

Lemma lit_0_30_value :
  ((1 - u53) * (3 # 10) <= float_value Float.lit_0_30 <= (1 + u53) * (3 # 10))%Q.
Proof. split; apply Qle_bool_imp_le; vm_compute; reflexivity. Qed.

(** The four terms and their three additions: six roundings, and
    [(1 + u53)^6 <= 1 + 2^-50]. *)
Lemma cost_formula_approximates (input output cache_creation cache_read : Z) :
  0 <= input < 2 ^ 62 -> 0 <= output < 2 ^ 62 ->
  0 <= cache_creation < 2 ^ 62 -> 0 <= cache_read < 2 ^ 62 ->
  exists f,
    cost_formula input output cache_creation cache_read = inr f /\
    (f = S754_zero false \/ exists m e, f = S754_finite false m e) /\
    ((1 - pow2 (-50)) * exact_cost input output cache_creation cache_read
     <= float_value f
     <= (1 + pow2 (-50)) * exact_cost input output cache_creation cache_read)%Q.
Proof.
  intros Hi Ho Hc Hr. pose proof u53_bounds as [Hu0 Hu1].
  set (a3 := ((1 - u53) * (1 - u53) * (1 - u53))%Q).
  set (b3 := ((1 + u53) * (1 + u53) * (1 + u53))%Q).
  assert (Ha1 : (0 <= 1 - u53)%Q) by lra.
  assert (Hb1 : (0 < 1 + u53)%Q) by lra.
  assert (Ha3 : (0 <= a3)%Q)
    by (unfold a3; apply factor_below, factor_below, Ha1).
  assert (Hb3 : (0 < b3)%Q)
    by (unfold b3; apply factor_above, factor_above, Hb1).
  assert (Hrate3 : ((1 - u53) * 3 <= inject_Z (Z.pos 6755399441055744) * pow2 (-51)
                    <= (1 + u53) * 3)%Q).
  { assert (inject_Z (Z.pos 6755399441055744) * pow2 (-51) == 3)%Q as -> by reflexivity.
    split; lra. }
  assert (Hrate15 : ((1 - u53) * 15 <= inject_Z (Z.pos 8444249301319680) * pow2 (-49)
                     <= (1 + u53) * 15)%Q).
  { assert (inject_Z (Z.pos 8444249301319680) * pow2 (-49) == 15)%Q as -> by reflexivity.
    split; lra. }
  pose proof lit_0_30_value as Hrate030. simpl float_value in Hrate030.
  destruct (component_cost_approximates input 6755399441055744 (-51) 3 Hi)
    as (f1 & H1 & A1); [lia|lia|exact Hrate3|].
  destruct (component_cost_approximates output 8444249301319680 (-49) 15 Ho)
    as (f2 & H2 & A2); [lia|lia|exact Hrate15|].
  destruct (component_cost_approximates cache_creation 6755399441055744 (-51) 3 Hc)
    as (f3 & H3 & A3); [lia|lia|exact Hrate3|].
  destruct (component_cost_approximates cache_read 5404319552844595 (-54) (3 # 10) Hr)
    as (f4 & H4 & A4); [lia|lia|exact Hrate030|].
  fold a3 b3 in A1, A2, A3, A4.
  exists (Float.add (Float.add (Float.add f1 f2) f3) f4). split.
  { unfold cost_formula, Float.lit_3, Float.lit_15, Float.lit_0_30.
    rewrite H1. cbn [try]. rewrite H2. cbn [try]. rewrite H3. cbn [try].
    rewrite H4. reflexivity. }
  set (a4 := (a3 * (1 - u53))%Q). set (b4 := (b3 * (1 + u53))%Q).
  set (a5 := (a4 * (1 - u53))%Q). set (b5 := (b4 * (1 + u53))%Q).
  set (a6 := (a5 * (1 - u53))%Q). set (b6 := (b5 * (1 + u53))%Q).
  assert (Ha4 : (0 <= a4 /\ a4 <= a3)%Q) by (apply factor_below, Ha3).
  assert (Hb4 : (0 < b4 /\ b3 <= b4)%Q) by (apply factor_above, Hb3).
  assert (Ha5 : (0 <= a5 /\ a5 <= a4)%Q) by (apply factor_below; tauto).
  assert (Hb5 : (0 < b5 /\ b4 <= b5)%Q) by (apply factor_above; tauto).
  assert (A12 : approximates a4 b4 (-74) (-2)
                  (inject_Z input * 3 / 1000000 + inject_Z output * 15 / 1000000)
                  (Float.add f1 f2)).
  { apply (add_approximates a3 b3 (-74) (-4)); [assumption|assumption|lia|lia|..];
      assumption. }
  assert (A123 : approximates a5 b5 (-74) 0
                   (inject_Z input * 3 / 1000000 + inject_Z output * 15 / 1000000
                    + inject_Z cache_creation * 3 / 1000000)
                   (Float.add (Float.add f1 f2) f3)).
  { apply (add_approximates a4 b4 (-74) (-2)); [tauto|tauto|lia|lia|exact A12|].
    apply approximates_weaken with a3 b3 (-74) (-4); [assumption|tauto|tauto|lia|lia|].
    exact A3. }
  assert (A1234 : approximates a6 b6 (-74) 2
                    (exact_cost input output cache_creation cache_read)
                    (Float.add (Float.add (Float.add f1 f2) f3) f4)).
  { unfold exact_cost.
    apply (add_approximates a5 b5 (-74) 0); [tauto|tauto|lia|lia|exact A123|].
    apply approximates_weaken with a3 b3 (-74) (-4);
      [assumption| |  |lia|lia|exact A4].
    - apply Qle_trans with a4; tauto.
    - apply Qle_trans with b4; tauto. }
  assert (Ha6 : (1 - pow2 (-50) <= a6)%Q)
    by (apply Qle_bool_imp_le; vm_compute; reflexivity).
  assert (Hb6 : (b6 <= 1 + pow2 (-50))%Q)
    by (apply Qle_bool_imp_le; vm_compute; reflexivity).
  assert (Hb6pos : (0 < b6)%Q) by (apply factor_above; tauto).
  destruct (approximates_value a6 b6 _ _ _ _ _ _ Hb6pos Ha6 Hb6 A1234) as (Hf & _ & Hv).
  split; [exact Hf|exact Hv].
Qed.

(** ** The cost estimate against the exact formula *)

(** C6. The estimated cost of the text report is the spec's
    total_input × 3 / 1,000,000 + total_output × 15 / 1,000,000 +
    total_cache_creation × 3 / 1,000,000 + total_cache_read × 0.30 /
    1,000,000 up to the rounding of binary64: when [generate_text_report]
    returns and each total (the sum of that counter over all tool records
    plus all agent records of the monitor) is at least 0 and below 2^62,
    the cost figure is +0.0 or a positive finite float whose value is
    within a relative error of 2^-50 of the exact value of the formula;
    and when the records are those of a single tool with input 1,000,000
    and every other counter 0, the cost is exactly 3.0. *)
Theorem estimated_cost_within_rounding (st st' : monitor) (figs : figures) :
  generate_text_report st = (st', inr figs) →
  (∀ c, 0 ≤ grand_total c st < 2 ^ 62) →
  (cost figs = S754_zero false ∨ ∃ m e, cost figs = S754_finite false m e) ∧
  ((1 - pow2 (-50))
     * exact_cost (grand_total InputTokens st) (grand_total OutputTokens st)
         (grand_total CacheCreation st) (grand_total CacheRead st)
   <= float_value (cost figs)
   <= (1 + pow2 (-50))
      * exact_cost (grand_total InputTokens st) (grand_total OutputTokens st)
          (grand_total CacheCreation st) (grand_total CacheRead st))%Q ∧
  (∀ k, tool_token_usage st = {[k := TokenStats 1000000 0 0 0]} →
        agent_usage st = ∅ →
        cost figs = Float.lit_3).
Proof.
  unfold generate_text_report. intros [= <- Hfigs] Htotals.
  destruct (token_consumers (touch_tool_tokens st)) as [|consumers] eqn:Hc; [done|].
  simpl in Hfigs.
  destruct (overall_efficiency consumers) as [|eff]; [done|]. simpl in Hfigs.
  destruct (estimated_cost (touch_tool_tokens st) consumers) as [|c] eqn:Hcost;
    [done|].
  simpl in Hfigs. injection Hfigs as <-. simpl.
  rewrite (estimated_cost_spec _ _ Hc), !grand_total_touch in Hcost.
  destruct (cost_formula_approximates _ _ _ _
              (Htotals InputTokens) (Htotals OutputTokens)
              (Htotals CacheCreation) (Htotals CacheRead))
    as (f & Hf & Hfinite & Hvalue).
  rewrite Hf in Hcost. injection Hcost as <-.
  split; [exact Hfinite|]. split; [exact Hvalue|].
  intros k Htools Hagents. unfold grand_total in Hf.
  rewrite Htools, Hagents, !sum_values_singleton, !sum_values_empty in Hf.
  vm_compute in Hf. by injection Hf as <-.
Qed.

(** On the monitor with totals 350,000, 60,000, 3,000 and 1,400,000 the
    exact formula gives $2.379 and the report the float
    5357031756757204 × 2^-51. *)
Lemma estimated_cost_within_rounding_witness :
  ∃ st' figs,
    generate_text_report priced_monitor = (st', inr figs) ∧
    cost figs = S754_finite false 5357031756757204 (-51) ∧
    ((1 - pow2 (-50)) * (2379 # 1000) <= float_value (cost figs)
     <= (1 + pow2 (-50)) * (2379 # 1000))%Q.
Proof.
  destruct (generate_text_report priced_monitor) as [st' [e|figs]] eqn:Hreport;
    [vm_compute in Hreport; discriminate|].
  exists st', figs. split; [reflexivity|].
  split; [vm_compute in Hreport; by injection Hreport as _ <-|].
  assert (Htotals : ∀ c, 0 ≤ grand_total c priced_monitor < 2 ^ 62)
    by (intros []; vm_compute; split; congruence).
  destruct (estimated_cost_within_rounding priced_monitor st' figs Hreport Htotals)
    as (_ & Hvalue & _).
  assert (Hexact : (exact_cost (grand_total InputTokens priced_monitor)
                      (grand_total OutputTokens priced_monitor)
                      (grand_total CacheCreation priced_monitor)
                      (grand_total CacheRead priced_monitor) == 2379 # 1000)%Q)
    by reflexivity.
  rewrite Hexact in Hvalue. exact Hvalue.
Defined.

(** With 100,000 input tokens and nothing else the formula gives 30
    cents, 3/10.  The report's float is 5404319552844596 × 2^-54, that
    is 0.30000000000000004: it is not 3/10, and it is not the float
    nearest to 3/10 either, which is what the formula typed as
    [100000 * 3 / 1_000_000] gives. *)
Lemma estimated_cost_is_rounded :
  ∃ st' figs,
    generate_text_report hundred_thousand_monitor = (st', inr figs) ∧
    grand_total InputTokens hundred_thousand_monitor = 100000 ∧
    grand_total OutputTokens hundred_thousand_monitor = 0 ∧
    grand_total CacheCreation hundred_thousand_monitor = 0 ∧
    grand_total CacheRead hundred_thousand_monitor = 0 ∧
    (exact_cost 100000 0 0 0 == 3 # 10)%Q ∧
    cost figs = S754_finite false 5404319552844596 (-54) ∧
    ¬ (float_value (cost figs) == exact_cost 100000 0 0 0)%Q ∧
    cost_as_worded 100000 3 = inr Float.lit_0_30 ∧
    inr (cost figs) ≠ cost_as_worded 100000 3.
Proof.
  destruct (generate_text_report hundred_thousand_monitor) as [st' [e|figs]] eqn:Hreport;
    [vm_compute in Hreport; discriminate|].
  exists st', figs. split; [reflexivity|].
  assert (Hcost : cost figs = S754_finite false 5404319552844596 (-54))
    by (vm_compute in Hreport; by injection Hreport as _ <-).
  rewrite Hcost. split_and!; try reflexivity.
  - intros H. vm_compute in H. discriminate.
  - intros H. vm_compute in H. discriminate.
Qed.
